(** * moltbook-gpt: the decision-and-safety pipeline

    A shallow embedding of the policy engine ([src/policy/engine.ts]),
    the durable memory store ([src/memory/store.ts]), the decision schema
    ([types/decision.ts]) and the scheduler ([src/scheduler/loop.ts]),
    followed by the properties the specification states about them.

    Conventions.
    - A JavaScript string is a Rocq [string]; each character stands for one
      UTF-16 code unit of the Basic Latin / Latin-1 range, so [charCodeAt]
      is [nat_of_ascii] and [.length] is [String.length].
    - [Date.now()] is read from an explicit argument (milliseconds, [Z]).
    - A JavaScript number holding a count or a time is a [Z]; a confidence
      is the rational value of the double, a [Q].
    - An optional field ([x?: T]) is an [option]; mutation of [this] is
      explicit state passing. *)

From Stdlib Require Import ZArith QArith Lia Bool List Ascii String.
From Stdlib Require Import Numbers.DecimalString.
From stdpp Require Import base option gmap strings.
Import ListNotations.

Local Open Scope string_scope.
Local Open Scope Z_scope.

(** ** JavaScript primitives used by the sources *)

Module JS.

(** Truthiness of an optional string: [undefined] and [""] are falsy. *)
Definition truthy (o : option string) : bool :=
  match o with
  | Some s => negb (String.eqb s "")
  | None => false
  end.

(** [a ?? b] on optional values. *)
Definition nullish {A} (a b : option A) : option A :=
  match a with
  | Some _ => a
  | None => b
  end.

(** [xs.includes(x)] on an array of strings. *)
Definition includes (xs : list string) (x : string) : bool :=
  existsb (String.eqb x) xs.

(** [xs.slice(-n)]: the last [n] elements ([n > 0]). *)
Definition slice_last {A} (n : nat) (xs : list A) : list A :=
  skipn (List.length xs - n) xs.

(** [xs.shift()]: drop the first element. *)
Definition shift {A} (xs : list A) : list A := List.tl xs.

(** [xs.push(x)]. *)
Definition push {A} (xs : list A) (x : A) : list A := xs ++ [x].

(** The characters matched by [\s] and stripped by [trim()], within
    Latin-1: TAB, LF, VT, FF, CR, SPACE and NBSP. *)
Definition is_whitespace (c : ascii) : bool :=
  let n := nat_of_ascii c in
  ((9 <=? n)%nat && (n <=? 13)%nat) || (n =? 32)%nat || (n =? 160)%nat.

(** [toLowerCase] on one Latin-1 code unit: A-Z and the accented capitals
    U+00C0..U+00DE (without the multiplication sign U+00D7) move up by 32. *)
Definition lower_char (c : ascii) : ascii :=
  let n := nat_of_ascii c in
  if ((65 <=? n)%nat && (n <=? 90)%nat)
     || ((192 <=? n)%nat && (n <=? 222)%nat && negb (n =? 215)%nat)
  then ascii_of_nat (n + 32)
  else c.

Fixpoint toLowerCase (s : string) : string :=
  match s with
  | EmptyString => EmptyString
  | String c s' => String (lower_char c) (toLowerCase s')
  end.

(** [s.replace(/\s+/g, " ")]: every maximal run of whitespace becomes one
    space. [in_run] tells that the previous character was whitespace. *)
Fixpoint collapse (in_run : bool) (s : string) : string :=
  match s with
  | EmptyString => EmptyString
  | String c s' =>
      if is_whitespace c
      then (if in_run then collapse true s' else String " " (collapse true s'))
      else String c (collapse false s')
  end.

Definition replace_whitespace_runs (s : string) : string := collapse false s.

Fixpoint trimStart (s : string) : string :=
  match s with
  | EmptyString => EmptyString
  | String c s' => if is_whitespace c then trimStart s' else s
  end.

Fixpoint trimEnd (s : string) : string :=
  match s with
  | EmptyString => EmptyString
  | String c s' =>
      let r := trimEnd s' in
      if is_whitespace c && String.eqb r "" then "" else String c r
  end.

Definition trim (s : string) : string := trimEnd (trimStart s).

(** [x | 0]: reduction to a signed 32-bit integer. *)
Definition toInt32 (x : Z) : Z := (x + 2 ^ 31) mod 2 ^ 32 - 2 ^ 31.

(** [String(h)] for an integer. *)
Definition String_of_int (h : Z) : string :=
  NilZero.string_of_int (Z.to_int h).

(** The loop [h = (h * 31 + s.charCodeAt(i)) | 0] from [h]. *)
Fixpoint hash_loop (h : Z) (s : string) : Z :=
  match s with
  | EmptyString => h
  | String c s' => hash_loop (toInt32 (h * 31 + Z.of_nat (nat_of_ascii c))) s'
  end.

(** [a < b] on numbers that are rationals. *)
Definition Qltb (a b : Q) : bool := negb (Qle_bool b a).

End JS.

(** ** types/decision.ts *)

Inductive Action := post | comment | vote | ignore.
Inductive VoteDirection := up | down.

Record Decision := mkDecision {
  action : Action;
  targetId : option string;
  title : option string;
  content : option string;
  voteDirection : option VoteDirection;
  confidence : Q
}.

Definition Action_eqb (a b : Action) : bool :=
  match a, b with
  | post, post | comment, comment | vote, vote | ignore, ignore => true
  | _, _ => false
  end.

(** ** policy/engine.ts *)

Module Policy.

Record PolicyConfig := mkConfig {
  maxPostsPerHour : Z;
  maxCommentsPerThread : Z;
  confidenceThreshold : Q;
  maxContentLength : Z;
  cooldownMinutesPerSubmolt : Z
}.

Definition DEFAULT_CONFIG : PolicyConfig :=
  {| maxPostsPerHour := 5;
     maxCommentsPerThread := 3;
     confidenceThreshold := 6 # 10;
     maxContentLength := 2000;
     cooldownMinutesPerSubmolt := 10 |}.

Inductive PolicyVerdict :=
| Allowed
| Rejected (reason : string).

(** The private fields of [PolicyEngine]. *)
Record PolicyEngine := mkEngine {
  config : PolicyConfig;
  postsInLastHour : list Z;
  commentsByThread : gmap string Z;
  lastPostBySubmolt : gmap string Z;
  recentContentHashes : list string
}.

Definition maxRecentHashes : nat := 50.

(** [new PolicyEngine(config)] *)
Definition new (cfg : PolicyConfig) : PolicyEngine :=
  {| config := cfg;
     postsInLastHour := [];
     commentsByThread := ∅;
     lastPostBySubmolt := ∅;
     recentContentHashes := [] |}.

Definition normalize (s : string) : string :=
  JS.trim (JS.replace_whitespace_runs (JS.toLowerCase s)).

Definition simpleHash (s : string) : string :=
  JS.String_of_int (JS.hash_loop 0 (normalize s)).

Definition with_hashes (p : PolicyEngine) (hs : list string) : PolicyEngine :=
  {| config := config p;
     postsInLastHour := postsInLastHour p;
     commentsByThread := commentsByThread p;
     lastPostBySubmolt := lastPostBySubmolt p;
     recentContentHashes := hs |}.

Definition addContentHash (p : PolicyEngine) (c : string) : PolicyEngine :=
  let hs := JS.push (recentContentHashes p) (simpleHash c) in
  with_hashes p
    (if (maxRecentHashes <? List.length hs)%nat then JS.shift hs else hs).

Definition isRepetition (p : PolicyEngine) (c : string) : bool :=
  JS.includes (recentContentHashes p) (simpleHash c).

Record ValidateContext := mkVCtx {
  v_submoltId : option string;
  v_threadId : option string;
  actionSource : Action
}.

Definition with_posts (p : PolicyEngine) (ts : list Z) : PolicyEngine :=
  {| config := config p;
     postsInLastHour := ts;
     commentsByThread := commentsByThread p;
     lastPostBySubmolt := lastPostBySubmolt p;
     recentContentHashes := recentContentHashes p |}.

(** The two content checks shared by the post and the comment branch:
    [Some reason] when one of them returns. *)
Definition content_checks (p : PolicyEngine) (d : Decision) : option string :=
  match content d with
  | Some c =>
      if JS.truthy (Some c) then
        if Z.of_nat (String.length c) >? maxContentLength (config p)
        then Some "content too long"
        else if isRepetition p c then Some "repetition detected"
        else None
      else None
  | None => None
  end.

Definition post_checks (p : PolicyEngine) (d : Decision)
    (ctx : ValidateContext) (now : Z) : option string :=
  if Z.of_nat (List.length (postsInLastHour p)) >=? maxPostsPerHour (config p)
  then Some "max posts per hour exceeded"
  else
    match content_checks p d with
    | Some r => Some r
    | None =>
        match v_submoltId ctx with
        | Some sub =>
            if JS.truthy (Some sub) then
              let cooldownMs := cooldownMinutesPerSubmolt (config p) * 60 * 1000 in
              match lastPostBySubmolt p !! sub with
              | Some last =>
                  if now - last <? cooldownMs then Some "submolt cooldown" else None
              | None => None
              end
            else None
        | None => None
        end
    end.

Definition comment_checks (p : PolicyEngine) (d : Decision)
    (ctx : ValidateContext) : option string :=
  let threadId := JS.nullish (v_threadId ctx) (targetId d) in
  let over :=
    match threadId with
    | Some t =>
        if JS.truthy (Some t) then
          let count := default 0 (commentsByThread p !! t) in
          count >=? maxCommentsPerThread (config p)
        else false
    | None => false
    end in
  if over then Some "max comments per thread exceeded"
  else content_checks p d.

Definition vote_checks (d : Decision) : option string :=
  if negb (JS.truthy (targetId d)) || negb (bool_decide (is_Some (voteDirection d)))
  then Some "vote requires targetId and voteDirection"
  else None.

(** [validate(decision, context)] at time [now]; returns the verdict and
    the engine, whose sliding window the call may have pruned. *)
Definition validate (p : PolicyEngine) (d : Decision) (ctx : ValidateContext)
    (now : Z) : PolicyVerdict * PolicyEngine :=
  if Action_eqb (action d) ignore then (Allowed, p)
  else if JS.Qltb (confidence d) (confidenceThreshold (config p))
  then (Rejected "confidence below threshold", p)
  else
    let oneHourAgo := now - 60 * 60 * 1000 in
    let p1 := with_posts p (List.filter (fun t => t >? oneHourAgo) (postsInLastHour p)) in
    let verdict :=
      match action d with
      | post =>
          match post_checks p1 d ctx now with
          | Some r => Rejected r
          | None => Allowed
          end
      | comment =>
          match comment_checks p1 d ctx with
          | Some r => Rejected r
          | None => Allowed
          end
      | vote =>
          match vote_checks d with
          | Some r => Rejected r
          | None => Allowed
          end
      | ignore => Allowed
      end in
    (verdict, p1).

Record RecordContext := mkRCtx {
  r_submoltId : option string;
  r_threadId : option string;
  r_content : option string
}.

Definition record_hash (p : PolicyEngine) (c : option string) : PolicyEngine :=
  match c with
  | Some s => if JS.truthy (Some s) then addContentHash p s else p
  | None => p
  end.

(** [recordAction(action, context)] at time [now]. The TypeScript type
    admits only ["post"] and ["comment"]; the other two actions match
    neither [if] and leave the engine as it is. *)
Definition recordAction (p : PolicyEngine) (a : Action) (ctx : RecordContext)
    (now : Z) : PolicyEngine :=
  match a with
  | post =>
      let p1 := with_posts p (JS.push (postsInLastHour p) now) in
      let p2 :=
        match r_submoltId ctx with
        | Some sub =>
            if JS.truthy (Some sub) then
              {| config := config p1;
                 postsInLastHour := postsInLastHour p1;
                 commentsByThread := commentsByThread p1;
                 lastPostBySubmolt := <[sub := now]> (lastPostBySubmolt p1);
                 recentContentHashes := recentContentHashes p1 |}
            else p1
        | None => p1
        end in
      record_hash p2 (r_content ctx)
  | comment =>
      let p1 :=
        match r_threadId ctx with
        | Some t =>
            if JS.truthy (Some t) then
              let count := default 0 (commentsByThread p !! t) in
              {| config := config p;
                 postsInLastHour := postsInLastHour p;
                 commentsByThread := <[t := count + 1]> (commentsByThread p);
                 lastPostBySubmolt := lastPostBySubmolt p;
                 recentContentHashes := recentContentHashes p |}
            else p
        | None => p
        end in
      record_hash p1 (r_content ctx)
  | _ => p
  end.

End Policy.

(** ** memory/store.ts *)

Inductive Outcome := executed | blocked | skipped.

Module Memory.

Record StoredContext := mkSCtx {
  s_submoltId : option string;
  s_threadId : option string
}.

Record StoredDecision := mkStored {
  at_ : string;
  context : StoredContext;
  decision : Decision;
  outcome : option Outcome
}.

Inductive TickSource := feed | submolts | global.

Record LastTickSummary := mkSummary {
  summary_at : string;
  source : TickSource;
  feedOrSubmoltCount : Z;
  newPostsProcessed : Z;
  dmActivity : option bool;
  dmPendingRequests : option Z;
  dmUnread : option Z
}.

Record MemoryState := mkState {
  lastSeenThreadIds : list string;
  lastSeenCommentIds : list string;
  agentPostIds : list string;
  agentCommentIds : list string;
  recentDecisions : list StoredDecision;
  agentId : option string;
  claimedAt : option string;
  firstPostAttempted : option bool;
  recentPostContentHashes : list string;
  lastTickAt : option string;
  lastTickSummary : option LastTickSummary;
  lastPostAt : option string
}.

(** [Partial<MemoryState>]: what [JSON.parse(raw)] is cast to in [load]. *)
Record PartialMemoryState := mkPartial {
  p_lastSeenThreadIds : option (list string);
  p_lastSeenCommentIds : option (list string);
  p_agentPostIds : option (list string);
  p_agentCommentIds : option (list string);
  p_recentDecisions : option (list StoredDecision);
  p_agentId : option string;
  p_claimedAt : option string;
  p_firstPostAttempted : option bool;
  p_recentPostContentHashes : option (list string);
  p_lastTickAt : option string;
  p_lastTickSummary : option LastTickSummary;
  p_lastPostAt : option string
}.

Definition MAX_LAST_SEEN : nat := 500.
Definition MAX_AGENT_IDS : nat := 200.
Definition MAX_RECENT_DECISIONS : nat := 100.
Definition MAX_RECENT_POST_HASHES : nat := 100.

(** The fields of [MemoryStore] ([filePath] names the one file the
    store reads and writes; the file itself is the [Disk] below). *)
Record MemoryStore := mkStore {
  state : MemoryState;
  dirty : bool
}.

Definition initial_state : MemoryState :=
  {| lastSeenThreadIds := [];
     lastSeenCommentIds := [];
     agentPostIds := [];
     agentCommentIds := [];
     recentDecisions := [];
     agentId := None;
     claimedAt := None;
     firstPostAttempted := None;
     recentPostContentHashes := [];
     lastTickAt := None;
     lastTickSummary := None;
     lastPostAt := None |}.

(** [new MemoryStore(config)] *)
Definition new : MemoryStore := {| state := initial_state; dirty := false |}.

(** *** The backing file *)

(** What the text of the file is to [JSON.parse]: not JSON at all, the
    literal [null], or a document. *)
Inductive FileContent :=
| Malformed
| NullDocument
| Document (data : PartialMemoryState).

(** The file at [filePath]: absent, or present with some content. *)
Definition Disk := option FileContent.

Inductive Thrown :=
| ErrnoException (code : string)
| SyntaxError
| TypeError.

Inductive Result (A : Type) :=
| Ok (a : A)
| Throw (e : Thrown).
Arguments Ok {A} a.
Arguments Throw {A} e.

(** [(err as NodeJS.ErrnoException)?.code] *)
Definition error_code (e : Thrown) : option string :=
  match e with
  | ErrnoException c => Some c
  | SyntaxError | TypeError => None
  end.

(** [readFile(filePath, "utf-8")]: [io] is a failure of the read other
    than the absence of the file (permissions, a directory, ...). *)
Definition readFile (disk : Disk) (io : option string) : Result FileContent :=
  match io with
  | Some code => Throw (ErrnoException code)
  | None =>
      match disk with
      | None => Throw (ErrnoException "ENOENT")
      | Some c => Ok c
      end
  end.

Definition JSON_parse (c : FileContent) : Result (option PartialMemoryState) :=
  match c with
  | Malformed => Throw SyntaxError
  | NullDocument => Ok None
  | Document data => Ok (Some data)
  end.

(** The object literal assigned to [this.state] in [load]. *)
Definition hydrate (data : PartialMemoryState) : MemoryState :=
  {| lastSeenThreadIds := default [] (p_lastSeenThreadIds data);
     lastSeenCommentIds := default [] (p_lastSeenCommentIds data);
     agentPostIds := default [] (p_agentPostIds data);
     agentCommentIds := default [] (p_agentCommentIds data);
     recentDecisions := default [] (p_recentDecisions data);
     agentId := p_agentId data;
     claimedAt := p_claimedAt data;
     firstPostAttempted := Some (default false (p_firstPostAttempted data));
     recentPostContentHashes := default [] (p_recentPostContentHashes data);
     lastTickAt := p_lastTickAt data;
     lastTickSummary := p_lastTickSummary data;
     lastPostAt := p_lastPostAt data |}.

(** The [try] block of [load]. *)
Definition load_try (s : MemoryStore) (disk : Disk) (io : option string)
    : Result MemoryStore :=
  match readFile disk io with
  | Throw e => Throw e
  | Ok raw =>
      match JSON_parse raw with
      | Throw e => Throw e
      | Ok None => Throw TypeError
      | Ok (Some data) => Ok {| state := hydrate data; dirty := dirty s |}
      end
  end.

(** [load()]: the [catch] swallows ENOENT and rethrows the rest. *)
Definition load (s : MemoryStore) (disk : Disk) (io : option string)
    : Result MemoryStore :=
  match load_try s disk io with
  | Ok s' => Ok s'
  | Throw e =>
      match error_code e with
      | Some code => if String.eqb code "ENOENT" then Ok s else Throw e
      | None => Throw e
      end
  end.

(** [JSON.parse(JSON.stringify(state))]: every defined field is written
    and read back; an [undefined] one is left out. *)
Definition stringify (st : MemoryState) : FileContent :=
  Document
    {| p_lastSeenThreadIds := Some (lastSeenThreadIds st);
       p_lastSeenCommentIds := Some (lastSeenCommentIds st);
       p_agentPostIds := Some (agentPostIds st);
       p_agentCommentIds := Some (agentCommentIds st);
       p_recentDecisions := Some (recentDecisions st);
       p_agentId := agentId st;
       p_claimedAt := claimedAt st;
       p_firstPostAttempted := firstPostAttempted st;
       p_recentPostContentHashes := Some (recentPostContentHashes st);
       p_lastTickAt := lastTickAt st;
       p_lastTickSummary := lastTickSummary st;
       p_lastPostAt := lastPostAt st |}.

(** [save()]: [io] is a failure of [mkdir] or [writeFile], if any. *)
Definition save (s : MemoryStore) (disk : Disk) (io : option string)
    : Result (MemoryStore * Disk) :=
  if negb (dirty s) then Ok (s, disk)
  else
    match io with
    | Some code => Throw (ErrnoException code)
    | None => Ok ({| state := state s; dirty := false |}, Some (stringify (state s)))
    end.

(** *** Field updates *)

Definition set_lastSeenThreadIds (st : MemoryState) (v : list string) : MemoryState :=
  {| lastSeenThreadIds := v;
     lastSeenCommentIds := lastSeenCommentIds st;
     agentPostIds := agentPostIds st;
     agentCommentIds := agentCommentIds st;
     recentDecisions := recentDecisions st;
     agentId := agentId st;
     claimedAt := claimedAt st;
     firstPostAttempted := firstPostAttempted st;
     recentPostContentHashes := recentPostContentHashes st;
     lastTickAt := lastTickAt st;
     lastTickSummary := lastTickSummary st;
     lastPostAt := lastPostAt st |}.

Definition set_lastSeenCommentIds (st : MemoryState) (v : list string) : MemoryState :=
  {| lastSeenThreadIds := lastSeenThreadIds st;
     lastSeenCommentIds := v;
     agentPostIds := agentPostIds st;
     agentCommentIds := agentCommentIds st;
     recentDecisions := recentDecisions st;
     agentId := agentId st;
     claimedAt := claimedAt st;
     firstPostAttempted := firstPostAttempted st;
     recentPostContentHashes := recentPostContentHashes st;
     lastTickAt := lastTickAt st;
     lastTickSummary := lastTickSummary st;
     lastPostAt := lastPostAt st |}.

Definition set_agentPostIds (st : MemoryState) (v : list string) : MemoryState :=
  {| lastSeenThreadIds := lastSeenThreadIds st;
     lastSeenCommentIds := lastSeenCommentIds st;
     agentPostIds := v;
     agentCommentIds := agentCommentIds st;
     recentDecisions := recentDecisions st;
     agentId := agentId st;
     claimedAt := claimedAt st;
     firstPostAttempted := firstPostAttempted st;
     recentPostContentHashes := recentPostContentHashes st;
     lastTickAt := lastTickAt st;
     lastTickSummary := lastTickSummary st;
     lastPostAt := lastPostAt st |}.

Definition set_agentCommentIds (st : MemoryState) (v : list string) : MemoryState :=
  {| lastSeenThreadIds := lastSeenThreadIds st;
     lastSeenCommentIds := lastSeenCommentIds st;
     agentPostIds := agentPostIds st;
     agentCommentIds := v;
     recentDecisions := recentDecisions st;
     agentId := agentId st;
     claimedAt := claimedAt st;
     firstPostAttempted := firstPostAttempted st;
     recentPostContentHashes := recentPostContentHashes st;
     lastTickAt := lastTickAt st;
     lastTickSummary := lastTickSummary st;
     lastPostAt := lastPostAt st |}.

Definition set_recentDecisions (st : MemoryState) (v : list StoredDecision) : MemoryState :=
  {| lastSeenThreadIds := lastSeenThreadIds st;
     lastSeenCommentIds := lastSeenCommentIds st;
     agentPostIds := agentPostIds st;
     agentCommentIds := agentCommentIds st;
     recentDecisions := v;
     agentId := agentId st;
     claimedAt := claimedAt st;
     firstPostAttempted := firstPostAttempted st;
     recentPostContentHashes := recentPostContentHashes st;
     lastTickAt := lastTickAt st;
     lastTickSummary := lastTickSummary st;
     lastPostAt := lastPostAt st |}.

Definition set_agent (st : MemoryState) (id claimed : string) : MemoryState :=
  {| lastSeenThreadIds := lastSeenThreadIds st;
     lastSeenCommentIds := lastSeenCommentIds st;
     agentPostIds := agentPostIds st;
     agentCommentIds := agentCommentIds st;
     recentDecisions := recentDecisions st;
     agentId := Some id;
     claimedAt := Some claimed;
     firstPostAttempted := firstPostAttempted st;
     recentPostContentHashes := recentPostContentHashes st;
     lastTickAt := lastTickAt st;
     lastTickSummary := lastTickSummary st;
     lastPostAt := lastPostAt st |}.

Definition set_firstPostAttempted (st : MemoryState) (v : bool) : MemoryState :=
  {| lastSeenThreadIds := lastSeenThreadIds st;
     lastSeenCommentIds := lastSeenCommentIds st;
     agentPostIds := agentPostIds st;
     agentCommentIds := agentCommentIds st;
     recentDecisions := recentDecisions st;
     agentId := agentId st;
     claimedAt := claimedAt st;
     firstPostAttempted := Some v;
     recentPostContentHashes := recentPostContentHashes st;
     lastTickAt := lastTickAt st;
     lastTickSummary := lastTickSummary st;
     lastPostAt := lastPostAt st |}.

Definition set_recentPostContentHashes (st : MemoryState) (v : list string) : MemoryState :=
  {| lastSeenThreadIds := lastSeenThreadIds st;
     lastSeenCommentIds := lastSeenCommentIds st;
     agentPostIds := agentPostIds st;
     agentCommentIds := agentCommentIds st;
     recentDecisions := recentDecisions st;
     agentId := agentId st;
     claimedAt := claimedAt st;
     firstPostAttempted := firstPostAttempted st;
     recentPostContentHashes := v;
     lastTickAt := lastTickAt st;
     lastTickSummary := lastTickSummary st;
     lastPostAt := lastPostAt st |}.

Definition set_lastPostAt (st : MemoryState) (v : string) : MemoryState :=
  {| lastSeenThreadIds := lastSeenThreadIds st;
     lastSeenCommentIds := lastSeenCommentIds st;
     agentPostIds := agentPostIds st;
     agentCommentIds := agentCommentIds st;
     recentDecisions := recentDecisions st;
     agentId := agentId st;
     claimedAt := claimedAt st;
     firstPostAttempted := firstPostAttempted st;
     recentPostContentHashes := recentPostContentHashes st;
     lastTickAt := lastTickAt st;
     lastTickSummary := lastTickSummary st;
     lastPostAt := Some v |}.

Definition mutated (st : MemoryState) : MemoryStore :=
  {| state := st; dirty := true |}.

(** [xs.push(x); if (xs.length > cap) xs = xs.slice(-cap)] *)
Definition push_capped {A} (cap : nat) (xs : list A) (x : A) : list A :=
  let ys := JS.push xs x in
  if (cap <? List.length ys)%nat then JS.slice_last cap ys else ys.

(** *** Methods *)

Definition isThreadSeen (s : MemoryStore) (threadId : string) : bool :=
  JS.includes (lastSeenThreadIds (state s)) threadId.

Definition isCommentSeen (s : MemoryStore) (commentId : string) : bool :=
  JS.includes (lastSeenCommentIds (state s)) commentId.

Definition markThreadSeen (s : MemoryStore) (threadId : string) : MemoryStore :=
  if negb (JS.includes (lastSeenThreadIds (state s)) threadId)
  then mutated (set_lastSeenThreadIds (state s)
                  (push_capped MAX_LAST_SEEN (lastSeenThreadIds (state s)) threadId))
  else s.

Definition markCommentSeen (s : MemoryStore) (commentId : string) : MemoryStore :=
  if negb (JS.includes (lastSeenCommentIds (state s)) commentId)
  then mutated (set_lastSeenCommentIds (state s)
                  (push_capped MAX_LAST_SEEN (lastSeenCommentIds (state s)) commentId))
  else s.

Definition addAgentPostId (s : MemoryStore) (id : string) : MemoryStore :=
  mutated (set_agentPostIds (state s)
             (push_capped MAX_AGENT_IDS (agentPostIds (state s)) id)).

Definition addAgentCommentId (s : MemoryStore) (id : string) : MemoryStore :=
  mutated (set_agentCommentIds (state s)
             (push_capped MAX_AGENT_IDS (agentCommentIds (state s)) id)).

(** [saveDecision(context, decision, outcome)]; [nowIso] is
    [new Date().toISOString()]. *)
Definition saveDecision (s : MemoryStore) (ctx : StoredContext) (d : Decision)
    (o : option Outcome) (nowIso : string) : MemoryStore :=
  mutated (set_recentDecisions (state s)
             (push_capped MAX_RECENT_DECISIONS (recentDecisions (state s))
                {| at_ := nowIso; context := ctx; decision := d; outcome := o |})).

Definition setAgentId (s : MemoryStore) (id nowIso : string) : MemoryStore :=
  mutated (set_agent (state s) id nowIso).

Definition getAgentId (s : MemoryStore) : option string := agentId (state s).

Definition isClaimed (s : MemoryStore) : bool := JS.truthy (agentId (state s)).

Definition hasAttemptedFirstPost (s : MemoryStore) : bool :=
  default false (firstPostAttempted (state s)).

Definition setFirstPostAttempted (s : MemoryStore) : MemoryStore :=
  mutated (set_firstPostAttempted (state s) true).

Definition newline : string := String (ascii_of_nat 10) EmptyString.

Definition contentHash (title content : string) : string :=
  let t := JS.trim (JS.replace_whitespace_runs (JS.toLowerCase title)) in
  let c := JS.trim (JS.replace_whitespace_runs (JS.toLowerCase content)) in
  JS.String_of_int (JS.hash_loop 0 (t ++ newline ++ c)).

Definition addAgentPostContent (s : MemoryStore) (title content : string) : MemoryStore :=
  mutated (set_recentPostContentHashes (state s)
             (push_capped MAX_RECENT_POST_HASHES (recentPostContentHashes (state s))
                (contentHash title content))).

Definition isDuplicatePost (s : MemoryStore) (title content : string) : bool :=
  JS.includes (recentPostContentHashes (state s)) (contentHash title content).

Definition getLastPostAt (s : MemoryStore) : option string := lastPostAt (state s).

Definition setLastPostAt (s : MemoryStore) (iso : string) : MemoryStore :=
  mutated (set_lastPostAt (state s) iso).

Record Context := mkContext {
  c_recentDecisions : list StoredDecision;
  c_agentPostIds : list string;
  c_agentCommentIds : list string;
  c_recentAgentMemory : list string
}.

Definition Action_toString (a : Action) : string :=
  match a with
  | post => "post" | comment => "comment" | vote => "vote" | ignore => "ignore"
  end.

Definition Outcome_toString (o : Outcome) : string :=
  match o with
  | executed => "executed" | blocked => "blocked" | skipped => "skipped"
  end.

Section Host.

(** How the host prints a number inside a template string. *)
Variable Number_toString : Q -> string.

Definition memoryLine (d : StoredDecision) : string :=
  let ctx :=
    match s_threadId (context d) with
    | Some t =>
        if JS.truthy (Some t) then "thread=" ++ t
        else "submolt=" ++ default "?" (s_submoltId (context d))
    | None => "submolt=" ++ default "?" (s_submoltId (context d))
    end in
  "[" ++ at_ d ++ "] " ++ Action_toString (action (decision d)) ++ " " ++ ctx
  ++ " conf=" ++ Number_toString (confidence (decision d)) ++ " "
  ++ match outcome d with Some o => Outcome_toString o | None => "-" end.

Definition getContext (s : MemoryStore) : Context :=
  let recent := JS.slice_last 20 (recentDecisions (state s)) in
  {| c_recentDecisions := recent;
     c_agentPostIds := agentPostIds (state s);
     c_agentCommentIds := agentCommentIds (state s);
     c_recentAgentMemory := map memoryLine recent |}.

End Host.

(** *** Tick bookkeeping *)

Definition set_lastTickAt (st : MemoryState) (v : string) : MemoryState :=
  {| lastSeenThreadIds := lastSeenThreadIds st;
     lastSeenCommentIds := lastSeenCommentIds st;
     agentPostIds := agentPostIds st;
     agentCommentIds := agentCommentIds st;
     recentDecisions := recentDecisions st;
     agentId := agentId st;
     claimedAt := claimedAt st;
     firstPostAttempted := firstPostAttempted st;
     recentPostContentHashes := recentPostContentHashes st;
     lastTickAt := Some v;
     lastTickSummary := lastTickSummary st;
     lastPostAt := lastPostAt st |}.

Definition set_lastTickSummary (st : MemoryState) (v : LastTickSummary) : MemoryState :=
  {| lastSeenThreadIds := lastSeenThreadIds st;
     lastSeenCommentIds := lastSeenCommentIds st;
     agentPostIds := agentPostIds st;
     agentCommentIds := agentCommentIds st;
     recentDecisions := recentDecisions st;
     agentId := agentId st;
     claimedAt := claimedAt st;
     firstPostAttempted := firstPostAttempted st;
     recentPostContentHashes := recentPostContentHashes st;
     lastTickAt := lastTickAt st;
     lastTickSummary := Some v;
     lastPostAt := lastPostAt st |}.

Definition getLastTickAt (s : MemoryStore) : option string := lastTickAt (state s).

Definition setLastTickAt (s : MemoryStore) (iso : string) : MemoryStore :=
  mutated (set_lastTickAt (state s) iso).

Definition getLastTickSummary (s : MemoryStore) : option LastTickSummary :=
  lastTickSummary (state s).

Definition setLastTickSummary (s : MemoryStore) (summary : LastTickSummary) : MemoryStore :=
  mutated (set_lastTickSummary (state s) summary).

End Memory.

(** ** types/decision.ts: [DecisionSchema] *)

Module Schema.

#[local] Unset Elimination Schemes.

(** A value produced by [JSON.parse]. *)
Inductive Json :=
| JNull
| JBool (b : bool)
| JNumber (q : Q)
| JString (s : string)
| JArray (items : list Json)
| JObject (fields : list (string * Json)).

#[local] Set Elimination Schemes.

(** [obj[key]]: [None] is [undefined]. A key written twice keeps its
    last value, as [JSON.parse] does. *)
Fixpoint field (key : string) (fields : list (string * Json)) : option Json :=
  match fields with
  | [] => None
  | (k, v) :: rest =>
      match field key rest with
      | Some v' => Some v'
      | None => if String.eqb k key then Some v else None
      end
  end.

(** [z.string().optional()]: absent, or a string. The outer [option] is
    the success of the check. *)
Definition optional_string (v : option Json) : option (option string) :=
  match v with
  | None => Some None
  | Some (JString s) => Some (Some s)
  | Some _ => None
  end.

(** [z.enum(["post", "comment", "vote", "ignore"])] *)
Definition action_enum (v : option Json) : option Action :=
  match v with
  | Some (JString s) =>
      if String.eqb s "post" then Some post
      else if String.eqb s "comment" then Some comment
      else if String.eqb s "vote" then Some vote
      else if String.eqb s "ignore" then Some ignore
      else None
  | _ => None
  end.

(** [z.enum(["up", "down"]).optional()] *)
Definition optional_direction (v : option Json) : option (option VoteDirection) :=
  match v with
  | None => Some None
  | Some (JString s) =>
      if String.eqb s "up" then Some (Some up)
      else if String.eqb s "down" then Some (Some down)
      else None
  | Some _ => None
  end.

(** [z.number().min(0).max(1)] *)
Definition unit_number (v : option Json) : option Q :=
  match v with
  | Some (JNumber q) => if Qle_bool 0 q && Qle_bool q 1 then Some q else None
  | _ => None
  end.

(** [DecisionSchema.safeParse(parsed)]: [Some data] on success. Keys the
    schema does not name are stripped. *)
Definition DecisionSchema_safeParse (parsed : Json) : option Decision :=
  match parsed with
  | JObject fs =>
      match action_enum (field "action" fs),
            optional_string (field "targetId" fs),
            optional_string (field "title" fs),
            optional_string (field "content" fs),
            optional_direction (field "voteDirection" fs),
            unit_number (field "confidence" fs) with
      | Some a, Some tid, Some ti, Some co, Some vd, Some cf =>
          Some {| action := a; targetId := tid; title := ti; content := co;
                  voteDirection := vd; confidence := cf |}
      | _, _, _, _, _, _ => None
      end
  | _ => None
  end.

End Schema.

(** ** scheduler/loop.ts: the decision pipeline *)

Module Scheduler.

Import Policy Memory.

Record SchedulerConfig := mkSchedConfig {
  tickIntervalMinutes : Z;
  postIntervalMinutes : Z;
  dryRun : bool
}.

Inductive TargetType := target_post | target_comment.

(** The calls the pipeline makes on the platform client and on
    [policy.recordAction], in the order it makes them. *)
Inductive Call :=
| Call_postPost (submolt title content : string)
| Call_postComment (postId content : string)
| Call_vote (targetId : string) (direction : VoteDirection) (targetType : TargetType)
| Call_recordAction (a : Action) (ctx : RecordContext).

(** What the external collaborators answer during one run of the
    pipeline; [None] (or [false]) is a call that throws. *)
Record Collaborators := mkCollab {
  llm_decideAction : option Decision;
  moltbook_postPost : option string;
  moltbook_postComment : option string;
  moltbook_vote : bool
}.

(** The clock readings of one run. *)
Record Clock := mkClock {
  t_validate : Z;
  t_gate : Z;
  t_posted : Z;
  t_record : Z
}.

Record Run := mkRun {
  result : option (Decision * Outcome);
  policy_after : PolicyEngine;
  memory_after : MemoryStore;
  calls : list Call
}.

Section Host.

(** [new Date(iso).getTime()] ([None]: an invalid date, NaN) and
    [new Date(ms).toISOString()]. *)
Variable Date_getTime : string -> option Z.
Variable Date_toISOString : Z -> string.

(** [decision.title ?? (decision.content.slice(0, 80) || "Post")] *)
Definition post_title (d : Decision) (c : string) : string :=
  match title d with
  | Some t => t
  | None =>
      let head := String.substring 0 80 c in
      if JS.truthy (Some head) then head else "Post"
  end.

(** The post-only gates between [validate] and the execution:
    [true] when one of them blocks. *)
Definition post_gates (cfg : SchedulerConfig) (memory : MemoryStore)
    (d : Decision) (now : Z) : bool :=
  match action d, content d with
  | post, Some c =>
      if JS.truthy (Some c) then
        if isDuplicatePost memory (post_title d c) c then true
        else
          match getLastPostAt memory with
          | Some lastPostAt =>
              if JS.truthy (Some lastPostAt) then
                match Date_getTime lastPostAt with
                | Some last =>
                    now - last <? postIntervalMinutes cfg * 60 * 1000
                | None => false
                end
              else false
          | None => false
          end
      else false
  | _, _ => false
  end.

(** The [try] block: [None] when a platform call throws. *)
Definition execute (policy : PolicyEngine) (memory : MemoryStore)
    (d : Decision) (postId submoltName : string) (ext : Collaborators)
    (clk : Clock) : option (PolicyEngine * MemoryStore) * list Call :=
  let content_ok := JS.truthy (content d) in
  let c := default "" (content d) in
  match action d with
  | post =>
      if content_ok then
        let t := post_title d c in
        match moltbook_postPost ext with
        | Some id =>
            let m1 := addAgentPostId memory id in
            let m2 := addAgentPostContent m1 t c in
            let m3 := setLastPostAt m2 (Date_toISOString (t_posted clk)) in
            let rc := {| r_submoltId := Some submoltName; r_threadId := None;
                         r_content := Some c |} in
            (Some (recordAction policy post rc (t_record clk), m3),
             [Call_postPost submoltName t c; Call_recordAction post rc])
        | None => (None, [Call_postPost submoltName t c])
        end
      else (Some (policy, memory), [])
  | comment =>
      if content_ok then
        let targetPostId := default postId (targetId d) in
        match moltbook_postComment ext with
        | Some id =>
            let m1 := addAgentCommentId memory id in
            let rc := {| r_submoltId := None; r_threadId := Some targetPostId;
                         r_content := Some c |} in
            (Some (recordAction policy comment rc (t_record clk), m1),
             [Call_postComment targetPostId c; Call_recordAction comment rc])
        | None => (None, [Call_postComment targetPostId c])
        end
      else (Some (policy, memory), [])
  | vote =>
      match targetId d, voteDirection d with
      | Some tid, Some dir =>
          if JS.truthy (Some tid) then
            let targetType :=
              if String.eqb tid postId then target_post else target_comment in
            if moltbook_vote ext
            then (Some (policy, memory), [Call_vote tid dir targetType])
            else (None, [Call_vote tid dir targetType])
          else (Some (policy, memory), [])
      | _, _ => (Some (policy, memory), [])
      end
  | ignore => (Some (policy, memory), [])
  end.

(** [decideAndExecute(context, postId, submoltName, commentId)] *)
Definition decideAndExecute (cfg : SchedulerConfig) (policy : PolicyEngine)
    (memory : MemoryStore) (postId submoltName : string)
    (ext : Collaborators) (clk : Clock) : Run :=
  match llm_decideAction ext with
  | None => mkRun None policy memory []
  | Some d =>
      let vctx := {| v_submoltId := Some submoltName; v_threadId := Some postId;
                     actionSource := action d |} in
      let '(verdict, policy1) := validate policy d vctx (t_validate clk) in
      match verdict with
      | Rejected _ => mkRun (Some (d, blocked)) policy1 memory []
      | Allowed =>
          if post_gates cfg memory d (t_gate clk)
          then mkRun (Some (d, blocked)) policy1 memory []
          else if Action_eqb (action d) ignore
          then mkRun (Some (d, skipped)) policy1 memory []
          else if dryRun cfg
          then mkRun (Some (d, skipped)) policy1 memory []
          else
            match execute policy1 memory d postId submoltName ext clk with
            | (Some (policy2, memory2), cs) =>
                mkRun (Some (d, executed)) policy2 memory2 cs
            | (None, cs) => mkRun (Some (d, blocked)) policy1 memory cs
            end
      end
  end.

(** *** The other paths of the scheduler *)


Record Post := mkPost {
  Post_id : string;
  Post_submolt : option string;
  Post_title : string;
  Post_content : option string
}.

Record Comment := mkComment {
  Comment_id : string;
  Comment_author : option string;
  Comment_content : string
}.

Inductive SearchType := result_post | result_comment.

Record SearchResult := mkSearchResult {
  sr_id : string;
  sr_type : SearchType;
  sr_title : option string;
  sr_content : option string;
  sr_submolt : option string
}.

(** [types/decision.ts]: [DecisionContext], and what [ProactivePostSchema]
    and [ExploreChoiceSchema] let through. *)
Record ContextComment := mkContextComment {
  cc_id : string;
  cc_authorId : string;
  cc_content : string
}.

Record DecisionContext := mkDecisionContext {
  threadContent : option string;
  ctx_comments : option (list ContextComment);
  recentAgentMemory : option (list string);
  ctx_submoltId : option string;
  ctx_threadId : option string
}.





(** [parts.join(sep)] *)
Fixpoint join (sep : string) (parts : list string) : string :=
  match parts with
  | [] => EmptyString
  | [p] => p
  | p :: rest => (p ++ sep ++ join sep rest)%string
  end.

Variable Number_toString : Q -> string.

(** [buildContextForPost(submoltName, post, comments, memory)] *)
Definition buildContextForPost (submoltName : string) (p : Post)
    (comments : list Comment) (memory : MemoryStore) : DecisionContext :=
  let memoryLines := c_recentAgentMemory (getContext Number_toString memory) in
  let parts :=
    List.filter (fun s => JS.truthy (Some s))
      (Post_title p :: match Post_content p with Some c => [c] | None => [] end) in
  let text := join (Memory.newline ++ Memory.newline) parts in
  let commentList :=
    List.map (fun c => {| cc_id := Comment_id c;
                          cc_authorId := default "?" (Comment_author c);
                          cc_content := Comment_content c |})
      (JS.slice_last 30 comments) in
  {| threadContent := if JS.truthy (Some text) then Some text else None;
     ctx_comments := if (0 <? List.length commentList)%nat then Some commentList else None;
     recentAgentMemory :=
       if (0 <? List.length memoryLines)%nat then Some memoryLines else None;
     ctx_submoltId := Some submoltName;
     ctx_threadId := Some (Post_id p) |}.






(** What the collaborators answer during a tick. The pipeline runs of a
    tick are numbered; the answers may depend on the number of the run and
    on the arguments of the call. *)
Record Externals := mkExternals {
  x_decideAction : nat -> DecisionContext -> option Decision;
  x_postPost : nat -> option string;
  x_postComment : nat -> option string;
  x_vote : nat -> bool;
  x_getComments : nat -> string -> option (list Comment);
  x_search : nat -> string -> option (list SearchResult);
  x_simplifySearchQuery : nat -> string -> option string;
  x_clock : nat -> Clock;
  x_saved : nat -> Z
}.

(** The objects a tick works on, the number of pipeline runs so far, the
    counter [totalNew] and the calls made. *)
Record TickState := mkTickState {
  k_policy : PolicyEngine;
  k_memory : MemoryStore;
  k_runs : nat;
  k_totalNew : nat;
  k_calls : list Call
}.

(** [decideAndExecute] on the context built for the post, then
    [memory.saveDecision] when it returned a decision. *)
Definition decide_and_save (cfg : SchedulerConfig) (x : Externals) (st : TickState)
    (p : Post) (submoltName : string) (comments : list Comment) : TickState :=
  let k := k_runs st in
  let ctx := buildContextForPost submoltName p comments (k_memory st) in
  let r := decideAndExecute cfg (k_policy st) (k_memory st) (Post_id p) submoltName
             (mkCollab (x_decideAction x k ctx) (x_postPost x k) (x_postComment x k)
                (x_vote x k))
             (x_clock x k) in
  let m :=
    match result r with
    | Some (d, o) =>
        saveDecision (memory_after r) (mkSCtx (Some submoltName) (Some (Post_id p))) d
          (Some o) (Date_toISOString (x_saved x k))
    | None => memory_after r
    end in
  mkTickState (policy_after r) m (S k) (k_totalNew st) (k_calls st ++ calls r).

Definition with_memory (st : TickState) (m : MemoryStore) : TickState :=
  mkTickState (k_policy st) m (k_runs st) (k_totalNew st) (k_calls st).

(** The body of the loop over the comments of a post. *)
Definition processComment (cfg : SchedulerConfig) (x : Externals) (p : Post)
    (submoltName : string) (comments : list Comment) (st : TickState)
    (c : Comment) : TickState :=
  if isCommentSeen (k_memory st) (Comment_id c) then st
  else
    let st1 := decide_and_save cfg x st p submoltName comments in
    with_memory st1 (markCommentSeen (k_memory st1) (Comment_id c)).

(** [processPost(post, submoltName)] *)
Definition processPost (cfg : SchedulerConfig) (x : Externals) (st : TickState)
    (p : Post) (submoltName : string) : TickState :=
  if isThreadSeen (k_memory st) (Post_id p) then st
  else
    let st0 := mkTickState (k_policy st) (k_memory st) (k_runs st)
                 (S (k_totalNew st)) (k_calls st) in
    let st1 := decide_and_save cfg x st0 p submoltName [] in
    let st2 := with_memory st1 (markThreadSeen (k_memory st1) (Post_id p)) in
    match x_getComments x (k_runs st2) (Post_id p) with
    | None => st2
    | Some comments =>
        fold_left (processComment cfg x p submoltName comments) comments st2
    end.









End Host.

(** The number of [policy.recordAction] calls in a trace. *)
Definition is_recordAction (c : Call) : bool :=
  match c with
  | Call_recordAction _ _ => true
  | _ => false
  end.

Definition recordAction_calls (cs : list Call) : nat :=
  List.length (List.filter is_recordAction cs).

(** The number of calls on the platform client in a trace. *)
Definition platform_writes (cs : list Call) : nat :=
  List.length (List.filter (fun c => negb (is_recordAction c)) cs).

(** *** [start], [stop] and [tick] under the host's interval timer

    Time is counted in whole units (the unit of [tickIntervalMs]). A tick
    body that starts at time [t] is asynchronous: it returns to the event
    loop at its first [await] and finishes [duration t] later. The state
    keeps the fields [running] and [intervalId] of the class and, for the
    host, the clock and the finishing times of the tick bodies that have
    started and not yet finished. *)

Record Loop := mkLoop {
  now : nat;
  running : bool;
  intervalId : option nat;
  in_flight : list nat
}.

Definition stopped : Loop :=
  {| now := 0%nat; running := false; intervalId := None; in_flight := [] |}.

Section Ticks.

Variable tickIntervalMs : nat.
Variable duration : nat -> nat.

(** [tick()]: the guard on [running], then the body starts. *)
Definition tick (s : Loop) : Loop :=
  if negb (running s) then s
  else {| now := now s; running := running s; intervalId := intervalId s;
          in_flight := in_flight s ++ [(now s + duration (now s))%nat] |}.

(** [start()]: first tick now, then [setInterval(tick, tickIntervalMs)]. *)
Definition start (s : Loop) : Loop :=
  match intervalId s with
  | Some _ => s
  | None =>
      let s1 := {| now := now s; running := true; intervalId := intervalId s;
                   in_flight := in_flight s |} in
      let s2 := tick s1 in
      {| now := now s2; running := running s2;
         intervalId := Some (now s2 + tickIntervalMs)%nat;
         in_flight := in_flight s2 |}
  end.

(** [stop()]: clears the timer; a tick body in flight runs on. *)
Definition stop (s : Loop) : Loop :=
  {| now := now s; running := false; intervalId := None;
     in_flight := in_flight s |}.

(** One unit of time passes: the tick bodies due to finish do so, then
    the interval timer, if due, calls [tick] and is due again one
    period later. *)
Definition elapse (s : Loop) : Loop :=
  let t := S (now s) in
  let s1 := {| now := t; running := running s; intervalId := intervalId s;
               in_flight := List.filter (fun c => (t <? c)%nat) (in_flight s) |} in
  match intervalId s1 with
  | Some due =>
      if (due <=? t)%nat then
        let s2 := tick s1 in
        {| now := now s2; running := running s2;
           intervalId := Some (due + tickIntervalMs)%nat;
           in_flight := in_flight s2 |}
      else s1
  | None => s1
  end.

Fixpoint run (n : nat) (s : Loop) : Loop :=
  match n with
  | O => s
  | S k => run k (elapse s)
  end.

(** The number of tick bodies executing concurrently. *)
Definition concurrent_ticks (s : Loop) : nat := List.length (in_flight s).

End Ticks.

End Scheduler.

(** ** llm/rate-limit.ts *)

Module RateLimiter.

Record RateLimiter := mkLimiter {
  maxCallsPerMinute : Z;
  timestamps : list Z
}.

(** [new RateLimiter({ maxCallsPerMinute })] *)
Definition new (maxCalls : Z) : RateLimiter := mkLimiter maxCalls [].

(** One pass through the body of [acquire()]: the caller either has to
    sleep [waitMs] and run the body again, or holds a slot. *)
Inductive Pass :=
| Sleep (waitMs : Z) (rl : RateLimiter)
| Granted (rl : RateLimiter).

(** The body of [acquire()]; [now] is the first [Date.now()] and [pushed]
    the one that is pushed. With an empty window [timestamps[0]] is
    [undefined], [waitMs] is NaN and [waitMs > 0] is false. *)
Definition acquire_pass (rl : RateLimiter) (now pushed : Z) : Pass :=
  let oneMinuteAgo := now - 60 * 1000 in
  let ts := List.filter (fun t => t >? oneMinuteAgo) (timestamps rl) in
  let grant := Granted (mkLimiter (maxCallsPerMinute rl) (JS.push ts pushed)) in
  if Z.of_nat (List.length ts) >=? maxCallsPerMinute rl then
    match ts with
    | oldest :: _ =>
        let waitMs := oldest + 60 * 1000 - now in
        if waitMs >? 0 then Sleep waitMs (mkLimiter (maxCallsPerMinute rl) ts)
        else grant
    | [] => grant
    end
  else grant.

(** [acquire()]: the body runs again after each sleep. [readings] are the
    clock readings of the successive passes; [None] when they run out
    before a slot is granted. The number returned is that of the passes. *)
Fixpoint acquire (rl : RateLimiter) (readings : list (Z * Z)) : option (RateLimiter * nat) :=
  match readings with
  | [] => None
  | (now, pushed) :: rest =>
      match acquire_pass rl now pushed with
      | Granted rl' => Some (rl', 1%nat)
      | Sleep _ rl' =>
          match acquire rl' rest with
          | Some (rl'', n) => Some (rl'', S n)
          | None => None
          end
      end
  end.

End RateLimiter.

(** ** llm/chatgpt-client.ts: [decideAction] *)

Module LLM.

Definition MAX_PARSE_RETRIES : nat := 3.

(** What one call of the chat completion API gives [decideAction]: the
    call throws, the reply has no content, the content is not JSON (after
    [parseJson] has stripped the code fence), or it parses. *)
Inductive Reply :=
| ApiThrows
| EmptyContent
| NotJSON
| Parsed (j : Schema.Json).

Inductive Failure :=
| ApiError
| EmptyResponse
| InvalidDecision.

(** The [for] loop of [decideAction] from attempt [attempt] with
    [remaining] iterations to go: the decision or the error thrown, and the
    number of API calls made. *)
Fixpoint attempts (reply : nat -> Reply) (remaining attempt : nat)
    : (Failure + Decision) * nat :=
  match remaining with
  | O => (inl InvalidDecision, 0%nat)
  | S rem =>
      match reply attempt with
      | ApiThrows => (inl ApiError, 1%nat)
      | EmptyContent => (inl EmptyResponse, 1%nat)
      | NotJSON =>
          let '(res, n) := attempts reply rem (S attempt) in (res, S n)
      | Parsed j =>
          match Schema.DecisionSchema_safeParse j with
          | Some d => (inr d, 1%nat)
          | None => let '(res, n) := attempts reply rem (S attempt) in (res, S n)
          end
      end
  end.

Record Decided := mkDecided {
  limiter_after : option RateLimiter.RateLimiter;
  answer : Failure + Decision;
  api_calls : nat
}.

(** [decideAction(context)]: one slot of the rate limiter, if there is
    one, then the loop. [None]: the limiter is still waiting when the
    clock readings run out. *)
Definition decideAction (limiter : option RateLimiter.RateLimiter)
    (readings : list (Z * Z)) (reply : nat -> Reply) : option Decided :=
  match limiter with
  | Some rl =>
      match RateLimiter.acquire rl readings with
      | Some (rl', _) =>
          let '(res, n) := attempts reply MAX_PARSE_RETRIES 0 in
          Some (mkDecided (Some rl') res n)
      | None => None
      end
  | None =>
      let '(res, n) := attempts reply MAX_PARSE_RETRIES 0 in
      Some (mkDecided None res n)
  end.

End LLM.

(** ** moltbook/client.ts: [request] *)

Module Client.

Import Schema.

Definition MAX_RETRIES : nat := 3.
Definition INITIAL_BACKOFF_MS : Z := 1000.

(** What [fetch] gives: it throws, or a response with its status and its
    body as [res.json().catch(() => ({}))] returns it. *)
Inductive Fetched :=
| NetworkError
| Response (status : Z) (body : Json).

Definition isRetryable (statusCode : Z) : bool :=
  (statusCode >=? 500) || (statusCode =? 429).

(** [res.ok] *)
Definition ok (status : Z) : bool := (200 <=? status) && (status <=? 299).

(** The value returned, or the [MoltbookClientError] thrown with its
    status code if it has one. *)
Inductive Outcome :=
| Returned (data : Json)
| Thrown (statusCode : option Z).

(** What a response with [res.ok] leads to. *)
Definition unwrap (body : Json) : Outcome :=
  match body with
  | JObject fs =>
      match field "success" fs with
      | Some success =>
          match success with
          | JBool false => Thrown None
          | _ =>
              match field "data" fs with
              | Some data => Returned data
              | None => Returned body
              end
          end
      | None => Returned body
      end
  | _ => Returned body
  end.

Record Requested := mkRequested {
  outcome : Outcome;
  sleeps : list Z;
  fetches : nat
}.

(** The [for] loop of [request] from attempt [attempt] with [remaining]
    iterations to go and the current [backoff]. *)
Fixpoint request_loop (fetch : nat -> Fetched) (remaining attempt : nat)
    (backoff : Z) : Requested :=
  match remaining with
  | O => mkRequested (Thrown None) [] 0
  | S rem =>
      let retry :=
        let r := request_loop fetch rem (S attempt) (backoff * 2) in
        mkRequested (outcome r) (backoff :: sleeps r) (S (fetches r)) in
      match fetch attempt with
      | Response status body =>
          if negb (ok status) then
            if isRetryable status && (attempt <? MAX_RETRIES - 1)%nat then retry
            else mkRequested (Thrown (Some status)) [] 1
          else mkRequested (unwrap body) [] 1
      | NetworkError =>
          if (attempt <? MAX_RETRIES - 1)%nat then retry
          else mkRequested (Thrown None) [] 1
      end
  end.

(** [request(path, options)] *)
Definition request (fetch : nat -> Fetched) : Requested :=
  request_loop fetch MAX_RETRIES 0 INITIAL_BACKOFF_MS.

End Client.

(** ** moltbook/claim.ts *)

Module Claim.

Import Memory.

Inductive AgentStatus := pending_claim | claimed.

Inductive ClaimResult :=
| ClaimOk (agentId : string)
| ClaimFailed.

Record Claimed := mkClaimed {
  claim : ClaimResult;
  memory_after : MemoryStore;
  platform_calls : nat
}.

(** [claimAgent(moltbook, memory, agentName)]; [status] and [me] are what
    [getAgentStatus()] and [getAgentMe()?.name] give ([None]: the call
    throws), [nowIso] the time written by [setAgentId]. *)
Definition claimAgent (memory : MemoryStore) (status : option AgentStatus)
    (me : option string) (nowIso : string) : Claimed :=
  if isClaimed memory
  then mkClaimed (ClaimOk (default "" (getAgentId memory))) memory 0
  else
    match status with
    | None => mkClaimed ClaimFailed memory 1
    | Some pending_claim => mkClaimed ClaimFailed memory 1
    | Some claimed =>
        match me with
        | None => mkClaimed ClaimFailed memory 2
        | Some agentId =>
            if negb (JS.truthy (Some agentId)) then mkClaimed ClaimFailed memory 2
            else mkClaimed (ClaimOk agentId) (setAgentId memory agentId nowIso) 2
        end
    end.

End Claim.

(** ** index.ts: the first post at start-up *)

Module Startup.

Import Memory.

Record FirstPost := mkFirstPost {
  saved : Result (MemoryStore * Disk);
  postPost_calls : nat
}.

(** The block of [main()] that posts the introduction; [posted] is what
    [moltbook.postPost] returns ([None]: it throws), [io_try] and [io_catch]
    the failures of the [save()] in the [try] and in the [catch]. *)
Definition firstPost (Number_toString : Q -> string) (memory : MemoryStore)
    (disk : Disk) (dryRun : bool) (title content : string) (posted : option string)
    (nowIso : string) (io_try io_catch : option string) : FirstPost :=
  let agentPostIds := c_agentPostIds (getContext Number_toString memory) in
  if (List.length agentPostIds =? 0)%nat && negb (hasAttemptedFirstPost memory)
     && negb dryRun
  then
    let m1 := setFirstPostAttempted memory in
    match posted with
    | Some id =>
        let m2 := addAgentPostId m1 id in
        let m3 := addAgentPostContent m2 title content in
        let m4 := setLastPostAt m3 nowIso in
        match save m4 disk io_try with
        | Ok r => mkFirstPost (Ok r) 1
        | Throw _ => mkFirstPost (save m4 disk io_catch) 1
        end
    | None => mkFirstPost (save m1 disk io_catch) 1
    end
  else mkFirstPost (Ok (memory, disk)) 0.

End Startup.

(** * Vocabulary of the statements *)

Section Vocabulary.

Import Policy Scheduler.

(** [n] posts recorded one after the other. *)
Definition record_posts (p : PolicyEngine) (rs : list (RecordContext * Z)) : PolicyEngine :=
  fold_left (fun q r => recordAction q post (fst r) (snd r)) rs p.

(** The rules of the post branch that come after the hourly count:
    content length, repetition, submolt cooldown. *)
Definition later_post_rules_pass (p : PolicyEngine) (d : Decision)
    (ctx : ValidateContext) (now : Z) : Prop :=
  content_checks p d = None
  /\ forall sub last,
       v_submoltId ctx = Some sub ->
       lastPostBySubmolt p !! sub = Some last ->
       cooldownMinutesPerSubmolt (config p) * 60 * 1000 <= now - last.

(** The pieces of [s] between whitespace characters; an empty piece
    stands between two adjacent whitespace characters and at either end. *)
Fixpoint pieces (s : string) : list string :=
  match s with
  | EmptyString => [EmptyString]
  | String c s' =>
      if JS.is_whitespace c then EmptyString :: pieces s'
      else match pieces s' with
           | w :: ws => String c w :: ws
           | [] => [String c EmptyString]
           end
  end.

Definition nonempty (s : string) : bool := negb (String.eqb s "").

(** The words of [s]: its maximal runs of non-whitespace characters. *)
Definition words (s : string) : list string := List.filter nonempty (pieces s).

(** Two texts differ only in case and whitespace: they have the same
    words, letter case apart. *)
Definition same_up_to_case_and_whitespace (a b : string) : Prop :=
  List.map JS.toLowerCase (words a) = List.map JS.toLowerCase (words b).

(** Every word preceded by one space. *)
Fixpoint spaced (ws : list string) : string :=
  match ws with
  | [] => EmptyString
  | w :: r => (" " ++ w ++ spaced r)%string
  end.

(** The words joined by single spaces. *)
Definition unwords (ws : list string) : string :=
  match ws with
  | [] => EmptyString
  | w :: r => (w ++ spaced r)%string
  end.

(** The rules that [validate] applies before the repetition check. *)
Definition earlier_rules_pass (p : PolicyEngine) (d : Decision)
    (ctx : ValidateContext) (now : Z) : Prop :=
  (forall c, content d = Some c ->
     Z.of_nat (String.length c) <= maxContentLength (config p))
  /\ match action d with
     | post =>
         Z.of_nat (List.length (List.filter (fun t => t >? now - 60 * 60 * 1000)
                                  (postsInLastHour p)))
         < maxPostsPerHour (config p)
     | comment =>
         forall t, JS.nullish (v_threadId ctx) (targetId d) = Some t -> t <> "" ->
           default 0 (commentsByThread p !! t) < maxCommentsPerThread (config p)
     | _ => True
     end.

(** [n] comments recorded on one thread. *)
Definition record_comments (p : Policy.PolicyEngine) (n : nat) (threadId : string)
    (now : Z) : Policy.PolicyEngine :=
  Nat.iter n (fun q => Policy.recordAction q comment
                         (Policy.mkRCtx None (Some threadId) None) now) p.

(** The decision pipeline run on one post after the other answers of the
    oracle, the platform accepting every comment: the outcomes, and the
    engine at the end. *)
Fixpoint run_pipeline (cfg : SchedulerConfig) (policy : PolicyEngine)
    (memory : Memory.MemoryStore) (postId submoltName : string)
    (answers : list Decision) : list (option Outcome) * PolicyEngine :=
  match answers with
  | [] => ([], policy)
  | d :: rest =>
      let r := decideAndExecute (fun _ => None) (fun _ => "") cfg policy memory
                 postId submoltName (mkCollab (Some d) None (Some "c") true)
                 (mkClock 1000 1000 1000 1000) in
      let '(os, p') := run_pipeline cfg (policy_after r) (memory_after r)
                         postId submoltName rest in
      (option_map snd (result r) :: os, p')
  end.

(** A call of one of the two marking methods. *)
Inductive Mark :=
| MarkThread (id : string)
| MarkComment (id : string).

Definition apply_mark (s : Memory.MemoryStore) (m : Mark) : Memory.MemoryStore :=
  match m with
  | MarkThread id => Memory.markThreadSeen s id
  | MarkComment id => Memory.markCommentSeen s id
  end.

Definition apply_marks (s : Memory.MemoryStore) (ms : list Mark) : Memory.MemoryStore :=
  fold_left apply_mark ms s.

(** Both seen-lists are within [MAX_LAST_SEEN]. *)
Definition within_cap (s : Memory.MemoryStore) : Prop :=
  (List.length (Memory.lastSeenThreadIds (Memory.state s)) <= Memory.MAX_LAST_SEEN)%nat
  /\ (List.length (Memory.lastSeenCommentIds (Memory.state s)) <= Memory.MAX_LAST_SEEN)%nat.

(** The run made a platform write that succeeded and that
    [recordAction] counts: a post or a comment with content. *)
Definition counted_write (d : Decision) (o : Outcome) : bool :=
  match o, action d with
  | executed, post | executed, comment => JS.truthy (content d)
  | _, _ => false
  end.

(** The context [recordAction] is called with. *)
Definition recorded_context (d : Decision) (postId submoltName : string) : RecordContext :=
  match action d with
  | post => mkRCtx (Some submoltName) None (Some (default "" (content d)))
  | _ => mkRCtx None (Some (default postId (targetId d))) (Some (default "" (content d)))
  end.

(** While every tick is shorter than the period: the timer is armed for
    a later instant, and at most one tick body is in flight, which
    finishes before the timer fires. *)
Definition serial (s : Loop) : Prop :=
  running s = true
  /\ exists due,
       intervalId s = Some due
       /\ (now s < due)%nat
       /\ (in_flight s = [] \/ exists c, in_flight s = [c] /\ (c < due)%nat).

End Vocabulary.

(** * Further vocabulary *)

Section MoreVocabulary.

Import Policy.

(** A call of one of the two public methods of the engine. *)
Inductive PolicyCall :=
| P_validate (d : Decision) (ctx : ValidateContext) (now : Z)
| P_recordAction (a : Action) (rc : RecordContext) (now : Z).

Definition apply_policy_call (p : PolicyEngine) (c : PolicyCall) : PolicyEngine :=
  match c with
  | P_validate d ctx now => snd (validate p d ctx now)
  | P_recordAction a rc now => recordAction p a rc now
  end.

Definition apply_policy_calls (p : PolicyEngine) (cs : list PolicyCall) : PolicyEngine :=
  fold_left apply_policy_call cs p.

(** The counting rule of the branch of [d] does not fire: the pruned post
    window is below [maxPostsPerHour] for a post, the resolved thread is
    below [maxCommentsPerThread] for a comment. *)
Definition count_rule_passes (p : PolicyEngine) (d : Decision)
    (ctx : ValidateContext) (now : Z) : Prop :=
  match action d with
  | post =>
      Z.of_nat (List.length (List.filter (fun t => t >? now - 60 * 60 * 1000)
                               (postsInLastHour p)))
      < maxPostsPerHour (config p)
  | comment =>
      forall t, JS.nullish (v_threadId ctx) (targetId d) = Some t -> t <> "" ->
        default 0 (commentsByThread p !! t) < maxCommentsPerThread (config p)
  | _ => True
  end.

(** No character of [s] is whitespace. *)
Fixpoint whitespace_free (s : string) : bool :=
  match s with
  | EmptyString => true
  | String c s' => negb (JS.is_whitespace c) && whitespace_free s'
  end.

(** A call of one of the mutating methods of the memory store. *)
Inductive MemoryOp :=
| Op_saveDecision (ctx : Memory.StoredContext) (d : Decision) (o : option Outcome)
    (nowIso : string)
| Op_markThreadSeen (id : string)
| Op_markCommentSeen (id : string)
| Op_addAgentPostId (id : string)
| Op_addAgentCommentId (id : string)
| Op_setAgentId (id nowIso : string)
| Op_setFirstPostAttempted
| Op_addAgentPostContent (title content : string)
| Op_setLastTickAt (iso : string)
| Op_setLastTickSummary (summary : Memory.LastTickSummary)
| Op_setLastPostAt (iso : string).

Definition apply_op (s : Memory.MemoryStore) (op : MemoryOp) : Memory.MemoryStore :=
  match op with
  | Op_saveDecision ctx d o nowIso => Memory.saveDecision s ctx d o nowIso
  | Op_markThreadSeen id => Memory.markThreadSeen s id
  | Op_markCommentSeen id => Memory.markCommentSeen s id
  | Op_addAgentPostId id => Memory.addAgentPostId s id
  | Op_addAgentCommentId id => Memory.addAgentCommentId s id
  | Op_setAgentId id nowIso => Memory.setAgentId s id nowIso
  | Op_setFirstPostAttempted => Memory.setFirstPostAttempted s
  | Op_addAgentPostContent t c => Memory.addAgentPostContent s t c
  | Op_setLastTickAt iso => Memory.setLastTickAt s iso
  | Op_setLastTickSummary summary => Memory.setLastTickSummary s summary
  | Op_setLastPostAt iso => Memory.setLastPostAt s iso
  end.

Definition apply_ops (s : Memory.MemoryStore) (ops : list MemoryOp) : Memory.MemoryStore :=
  fold_left apply_op ops s.

(** Every bounded list of the state is within its cap. *)
Definition all_within_caps (s : Memory.MemoryStore) : Prop :=
  (List.length (Memory.lastSeenThreadIds (Memory.state s)) <= 500)%nat
  /\ (List.length (Memory.lastSeenCommentIds (Memory.state s)) <= 500)%nat
  /\ (List.length (Memory.agentPostIds (Memory.state s)) <= 200)%nat
  /\ (List.length (Memory.agentCommentIds (Memory.state s)) <= 200)%nat
  /\ (List.length (Memory.recentDecisions (Memory.state s)) <= 100)%nat
  /\ (List.length (Memory.recentPostContentHashes (Memory.state s)) <= 100)%nat.

(** [x] is in [l] with fewer than [m] entries after it. *)
Definition recent {A} (m : nat) (x : A) (l : list A) : Prop :=
  exists older newer, l = (older ++ x :: newer)%list /\ (List.length newer < m)%nat.

(** [JSON.parse(JSON.stringify(decision))]: a decision as the JSON value
    that holds its defined fields. *)
Definition optional_field (key : string) (v : option Schema.Json)
    : list (string * Schema.Json) :=
  match v with
  | Some j => [(key, j)]
  | None => []
  end.

Definition VoteDirection_toString (v : VoteDirection) : string :=
  match v with
  | up => "up"
  | down => "down"
  end.

Definition Decision_toJson (d : Decision) : Schema.Json :=
  Schema.JObject
    ([("action", Schema.JString (Memory.Action_toString (action d)))]
     ++ optional_field "targetId" (option_map Schema.JString (targetId d))
     ++ optional_field "title" (option_map Schema.JString (title d))
     ++ optional_field "content" (option_map Schema.JString (content d))
     ++ optional_field "voteDirection"
          (option_map (fun v => Schema.JString (VoteDirection_toString v)) (voteDirection d))
     ++ [("confidence", Schema.JNumber (confidence d))]).

(** The keys [DecisionSchema] names. *)
Definition schema_keys : list string :=
  ["action"; "targetId"; "title"; "content"; "voteDirection"; "confidence"].

(** A reply that makes [decideAction] ask again: not JSON, or JSON that
    fails the schema. *)
Definition asks_again (r : LLM.Reply) : bool :=
  match r with
  | LLM.NotJSON => true
  | LLM.Parsed j =>
      match Schema.DecisionSchema_safeParse j with
      | Some _ => false
      | None => true
      end
  | _ => false
  end.



(** A fetch that [request] answers with another attempt, while attempts are
    left: the network failed, or the status is not ok and is 429 or 5xx. *)
Definition transient (f : Client.Fetched) : bool :=
  match f with
  | Client.NetworkError => true
  | Client.Response status _ => negb (Client.ok status) && Client.isRetryable status
  end.

End MoreVocabulary.

(** * Properties *)

(** ** The policy engine *)

Section PolicyFacts.

Import Policy.

Lemma Qltb_true (a b : Q) : (a < b)%Q -> JS.Qltb a b = true.
Proof.
  intros H. unfold JS.Qltb.
  destruct (Qle_bool b a) eqn:E; [|reflexivity].
  apply Qle_bool_iff in E. exfalso. exact (Qlt_not_le _ _ H E).
Qed.

Lemma Qltb_false (a b : Q) : ~ (a < b)%Q -> JS.Qltb a b = false.
Proof.
  intros H. unfold JS.Qltb.
  destruct (Qle_bool b a) eqn:E; [reflexivity|].
  exfalso. apply H. apply Qnot_le_lt. intros Hle.
  apply Qle_bool_iff in Hle. congruence.
Qed.

Lemma Action_eqb_eq (a b : Action) : Action_eqb a b = true <-> a = b.
Proof. destruct a, b; simpl; split; intros; congruence. Qed.

Lemma Action_eqb_neq (a b : Action) : a <> b -> Action_eqb a b = false.
Proof.
  intros H. destruct (Action_eqb a b) eqn:E; [|reflexivity].
  apply Action_eqb_eq in E. contradiction.
Qed.

(** What [validate] computes once the [ignore] test and the confidence
    gate are passed. *)
Lemma validate_past_gate p d ctx now :
  action d <> ignore ->
  ~ (confidence d < confidenceThreshold (config p))%Q ->
  validate p d ctx now =
    let p1 := with_posts p
                (List.filter (fun t => t >? now - 60 * 60 * 1000) (postsInLastHour p)) in
    (match action d with
     | post => match post_checks p1 d ctx now with Some r => Rejected r | None => Allowed end
     | comment => match comment_checks p1 d ctx with Some r => Rejected r | None => Allowed end
     | vote => match vote_checks d with Some r => Rejected r | None => Allowed end
     | ignore => Allowed
     end, p1).
Proof.
  intros Hi Hc. unfold validate.
  rewrite (Action_eqb_neq _ _ Hi), (Qltb_false _ _ Hc). reflexivity.
Qed.

(** Every field that [recordAction] leaves alone for a post. *)
Lemma recordAction_post_window p rc now :
  postsInLastHour (recordAction p post rc now) = (postsInLastHour p ++ [now])%list.
Proof.
  unfold recordAction, record_hash, addContentHash, with_hashes, with_posts, JS.push.
  destruct (r_submoltId rc) as [sub|]; [destruct (JS.truthy (Some sub))|];
    (destruct (r_content rc) as [c|]; [destruct (JS.truthy (Some c))|]); reflexivity.
Qed.

Lemma recordAction_config p a rc now : config (recordAction p a rc now) = config p.
Proof.
  unfold recordAction, record_hash, addContentHash, with_hashes, with_posts.
  destruct a; try reflexivity.
  - destruct (r_submoltId rc) as [sub|]; [destruct (JS.truthy (Some sub))|];
      (destruct (r_content rc) as [c|]; [destruct (JS.truthy (Some c))|]); reflexivity.
  - destruct (r_threadId rc) as [t|]; [destruct (JS.truthy (Some t))|];
      (destruct (r_content rc) as [c|]; [destruct (JS.truthy (Some c))|]); reflexivity.
Qed.

Lemma record_posts_cons p r rs :
  record_posts p (r :: rs) = record_posts (recordAction p post (fst r) (snd r)) rs.
Proof. reflexivity. Qed.

Lemma record_posts_window rs : forall p,
  postsInLastHour (record_posts p rs) = (postsInLastHour p ++ List.map snd rs)%list.
Proof.
  induction rs as [|r rs IH]; intros p.
  - cbn. now rewrite app_nil_r.
  - rewrite record_posts_cons, IH, recordAction_post_window.
    cbn [List.map]. now rewrite <- app_assoc.
Qed.

Lemma record_posts_config rs : forall p, config (record_posts p rs) = config p.
Proof.
  induction rs as [|r rs IH]; intros p; [reflexivity|].
  now rewrite record_posts_cons, IH, recordAction_config.
Qed.

Lemma filter_all_true {A} (f : A -> bool) (l : list A) :
  (forall x, In x l -> f x = true) -> List.filter f l = l.
Proof.
  induction l as [|a l IH]; intros H; [reflexivity|]. simpl.
  rewrite (H a (or_introl eq_refl)). f_equal. apply IH. intros x Hx. apply H. now right.
Qed.

Lemma filter_length_le {A} (f : A -> bool) (l : list A) :
  (List.length (List.filter f l) <= List.length l)%nat.
Proof.
  induction l as [|a l IH]; simpl; [lia|]. destruct (f a); simpl; lia.
Qed.

Lemma content_checks_with_posts p ts d :
  content_checks (with_posts p ts) d = content_checks p d.
Proof. reflexivity. Qed.

End PolicyFacts.

(** C1. A decision whose action is not [ignore] and whose confidence is
    below [confidenceThreshold] (0.6 by default) is rejected with reason
    "confidence below threshold", whatever its other fields, the context,
    the time and the engine's counters are, and before any other rule is
    applied: the engine comes back unchanged. An [ignore] decision is always
    allowed. *)
Theorem validate_confidence_gate :
  Policy.confidenceThreshold Policy.DEFAULT_CONFIG = (6 # 10)%Q
  /\ (forall p d ctx now,
        action d <> ignore ->
        (confidence d < Policy.confidenceThreshold (Policy.config p))%Q ->
        Policy.validate p d ctx now
        = (Policy.Rejected "confidence below threshold", p))
  /\ (forall p d ctx now,
        action d = ignore ->
        Policy.validate p d ctx now = (Policy.Allowed, p)).
Proof.
  split; [reflexivity|]. split.
  - intros p d ctx now Hi Hc. unfold Policy.validate.
    rewrite (Action_eqb_neq _ _ Hi), (Qltb_true _ _ Hc). reflexivity.
  - intros p d ctx now Hi. unfold Policy.validate. rewrite Hi. reflexivity.
Qed.

Lemma validate_confidence_gate_witness :
  Policy.validate (Policy.new Policy.DEFAULT_CONFIG)
    (mkDecision vote None None None None (5 # 10))
    (Policy.mkVCtx (Some "general") (Some "t1") vote) 1000
  = (Policy.Rejected "confidence below threshold", Policy.new Policy.DEFAULT_CONFIG)
  /\ Policy.validate (Policy.new Policy.DEFAULT_CONFIG)
       (mkDecision ignore None None None None (0 # 1))
       (Policy.mkVCtx None None ignore) 1000
     = (Policy.Allowed, Policy.new Policy.DEFAULT_CONFIG).
Proof.
  destruct validate_confidence_gate as [_ [Hlow Hign]]. split.
  - apply Hlow; [discriminate | reflexivity].
  - apply Hign. reflexivity.
Defined.

Section SlidingWindow.

Import Policy.

Lemma post_checks_over_limit p d ctx now :
  maxPostsPerHour (config p) <= Z.of_nat (List.length (postsInLastHour p)) ->
  post_checks p d ctx now = Some "max posts per hour exceeded".
Proof.
  intros H. unfold post_checks.
  destruct (Z.geb_spec (Z.of_nat (List.length (postsInLastHour p)))
              (maxPostsPerHour (config p))); [reflexivity | lia].
Qed.

Lemma post_checks_pass p d ctx now :
  Z.of_nat (List.length (postsInLastHour p)) < maxPostsPerHour (config p) ->
  later_post_rules_pass p d ctx now ->
  post_checks p d ctx now = None.
Proof.
  intros Hlen [Hcontent Hcool]. unfold post_checks.
  destruct (Z.geb_spec (Z.of_nat (List.length (postsInLastHour p)))
              (maxPostsPerHour (config p))); [lia|].
  rewrite Hcontent.
  destruct (v_submoltId ctx) as [sub|] eqn:Hsub; [|reflexivity].
  destruct (JS.truthy (Some sub)); [|reflexivity].
  destruct (lastPostBySubmolt p !! sub) as [last|] eqn:Hlast; [|reflexivity].
  specialize (Hcool sub last eq_refl Hlast).
  destruct (Z.ltb_spec (now - last) (cooldownMinutesPerSubmolt (config p) * 60 * 1000));
    [lia | reflexivity].
Qed.

End SlidingWindow.

(** C4. With [maxPostsPerHour = N], after [N] posts recorded by
    [recordAction] within the last 60 minutes, a further post decision
    whose confidence reaches the threshold is rejected with reason
    "max posts per hour exceeded". Timestamps that are 60 minutes old or
    older are dropped before counting (the window kept by [validate] holds
    exactly the recorded timestamps newer than that): once the first
    recorded post is more than 60 minutes old, the same decision, no other
    rule of the post branch firing, is allowed. *)
Theorem max_posts_per_hour_window :
  forall cfg (N : nat) rs d ctx now,
    Policy.maxPostsPerHour cfg = Z.of_nat N ->
    List.length rs = N ->
    action d = post ->
    ~ (confidence d < Policy.confidenceThreshold cfg)%Q ->
    (forall r, In r rs -> now - 60 * 60 * 1000 < snd r) ->
    let p := record_posts (Policy.new cfg) rs in
    fst (Policy.validate p d ctx now)
    = Policy.Rejected "max posts per hour exceeded"
    /\ (forall later t,
          In t (Policy.postsInLastHour (snd (Policy.validate p d ctx later)))
          <-> In t (Policy.postsInLastHour p) /\ later - 60 * 60 * 1000 < t)
    /\ forall c1 t1 rest later,
         rs = (c1, t1) :: rest ->
         60 * 60 * 1000 < later - t1 ->
         later_post_rules_pass p d ctx later ->
         fst (Policy.validate (snd (Policy.validate p d ctx now)) d ctx later)
         = Policy.Allowed.
Proof.
  intros cfg N rs d ctx now Hmax Hlen Hpost Hconf Hrecent p.
  assert (Hcfg : Policy.config p = cfg).
  { unfold p. now rewrite record_posts_config. }
  assert (Hwin : Policy.postsInLastHour p = List.map snd rs).
  { unfold p. now rewrite record_posts_window. }
  assert (Hni : action d <> ignore) by (rewrite Hpost; discriminate).
  assert (Hkeep : List.filter (fun t => t >? now - 60 * 60 * 1000) (Policy.postsInLastHour p)
                  = List.map snd rs).
  { rewrite Hwin. apply filter_all_true. intros t Ht.
    apply in_map_iff in Ht. destruct Ht as [r [<- Hr]].
    specialize (Hrecent r Hr). apply Z.gtb_lt. lia. }
  assert (Hdiscard : forall later t,
            In t (Policy.postsInLastHour (snd (Policy.validate p d ctx later)))
            <-> In t (Policy.postsInLastHour p) /\ later - 60 * 60 * 1000 < t).
  { intros later t.
    rewrite validate_past_gate by (rewrite ?Hcfg; assumption).
    cbv zeta. cbn [snd Policy.with_posts Policy.postsInLastHour].
    rewrite filter_In. rewrite Z.gtb_lt. reflexivity. }
  rewrite validate_past_gate by (rewrite ?Hcfg; assumption).
  cbv zeta. rewrite Hpost, Hkeep. split; [|split; [exact Hdiscard|]].
  - cbn [fst]. rewrite post_checks_over_limit; [reflexivity|].
    cbn. rewrite Hcfg, Hmax, length_map, Hlen. lia.
  - intros c1 t1 rest later Hrs Hold [Hcontent Hcool]. cbn [snd].
    rewrite validate_past_gate by (cbn; rewrite ?Hcfg; assumption).
    cbv zeta. rewrite Hpost. cbn [fst].
    rewrite post_checks_pass; [reflexivity| |].
    + cbn. rewrite Hcfg, Hmax, <- Hlen, Hrs. cbn [List.map snd List.filter].
      destruct (Z.gtb_spec t1 (later - 60 * 60 * 1000)) as [Hgt|_]; [lia|].
      pose proof (filter_length_le (fun t => t >? later - 60 * 60 * 1000)
                    (List.map snd rest)) as Hle.
      rewrite length_map in Hle. cbn [List.length]. lia.
    + split; [exact Hcontent | exact Hcool].
Qed.

Lemma max_posts_per_hour_window_witness :
  let cfg := Policy.mkConfig 1 3 (6 # 10) 2000 10 in
  let d := mkDecision post None (Some "Hi") (Some "hello there") None (9 # 10) in
  let ctx := Policy.mkVCtx (Some "general") None post in
  let p := record_posts (Policy.new cfg)
             [(Policy.mkRCtx (Some "general") None None, 0)] in
  fst (Policy.validate (Policy.new cfg) d ctx 0) = Policy.Allowed
  /\ fst (Policy.validate p d ctx 1000)
     = Policy.Rejected "max posts per hour exceeded"
  /\ fst (Policy.validate (snd (Policy.validate p d ctx 1000)) d ctx 3600001)
     = Policy.Allowed.
Proof.
  intros cfg d ctx p. split; [vm_compute; reflexivity|].
  destruct (max_posts_per_hour_window cfg 1
              [(Policy.mkRCtx (Some "general") None None, 0)] d ctx 1000)
    as [Hrej [_ Hlater]].
  - reflexivity.
  - reflexivity.
  - reflexivity.
  - vm_compute. discriminate.
  - intros r [<-|[]]. vm_compute. reflexivity.
  - split; [exact Hrej|].
    apply (Hlater (Policy.mkRCtx (Some "general") None None) 0 [] 3600001).
    + reflexivity.
    + lia.
    + split; [vm_compute; reflexivity|].
      intros sub last Hsub Hlast. injection Hsub as <-.
      vm_compute in Hlast. injection Hlast as <-. vm_compute. discriminate.
Defined.

(** ** Normalisation and fingerprints *)

Section Words.

Lemma pieces_cons (s : string) : exists w r, pieces s = w :: r.
Proof.
  destruct s as [|c s]; cbn; [eauto|].
  destruct (JS.is_whitespace c); [eauto|]. destruct (pieces s); eauto.
Qed.

Lemma words_whitespace c s : JS.is_whitespace c = true -> words (String c s) = words s.
Proof. intros H. unfold words. cbn. now rewrite H. Qed.

Lemma words_letter c s w r :
  JS.is_whitespace c = false -> pieces s = w :: r ->
  words (String c s) = String c w :: List.filter nonempty r.
Proof. intros H E. unfold words. cbn. now rewrite H, E. Qed.

Lemma trimEnd_letter c s :
  JS.is_whitespace c = false -> JS.trimEnd (String c s) = String c (JS.trimEnd s).
Proof. intros H. cbn. now rewrite H. Qed.

Lemma trimEnd_space s :
  JS.trimEnd (String " " s)
  = if String.eqb (JS.trimEnd s) "" then EmptyString else String " " (JS.trimEnd s).
Proof. reflexivity. Qed.

(** What is left of a collapsed text once its end is trimmed, seen from
    inside a word ([false]) and from inside a whitespace run ([true]). *)
Lemma trimEnd_collapse (s : string) :
  (forall w r, pieces s = w :: r ->
     JS.trimEnd (JS.collapse false s) = (w ++ spaced (List.filter nonempty r))%string)
  /\ (if String.eqb (JS.trimEnd (JS.collapse true s)) "" then EmptyString
      else String " " (JS.trimEnd (JS.collapse true s))) = spaced (words s).
Proof.
  induction s as [|c s [IHw IHr]].
  - split; [|reflexivity]. intros w r E. cbn in E. now inversion E.
  - destruct (pieces_cons s) as [w0 [r0 E0]].
    destruct (JS.is_whitespace c) eqn:Hc.
    + split.
      * intros w r E. cbn in E. rewrite Hc in E. inversion E; subst.
        cbn [JS.collapse]. rewrite Hc, trimEnd_space. exact IHr.
      * cbn [JS.collapse]. rewrite Hc, words_whitespace by assumption. exact IHr.
    + split.
      * intros w r E. cbn in E. rewrite Hc, E0 in E. inversion E; subst.
        cbn [JS.collapse]. rewrite Hc, trimEnd_letter by assumption.
        now rewrite (IHw _ _ E0).
      * cbn [JS.collapse]. rewrite Hc, trimEnd_letter by assumption.
        rewrite (words_letter _ _ _ _ Hc E0), (IHw _ _ E0). reflexivity.
Qed.

Lemma trim_collapse (s : string) : forall b,
  JS.trim (JS.collapse b s) = unwords (words s).
Proof.
  induction s as [|c s IH]; intros b; [reflexivity|].
  destruct (JS.is_whitespace c) eqn:Hc.
  - rewrite words_whitespace by assumption. rewrite <- (IH true).
    cbn [JS.collapse]. rewrite Hc. destruct b; reflexivity.
  - destruct (pieces_cons s) as [w0 [r0 E0]].
    rewrite (words_letter _ _ _ _ Hc E0). cbn [JS.collapse]. rewrite Hc.
    unfold JS.trim. cbn [JS.trimStart]. rewrite Hc, trimEnd_letter by assumption.
    destruct (trimEnd_collapse s) as [Hw _]. now rewrite (Hw _ _ E0).
Qed.

Lemma lower_char_whitespace c : JS.is_whitespace (JS.lower_char c) = JS.is_whitespace c.
Proof. destruct c as [[] [] [] [] [] [] [] []]; reflexivity. Qed.

Lemma pieces_toLowerCase s : pieces (JS.toLowerCase s) = List.map JS.toLowerCase (pieces s).
Proof.
  induction s as [|c s IH]; [reflexivity|].
  cbn [JS.toLowerCase pieces]. rewrite lower_char_whitespace, IH.
  destruct (JS.is_whitespace c); [reflexivity|].
  destruct (pieces s); reflexivity.
Qed.

Lemma nonempty_toLowerCase s : nonempty (JS.toLowerCase s) = nonempty s.
Proof. destruct s; reflexivity. Qed.

Lemma words_toLowerCase s : words (JS.toLowerCase s) = List.map JS.toLowerCase (words s).
Proof.
  unfold words. rewrite pieces_toLowerCase.
  induction (pieces s) as [|w r IH]; [reflexivity|].
  cbn [List.map List.filter]. rewrite nonempty_toLowerCase, IH.
  destruct (nonempty w); reflexivity.
Qed.

(** The normal form: the lower-cased words, one space between them. *)
Lemma normalize_words s :
  Policy.normalize s = unwords (List.map JS.toLowerCase (words s)).
Proof.
  unfold Policy.normalize, JS.replace_whitespace_runs.
  now rewrite trim_collapse, words_toLowerCase.
Qed.

Lemma simpleHash_same a b :
  same_up_to_case_and_whitespace a b -> Policy.simpleHash a = Policy.simpleHash b.
Proof.
  unfold same_up_to_case_and_whitespace, Policy.simpleHash. intros H.
  now rewrite !normalize_words, H.
Qed.

End Words.

Section Repetition.

Import Policy.

Lemma truthy_nonempty s : s <> "" -> JS.truthy (Some s) = true.
Proof.
  intros H. unfold JS.truthy. destruct (String.eqb_spec s ""); [contradiction|reflexivity].
Qed.

Lemma includes_app_last hs h : JS.includes (hs ++ [h]) h = true.
Proof.
  unfold JS.includes. rewrite existsb_app. cbn. rewrite String.eqb_refl.
  now rewrite orb_true_r.
Qed.

Lemma addContentHash_includes p c :
  JS.includes (recentContentHashes (addContentHash p c)) (simpleHash c) = true.
Proof.
  unfold addContentHash, with_hashes, JS.push, JS.shift. cbn [recentContentHashes].
  destruct (maxRecentHashes <? _)%nat eqn:E; [|apply includes_app_last].
  destruct (recentContentHashes p) as [|h0 hs].
  - cbn in E. discriminate.
  - cbn [app List.tl]. apply includes_app_last.
Qed.

Lemma recordAction_includes p a rc now c :
  a = post \/ a = comment -> r_content rc = Some c -> c <> "" ->
  JS.includes (recentContentHashes (recordAction p a rc now)) (simpleHash c) = true.
Proof.
  intros Ha Hc Hne. unfold recordAction, record_hash. rewrite Hc, (truthy_nonempty _ Hne).
  destruct Ha as [-> | ->]; apply addContentHash_includes.
Qed.

Lemma content_checks_repetition p d c :
  content d = Some c -> c <> "" ->
  Z.of_nat (String.length c) <= maxContentLength (config p) ->
  isRepetition p c = true ->
  content_checks p d = Some "repetition detected".
Proof.
  intros Hc Hne Hlen Hrep. unfold content_checks.
  rewrite Hc, (truthy_nonempty _ Hne), Hrep.
  destruct (Z.gtb_spec (Z.of_nat (String.length c)) (maxContentLength (config p)));
    [lia | reflexivity].
Qed.

End Repetition.

(** C10 as the specification states it fails: content that is only
    whitespace is recorded (fingerprint of the empty text), and the empty
    content, which differs from it only in whitespace, is falsy, skips the
    repetition check and is allowed. *)
Lemma empty_content_escapes_repetition :
  ~ (forall p a rc c d c' ctx t now,
       a = post \/ a = comment ->
       Policy.r_content rc = Some c ->
       action d = post \/ action d = comment ->
       content d = Some c' ->
       same_up_to_case_and_whitespace c c' ->
       ~ (confidence d < Policy.confidenceThreshold (Policy.config p))%Q ->
       earlier_rules_pass (Policy.recordAction p a rc t) d ctx now ->
       fst (Policy.validate (Policy.recordAction p a rc t) d ctx now)
       = Policy.Rejected "repetition detected").
Proof.
  intros H.
  specialize (H (Policy.new Policy.DEFAULT_CONFIG) comment
                (Policy.mkRCtx None (Some "t1") (Some " ")) " "
                (mkDecision comment (Some "t1") None (Some "") None (8 # 10)) ""
                (Policy.mkVCtx None (Some "t1") comment) 0 1000).
  assert (E : fst (Policy.validate
                (Policy.recordAction (Policy.new Policy.DEFAULT_CONFIG) comment
                   (Policy.mkRCtx None (Some "t1") (Some " ")) 0)
                (mkDecision comment (Some "t1") None (Some "") None (8 # 10))
                (Policy.mkVCtx None (Some "t1") comment) 1000) = Policy.Allowed)
    by (vm_compute; reflexivity).
  rewrite E in H. enough (Policy.Allowed = Policy.Rejected "repetition detected") by discriminate.
  apply H.
  - now right.
  - reflexivity.
  - now right.
  - reflexivity.
  - reflexivity.
  - vm_compute. discriminate.
  - split.
    + intros c Hc. injection Hc as <-. vm_compute. discriminate.
    + intros t Ht Hne. injection Ht as <-. vm_compute. reflexivity.
Qed.

(** C10, amended. After [recordAction] (post or comment) has recorded a
    non-empty content [c], a post or comment decision whose non-empty
    content differs from [c] only in case and whitespace, whose confidence
    reaches the threshold and on which no earlier rule fires, is rejected
    with reason "repetition detected": the two texts have the same
    normalised form, hence the same fingerprint, and the fingerprint just
    recorded is in the engine's history. *)
Theorem repetition_detected_after_record :
  forall p a rc c d c' ctx t now,
    a = post \/ a = comment ->
    Policy.r_content rc = Some c -> c <> "" ->
    action d = post \/ action d = comment ->
    content d = Some c' -> c' <> "" ->
    same_up_to_case_and_whitespace c c' ->
    ~ (confidence d < Policy.confidenceThreshold (Policy.config p))%Q ->
    earlier_rules_pass (Policy.recordAction p a rc t) d ctx now ->
    Policy.simpleHash c' = Policy.simpleHash c
    /\ fst (Policy.validate (Policy.recordAction p a rc t) d ctx now)
       = Policy.Rejected "repetition detected".
Proof.
  intros p a rc c d c' ctx t now Ha Hc Hne Hd Hc' Hne' Hsame Hconf [Hlen Hearly].
  assert (Hhash : Policy.simpleHash c' = Policy.simpleHash c)
    by (symmetry; now apply simpleHash_same).
  split; [exact Hhash|].
  set (q := Policy.recordAction p a rc t) in *.
  assert (Hcfg : Policy.config q = Policy.config p) by apply recordAction_config.
  assert (Hni : action d <> ignore) by (destruct Hd as [-> | ->]; discriminate).
  rewrite validate_past_gate by (rewrite ?Hcfg; assumption).
  cbv zeta. cbn [fst].
  set (q1 := Policy.with_posts q _).
  assert (Hrep : Policy.content_checks q1 d = Some "repetition detected").
  { apply (content_checks_repetition q1 d c' Hc' Hne').
    - apply (Hlen c' Hc').
    - unfold Policy.isRepetition. rewrite Hhash.
      apply (recordAction_includes p a rc t c Ha Hc Hne). }
  destruct Hd as [Hd | Hd]; rewrite Hd in *.
  - unfold Policy.post_checks.
    destruct (Z.geb_spec (Z.of_nat (List.length (Policy.postsInLastHour q1)))
                (Policy.maxPostsPerHour (Policy.config q1))) as [Hge|_].
    + exfalso. unfold q1 in Hge. cbn in Hge. cbn in Hearly. lia.
    + now rewrite Hrep.
  - unfold Policy.comment_checks.
    destruct (JS.nullish (Policy.v_threadId ctx) (targetId d)) as [th|] eqn:Hth.
    + destruct (JS.truthy (Some th)) eqn:Htr.
      * assert (Hthne : th <> "").
        { intros ->. cbn in Htr. discriminate. }
        specialize (Hearly th eq_refl Hthne).
        destruct (Z.geb_spec (default 0 (Policy.commentsByThread q1 !! th))
                    (Policy.maxCommentsPerThread (Policy.config q1))) as [Hge|_].
        -- exfalso. unfold q1 in Hge. cbn in Hge. lia.
        -- now rewrite Hrep.
      * now rewrite Hrep.
    + now rewrite Hrep.
Qed.

Lemma repetition_detected_after_record_witness :
  Policy.simpleHash "hello world" = Policy.simpleHash "  Hello   WORLD "
  /\ fst (Policy.validate
            (Policy.recordAction (Policy.new Policy.DEFAULT_CONFIG) comment
               (Policy.mkRCtx None (Some "t1") (Some "  Hello   WORLD ")) 0)
            (mkDecision post None (Some "Hi") (Some "hello world") None (8 # 10))
            (Policy.mkVCtx (Some "general") (Some "t1") post) 1000)
     = Policy.Rejected "repetition detected".
Proof.
  apply (repetition_detected_after_record (Policy.new Policy.DEFAULT_CONFIG) comment
           (Policy.mkRCtx None (Some "t1") (Some "  Hello   WORLD ")) "  Hello   WORLD "
           (mkDecision post None (Some "Hi") (Some "hello world") None (8 # 10))
           "hello world" (Policy.mkVCtx (Some "general") (Some "t1") post) 0 1000).
  - now right.
  - reflexivity.
  - discriminate.
  - now left.
  - reflexivity.
  - discriminate.
  - vm_compute. reflexivity.
  - vm_compute. discriminate.
  - split.
    + intros c Hc. injection Hc as <-. vm_compute. discriminate.
    + vm_compute. reflexivity.
Defined.

(** ** The per-thread comment cap *)

(** What [validate] does: the thread whose count it reads is
    [context.threadId], and [decision.targetId] only when the context names
    no thread. *)
Lemma validate_comment_cap_context_thread :
  forall p d ctx now t,
    action d = comment ->
    ~ (confidence d < Policy.confidenceThreshold (Policy.config p))%Q ->
    Policy.v_threadId ctx = Some t -> t <> "" ->
    Policy.maxCommentsPerThread (Policy.config p)
    <= default 0 (Policy.commentsByThread p !! t) ->
    fst (Policy.validate p d ctx now)
    = Policy.Rejected "max comments per thread exceeded".
Proof.
  intros p d ctx now t Hd Hconf Ht Hne Hcount.
  rewrite validate_past_gate by (rewrite ?Hd; try discriminate; assumption).
  cbv zeta. cbn [fst]. rewrite Hd. unfold Policy.comment_checks.
  rewrite Ht. cbn [JS.nullish]. rewrite (truthy_nonempty _ Hne). cbn.
  destruct (Z.geb_spec (default 0 (Policy.commentsByThread p !! t))
              (Policy.maxCommentsPerThread (Policy.config p))); [reflexivity | lia].
Qed.

(** In the pipeline the comment is recorded under
    [decision.targetId ?? postId] and validated under [postId]: four
    comments that target "t1" from post "p1" are all executed under
    [maxCommentsPerThread = 3], and the count of "t1" reaches 4 while that
    of "p1" stays unset. *)
Lemma pipeline_exceeds_comment_cap :
  let answer c := mkDecision comment (Some "t1") None (Some c) None (8 # 10) in
  let '(outcomes, p) :=
    run_pipeline (Scheduler.mkSchedConfig 5 30 false) (Policy.new Policy.DEFAULT_CONFIG)
      Memory.new "p1" "general" [answer "one"; answer "two"; answer "three"; answer "four"] in
  outcomes = [Some executed; Some executed; Some executed; Some executed]
  /\ Policy.commentsByThread p !! "t1" = Some 4
  /\ Policy.commentsByThread p !! "p1" = None.
Proof. vm_compute. repeat split; reflexivity. Qed.

(** C7. The decision of Scenario C, after three comments recorded on
    thread "t1" with [maxCommentsPerThread = 3]: validated with no thread in
    the context it is rejected with reason "max comments per thread
    exceeded"; validated with another thread "p1" in the context, as the
    scheduler does when the decision targets something else than the current
    post, the count of "p1" is read instead of that of [targetId] and the
    comment is allowed. *)
Theorem comment_cap_reads_context_thread_first :
  let p := record_comments (Policy.new Policy.DEFAULT_CONFIG) 3 "t1" 0 in
  let d := mkDecision comment (Some "t1") None (Some "hi") None (8 # 10) in
  Policy.commentsByThread p !! "t1" = Some 3
  /\ fst (Policy.validate p d (Policy.mkVCtx None None comment) 1000)
     = Policy.Rejected "max comments per thread exceeded"
  /\ fst (Policy.validate p d (Policy.mkVCtx None (Some "p1") comment) 1000)
     = Policy.Allowed.
Proof. vm_compute. repeat split; reflexivity. Qed.

(** ** The memory store *)

Section CappedLists.

Context {A : Type}.

Lemma slice_last_length (n : nat) (xs : list A) :
  (n <= List.length xs)%nat -> List.length (JS.slice_last n xs) = n.
Proof. intros H. unfold JS.slice_last. rewrite length_skipn. lia. Qed.

Lemma push_capped_length (cap : nat) (xs : list A) (x : A) :
  (List.length (Memory.push_capped cap xs x) <= cap)%nat.
Proof.
  unfold Memory.push_capped.
  destruct (Nat.ltb_spec cap (List.length (JS.push xs x))) as [Hlt|Hge].
  - rewrite slice_last_length; lia.
  - exact Hge.
Qed.

(** The capped push keeps a suffix of the pushed list: what goes is taken
    from the front, and only as much as exceeds the cap. *)
Lemma push_capped_suffix (cap : nat) (xs : list A) (x : A) :
  exists evicted,
    (xs ++ [x])%list = (evicted ++ Memory.push_capped cap xs x)%list
    /\ List.length evicted = (List.length xs + 1 - cap)%nat.
Proof.
  unfold Memory.push_capped, JS.push, JS.slice_last.
  destruct (Nat.ltb_spec cap (List.length (xs ++ [x]))) as [Hlt|Hge].
  - exists (firstn (List.length (xs ++ [x]) - cap) (xs ++ [x])). split.
    + now rewrite firstn_skipn.
    + rewrite length_firstn. rewrite length_app in *. cbn in *. lia.
  - exists []. split; [reflexivity|]. rewrite length_app in Hge. cbn in *. lia.
Qed.

End CappedLists.

Lemma includes_push_capped (cap : nat) (xs : list string) (x : string) :
  (1 <= cap)%nat -> JS.includes (Memory.push_capped cap xs x) x = true.
Proof.
  intros Hcap. unfold Memory.push_capped, JS.push, JS.slice_last.
  destruct (Nat.ltb_spec cap (List.length (xs ++ [x]))) as [Hlt|Hge].
  - rewrite length_app in *. cbn [List.length] in *.
    rewrite skipn_app.
    replace (List.length xs + 1 - cap - List.length xs)%nat with 0%nat by lia.
    cbn [skipn]. apply includes_app_last.
  - apply includes_app_last.
Qed.

Lemma apply_mark_within_cap s m : within_cap s -> within_cap (apply_mark s m).
Proof.
  intros [Ht Hc]. destruct m as [id|id]; cbn [apply_mark].
  - unfold Memory.markThreadSeen.
    destruct (negb _); [|split; assumption].
    split; cbn; [apply push_capped_length | exact Hc].
  - unfold Memory.markCommentSeen.
    destruct (negb _); [|split; assumption].
    split; cbn; [exact Ht | apply push_capped_length].
Qed.

Lemma apply_marks_within_cap ms : forall s, within_cap s -> within_cap (apply_marks s ms).
Proof.
  induction ms as [|m ms IH]; intros s H; [exact H|].
  unfold apply_marks in *. cbn [fold_left]. apply IH. now apply apply_mark_within_cap.
Qed.

(** C5. Whatever sequence of [markThreadSeen] and [markCommentSeen] calls a
    store goes through, neither seen-list exceeds 500 entries; marking an id
    that is not yet seen appends it and, when that exceeds the cap, evicts
    from the front (the oldest entries), keeping the most recently added
    ones in order; marking an id that is already seen leaves the store as
    it is. *)
Theorem seen_lists_capped_fifo :
  (forall ms, within_cap (apply_marks Memory.new ms))
  /\ (forall s ms, within_cap s -> within_cap (apply_marks s ms))
  /\ (forall s id,
        Memory.isThreadSeen s id = false ->
        exists evicted,
          (Memory.lastSeenThreadIds (Memory.state s) ++ [id])%list
          = (evicted ++ Memory.lastSeenThreadIds (Memory.state (Memory.markThreadSeen s id)))%list
          /\ List.length evicted
             = (List.length (Memory.lastSeenThreadIds (Memory.state s)) + 1 - 500)%nat)
  /\ (forall s id,
        Memory.isCommentSeen s id = false ->
        exists evicted,
          (Memory.lastSeenCommentIds (Memory.state s) ++ [id])%list
          = (evicted ++ Memory.lastSeenCommentIds (Memory.state (Memory.markCommentSeen s id)))%list
          /\ List.length evicted
             = (List.length (Memory.lastSeenCommentIds (Memory.state s)) + 1 - 500)%nat)
  /\ (forall s id, Memory.isThreadSeen s id = true -> Memory.markThreadSeen s id = s)
  /\ (forall s id, Memory.isCommentSeen s id = true -> Memory.markCommentSeen s id = s).
Proof.
  split; [|split; [|split; [|split; [|split]]]].
  - intros ms. apply apply_marks_within_cap. split; cbn; lia.
  - intros s ms H. now apply apply_marks_within_cap.
  - intros s id H. unfold Memory.isThreadSeen in H. unfold Memory.markThreadSeen.
    rewrite H. cbn. apply push_capped_suffix.
  - intros s id H. unfold Memory.isCommentSeen in H. unfold Memory.markCommentSeen.
    rewrite H. cbn. apply push_capped_suffix.
  - intros s id H. unfold Memory.isThreadSeen in H. unfold Memory.markThreadSeen.
    now rewrite H.
  - intros s id H. unfold Memory.isCommentSeen in H. unfold Memory.markCommentSeen.
    now rewrite H.
Qed.

Lemma seen_lists_capped_fifo_witness :
  let s := apply_marks Memory.new [MarkThread "a"; MarkComment "c"; MarkThread "b"] in
  within_cap (apply_marks s [MarkThread "a"; MarkThread "d"])
  /\ Memory.markThreadSeen s "a" = s
  /\ Memory.markCommentSeen s "c" = s
  /\ (exists evicted,
        (Memory.lastSeenThreadIds (Memory.state s) ++ ["d"])%list
        = (evicted ++ Memory.lastSeenThreadIds (Memory.state (Memory.markThreadSeen s "d")))%list
        /\ List.length evicted = 0%nat)
  /\ (exists evicted,
        (Memory.lastSeenCommentIds (Memory.state s) ++ ["e"])%list
        = (evicted ++ Memory.lastSeenCommentIds (Memory.state (Memory.markCommentSeen s "e")))%list
        /\ List.length evicted = 0%nat).
Proof.
  intros s.
  destruct seen_lists_capped_fifo as [Hnew [Hcap [Hthread [Hcomment [Hidt Hidc]]]]].
  split; [|split; [|split; [|split]]].
  - apply Hcap. apply Hnew.
  - apply Hidt. reflexivity.
  - apply Hidc. reflexivity.
  - apply (Hthread s "d"). reflexivity.
  - apply (Hcomment s "e"). reflexivity.
Defined.

(** C6. [load()] of a freshly constructed store on an absent backing file
    is not an error and leaves the default empty state: [getContext()] then
    returns empty lists and [isClaimed()] is false. (On any store, an
    absent file leaves the state in memory as it is.) A read failure other
    than the absence of the file, and a file that is not JSON, are thrown
    to the caller. *)
Theorem load_absent_file_gives_empty_state :
  forall (Number_toString : Q -> string),
    (exists s,
       Memory.load Memory.new None None = Memory.Ok s
       /\ Memory.state s = Memory.initial_state
       /\ Memory.getContext Number_toString s = Memory.mkContext [] [] [] []
       /\ Memory.isClaimed s = false)
    /\ (forall s, Memory.load s None None = Memory.Ok s)
    /\ (forall s disk code,
          code <> "ENOENT" ->
          Memory.load s disk (Some code) = Memory.Throw (Memory.ErrnoException code))
    /\ (forall s, Memory.load s (Some Memory.Malformed) None = Memory.Throw Memory.SyntaxError)
    /\ (forall s, Memory.load s (Some Memory.NullDocument) None = Memory.Throw Memory.TypeError).
Proof.
  intros Number_toString. split; [|split; [|split; [|split]]].
  - exists Memory.new. repeat split; reflexivity.
  - intros s. reflexivity.
  - intros s disk code Hcode. unfold Memory.load, Memory.load_try, Memory.readFile.
    cbn [Memory.error_code]. destruct (String.eqb_spec code "ENOENT"); [contradiction|reflexivity].
  - intros s. reflexivity.
  - intros s. reflexivity.
Qed.

Lemma load_absent_file_gives_empty_state_witness :
  Memory.load Memory.new (Some (Memory.stringify Memory.initial_state)) (Some "EACCES")
  = Memory.Throw (Memory.ErrnoException "EACCES").
Proof.
  destruct (load_absent_file_gives_empty_state (fun _ => "0")) as [_ [_ [Hio _]]].
  apply Hio. discriminate.
Defined.

(** C9. After [addAgentPostContent(title, content)] and a [save()] that
    succeeds, a freshly constructed store that loads the file just written
    answers [isDuplicatePost(title, content)] with true. *)
Theorem duplicate_post_survives_restart :
  forall s title content disk,
    exists s' disk' restarted,
      Memory.save (Memory.addAgentPostContent s title content) disk None
      = Memory.Ok (s', disk')
      /\ Memory.load Memory.new disk' None = Memory.Ok restarted
      /\ Memory.isDuplicatePost restarted title content = true.
Proof.
  intros s title content disk.
  eexists. eexists. eexists. split; [reflexivity|]. split; [reflexivity|].
  unfold Memory.isDuplicatePost. cbn.
  apply includes_push_capped. unfold Memory.MAX_RECENT_POST_HASHES. lia.
Qed.

(** ** The decision schema *)

Section SchemaFacts.

Import Schema.

Lemma unit_number_bounds v q :
  unit_number v = Some q -> (0 <= q)%Q /\ (q <= 1)%Q.
Proof.
  unfold unit_number. destruct v as [[| | q' | | |]|]; try discriminate.
  destruct (Qle_bool 0 q' && Qle_bool q' 1) eqn:B; [|discriminate].
  intros E. injection E as <-. apply andb_prop in B. destruct B as [B0 B1].
  split; now apply Qle_bool_iff.
Qed.

Lemma unit_number_out_of_range q :
  ~ ((0 <= q)%Q /\ (q <= 1)%Q) -> unit_number (Some (JNumber q)) = None.
Proof.
  intros H. unfold unit_number.
  destruct (Qle_bool 0 q && Qle_bool q 1) eqn:B; [|reflexivity].
  exfalso. apply H. apply andb_prop in B. destruct B as [B0 B1].
  split; now apply Qle_bool_iff.
Qed.

Lemma safeParse_confidence j d :
  DecisionSchema_safeParse j = Some d -> (0 <= confidence d)%Q /\ (confidence d <= 1)%Q.
Proof.
  destruct j as [| | | | |fs]; try discriminate. unfold DecisionSchema_safeParse.
  destruct (action_enum _); [|discriminate].
  destruct (optional_string (field "targetId" fs)); [|discriminate].
  destruct (optional_string (field "title" fs)); [|discriminate].
  destruct (optional_string (field "content" fs)); [|discriminate].
  destruct (optional_direction _); [|discriminate].
  destruct (unit_number _) as [q|] eqn:E; [|discriminate].
  intros H. injection H as <-. cbn. exact (unit_number_bounds _ _ E).
Qed.

Lemma safeParse_confidence_rejected fs q :
  field "confidence" fs = Some (JNumber q) ->
  ~ ((0 <= q)%Q /\ (q <= 1)%Q) ->
  DecisionSchema_safeParse (JObject fs) = None.
Proof.
  intros Hf Hq. unfold DecisionSchema_safeParse.
  rewrite Hf, (unit_number_out_of_range _ Hq).
  destruct (action_enum _); [|reflexivity].
  destruct (optional_string (field "targetId" fs)); [|reflexivity].
  destruct (optional_string (field "title" fs)); [|reflexivity].
  destruct (optional_string (field "content" fs)); [|reflexivity].
  destruct (optional_direction _); reflexivity.
Qed.

Lemma safeParse_action_alone a q :
  (0 <= q)%Q -> (q <= 1)%Q ->
  DecisionSchema_safeParse
    (JObject [("action", JString (Memory.Action_toString a)); ("confidence", JNumber q)])
  = Some (mkDecision a None None None None q).
Proof.
  intros H0 H1. unfold DecisionSchema_safeParse.
  assert (E : unit_number (field "confidence"
                [("action", JString (Memory.Action_toString a)); ("confidence", JNumber q)])
              = Some q).
  { cbn. apply Qle_bool_iff in H0, H1. now rewrite H0, H1. }
  rewrite E. destruct a; reflexivity.
Qed.

Lemma validate_vote_missing_fields p d ctx now :
  action d = vote ->
  ~ (confidence d < Policy.confidenceThreshold (Policy.config p))%Q ->
  JS.truthy (targetId d) = false \/ voteDirection d = None ->
  fst (Policy.validate p d ctx now)
  = Policy.Rejected "vote requires targetId and voteDirection".
Proof.
  intros Hd Hconf Hmiss.
  rewrite validate_past_gate by (rewrite ?Hd; try discriminate; assumption).
  cbv zeta. cbn [fst]. rewrite Hd. unfold Policy.vote_checks.
  destruct Hmiss as [-> | ->]; [reflexivity|].
  cbn. now rewrite orb_true_r.
Qed.

End SchemaFacts.

(** C8 as the specification states it fails: the schema accepts a post
    decision that has neither title nor content (and a vote without
    [voteDirection]); every field but [action] and [confidence] is
    optional, whatever the action. *)
Lemma schema_accepts_post_without_content :
  ~ (forall j d,
       Schema.DecisionSchema_safeParse j = Some d ->
       (action d = post -> is_Some (title d) /\ is_Some (content d))
       /\ (action d = vote -> is_Some (voteDirection d))
       /\ (0 <= confidence d)%Q /\ (confidence d <= 1)%Q).
Proof.
  intros H.
  destruct (H (Schema.JObject [("action", Schema.JString "post");
                               ("confidence", Schema.JNumber (9 # 10))])
              (mkDecision post None None None None (9 # 10)) eq_refl)
    as [Hpost _].
  destruct (Hpost eq_refl) as [[t Ht] _]. discriminate.
Qed.

(** C8, amended. Schema validation, applied before a decision reaches the
    policy, accepts only a confidence that is a number in [0,1] (and an
    action among the four); it requires neither title nor content for a
    post nor [voteDirection] for a vote: an object with just an action and
    a confidence passes for every action. A vote that lacks [targetId] or
    [voteDirection] is rejected afterwards, by [validate]. *)
Theorem schema_enforces_confidence_range_only :
  (forall j d,
     Schema.DecisionSchema_safeParse j = Some d ->
     (0 <= confidence d)%Q /\ (confidence d <= 1)%Q)
  /\ (forall fs q,
        Schema.field "confidence" fs = Some (Schema.JNumber q) ->
        ~ ((0 <= q)%Q /\ (q <= 1)%Q) ->
        Schema.DecisionSchema_safeParse (Schema.JObject fs) = None)
  /\ (forall a q,
        (0 <= q)%Q -> (q <= 1)%Q ->
        Schema.DecisionSchema_safeParse
          (Schema.JObject [("action", Schema.JString (Memory.Action_toString a));
                           ("confidence", Schema.JNumber q)])
        = Some (mkDecision a None None None None q))
  /\ (forall p d ctx now,
        action d = vote ->
        ~ (confidence d < Policy.confidenceThreshold (Policy.config p))%Q ->
        JS.truthy (targetId d) = false \/ voteDirection d = None ->
        fst (Policy.validate p d ctx now)
        = Policy.Rejected "vote requires targetId and voteDirection").
Proof.
  split; [exact safeParse_confidence|].
  split; [exact safeParse_confidence_rejected|].
  split; [exact safeParse_action_alone|].
  exact validate_vote_missing_fields.
Qed.

Lemma schema_enforces_confidence_range_only_witness :
  Schema.DecisionSchema_safeParse
    (Schema.JObject [("action", Schema.JString "vote");
                     ("confidence", Schema.JNumber (12 # 10))]) = None
  /\ Schema.DecisionSchema_safeParse
       (Schema.JObject [("action", Schema.JString "vote");
                        ("confidence", Schema.JNumber (9 # 10))])
     = Some (mkDecision vote None None None None (9 # 10))
  /\ fst (Policy.validate (Policy.new Policy.DEFAULT_CONFIG)
            (mkDecision vote None None None None (9 # 10))
            (Policy.mkVCtx (Some "general") (Some "t1") vote) 1000)
     = Policy.Rejected "vote requires targetId and voteDirection".
Proof.
  destruct schema_enforces_confidence_range_only as [_ [Hout [Hopt Hvote]]].
  split; [|split].
  - apply (Hout _ (12 # 10)); [reflexivity|].
    intros [_ H]. vm_compute in H. apply H. reflexivity.
  - apply (Hopt vote (9 # 10)); vm_compute; discriminate.
  - apply Hvote; [reflexivity | vm_compute; discriminate | now left].
Defined.

(** ** The decision pipeline and the policy counters *)

Section Pipeline.

Import Policy Scheduler.

(** [validate] never adds to a counter: the window can only lose
    entries, the other three structures are returned as they were. *)
Lemma validate_never_grows p d ctx now :
  let q := snd (validate p d ctx now) in
  (forall t, In t (postsInLastHour q) -> In t (postsInLastHour p))
  /\ (List.length (postsInLastHour q) <= List.length (postsInLastHour p))%nat
  /\ commentsByThread q = commentsByThread p
  /\ lastPostBySubmolt q = lastPostBySubmolt p
  /\ recentContentHashes q = recentContentHashes p.
Proof.
  unfold validate.
  destruct (Action_eqb (action d) ignore); [cbn; repeat split; auto; lia|].
  destruct (JS.Qltb _ _); [cbn; repeat split; auto; lia|].
  cbn. repeat split.
  - intros t Ht. apply filter_In in Ht. tauto.
  - apply filter_length_le.
Qed.

Lemma pipeline_records Date_getTime Date_toISOString cfg policy memory postId
    submoltName ext clk :
  let r := decideAndExecute Date_getTime Date_toISOString cfg policy memory
             postId submoltName ext clk in
  (result r = None -> calls r = [] /\ policy_after r = policy)
  /\ forall d o,
       result r = Some (d, o) ->
       let validated :=
         snd (validate policy d (mkVCtx (Some submoltName) (Some postId) (action d))
                (t_validate clk)) in
       recordAction_calls (calls r) = (if counted_write d o then 1 else 0)%nat
       /\ policy_after r
          = (if counted_write d o
             then recordAction validated (action d)
                    (recorded_context d postId submoltName) (t_record clk)
             else validated).
Proof.
  unfold decideAndExecute.
  destruct (llm_decideAction ext) as [d0|]; [|cbn; split; [auto | intros; discriminate]].
  destruct (validate policy d0 _ (t_validate clk)) as [verdict p1] eqn:Ev.
  split.
  - destruct verdict; [|cbn; discriminate].
    destruct (post_gates _ _ _ _ _); [cbn; discriminate|].
    destruct (Action_eqb _ _); [cbn; discriminate|].
    destruct (dryRun cfg); [cbn; discriminate|].
    destruct (execute _ _ _ _ _ _ _ _) as [[[p2 m2]|] cs]; cbn; discriminate.
  - intros d o. destruct verdict.
    2:{ cbn. intros H. injection H as <- <-. rewrite Ev. cbn. auto. }
    destruct (post_gates _ _ _ _ _).
    { cbn. intros H. injection H as <- <-. rewrite Ev. cbn. auto. }
    destruct (Action_eqb (action d0) ignore) eqn:Ei.
    { cbn. intros H. injection H as <- <-. rewrite Ev. cbn. auto. }
    destruct (dryRun cfg).
    { cbn. intros H. injection H as <- <-. rewrite Ev. cbn. auto. }
    unfold execute, counted_write, recorded_context.
    destruct (action d0) eqn:Ea.
    + destruct (JS.truthy (content d0)) eqn:Et.
      * destruct (moltbook_postPost ext); cbn; intros H; injection H as <- <-;
          rewrite Ea, Ev, ?Et; cbn; auto.
      * cbn. intros H; injection H as <- <-. rewrite Ea, Ev, Et. cbn. auto.
    + destruct (JS.truthy (content d0)) eqn:Et.
      * destruct (moltbook_postComment ext); cbn; intros H; injection H as <- <-;
          rewrite Ea, Ev, ?Et; cbn; auto.
      * cbn. intros H; injection H as <- <-. rewrite Ea, Ev, Et. cbn. auto.
    + destruct (targetId d0) as [tid|], (voteDirection d0) as [dir|];
        try (cbn; intros H; injection H as <- <-; rewrite Ea, Ev; cbn; auto; fail).
      destruct (JS.truthy (Some tid));
        [destruct (moltbook_vote ext)|];
        cbn; intros H; injection H as <- <-; rewrite Ea, Ev; cbn; auto.
    + cbn in Ei. discriminate.
Qed.

End Pipeline.




(** ** The tick timer *)

Section TickOverlap.

Import Scheduler.

Variable tickIntervalMs : nat.
Variable duration : nat -> nat.

Lemma run_succ n : forall s,
  run tickIntervalMs duration (S n) s
  = elapse tickIntervalMs duration (run tickIntervalMs duration n s).
Proof.
  induction n as [|n IH]; intros s; [reflexivity|].
  change (run tickIntervalMs duration (S (S n)) s)
    with (run tickIntervalMs duration (S n) (elapse tickIntervalMs duration s)).
  now rewrite IH.
Qed.

Lemma serial_one_tick s : serial s -> (concurrent_ticks s <= 1)%nat.
Proof.
  intros [_ [due [_ [_ [H | [c [H _]]]]]]]; unfold concurrent_ticks; rewrite H; cbn; lia.
Qed.

Hypothesis period_positive : (1 <= tickIntervalMs)%nat.
Hypothesis ticks_short : forall t, (duration t < tickIntervalMs)%nat.

Lemma serial_start : serial (start tickIntervalMs duration stopped).
Proof.
  split; [reflexivity|]. exists tickIntervalMs. cbn.
  split; [reflexivity|]. split; [lia|]. right. eexists. split; [reflexivity|].
  apply ticks_short.
Qed.

Lemma serial_elapse s : serial s -> serial (elapse tickIntervalMs duration s).
Proof.
  intros [Hrun [due [Hid [Hnow Hfl]]]]. unfold elapse. cbn [intervalId]. rewrite Hid.
  destruct (Nat.leb_spec due (S (now s))) as [Hdue|Hnot].
  - assert (Edue : due = S (now s)) by lia.
    assert (Hempty : List.filter (fun c => (S (now s) <? c)%nat) (in_flight s) = []).
    { destruct Hfl as [-> | [c [-> Hc]]]; [reflexivity|]. cbn [List.filter].
      destruct (Nat.ltb_spec (S (now s)) c); [lia | reflexivity]. }
    unfold tick. cbn [running now intervalId in_flight negb]. rewrite Hrun, Hempty.
    cbn [negb app]. split; [reflexivity|]. cbn [now intervalId in_flight].
    eexists. split; [reflexivity|]. split; [lia|].
    right. eexists. split; [reflexivity|].
    pose proof (ticks_short (S (now s))). lia.
  - split; [exact Hrun|]. exists due. cbn [now running intervalId in_flight].
    split; [reflexivity|]. split; [lia|].
    destruct Hfl as [-> | [c [-> Hc]]]; [now left|]. cbn [List.filter].
    destruct (Nat.ltb_spec (S (now s)) c); [|now left].
    right. exists c. split; [reflexivity | exact Hc].
Qed.

Lemma serial_run n : serial (run tickIntervalMs duration n (start tickIntervalMs duration stopped)).
Proof.
  induction n as [|n IH]; [apply serial_start|].
  rewrite run_succ. now apply serial_elapse.
Qed.

End TickOverlap.

Section TickLong.

Import Scheduler.

Variable tickIntervalMs : nat.
Variable d : nat.
Hypothesis period_positive : (1 <= tickIntervalMs)%nat.
Hypothesis tick_long : (tickIntervalMs < d)%nat.

(** Until the timer first fires, the first tick is alone in flight. *)
Lemma first_tick_in_flight n :
  (n < tickIntervalMs)%nat ->
  run tickIntervalMs (fun _ => d) n (start tickIntervalMs (fun _ => d) stopped)
  = {| now := n; running := true; intervalId := Some tickIntervalMs;
       in_flight := [d] |}.
Proof.
  induction n as [|n IH]; intros Hn.
  - cbn. f_equal. 
  - rewrite run_succ, IH by lia. unfold elapse.
    cbn [now running intervalId in_flight List.filter].
    destruct (Nat.ltb_spec (S n) d); [|lia].
    destruct (Nat.leb_spec tickIntervalMs (S n)); [lia | reflexivity].
Qed.

(** When it fires, the first tick is still running and a second starts. *)
Lemma second_tick_overlaps_at n :
  n = tickIntervalMs ->
  in_flight (run tickIntervalMs (fun _ => d) n
               (start tickIntervalMs (fun _ => d) stopped))
  = [d; (tickIntervalMs + d)%nat].
Proof.
  intros Hn. destruct n as [|k]; [lia|].
  rewrite run_succ, first_tick_in_flight by lia.
  unfold elapse. cbn [now running intervalId in_flight List.filter].
  destruct (Nat.ltb_spec (S k) d); [|lia].
  destruct (Nat.leb_spec tickIntervalMs (S k)); [|lia].
  unfold tick. cbn [now running intervalId in_flight negb app]. now rewrite Hn.
Qed.

Lemma second_tick_overlaps :
  in_flight (run tickIntervalMs (fun _ => d) tickIntervalMs
               (start tickIntervalMs (fun _ => d) stopped))
  = [d; (tickIntervalMs + d)%nat].
Proof. now apply second_tick_overlaps_at. Qed.

End TickLong.

(** After [stop()] no tick body starts: those in flight run on and finish. *)
Lemma stop_starts_no_tick tickIntervalMs duration n : forall s,
  Scheduler.running s = false -> Scheduler.intervalId s = None ->
  (Scheduler.concurrent_ticks (Scheduler.run tickIntervalMs duration n s)
   <= Scheduler.concurrent_ticks s)%nat.
Proof.
  induction n as [|n IH]; intros s Hr Hi; [cbn; lia|].
  cbn [Scheduler.run].
  assert (E : Scheduler.elapse tickIntervalMs duration s
              = {| Scheduler.now := S (Scheduler.now s); Scheduler.running := false;
                   Scheduler.intervalId := None;
                   Scheduler.in_flight :=
                     List.filter (fun c => (S (Scheduler.now s) <? c)%nat)
                       (Scheduler.in_flight s) |}).
  { unfold Scheduler.elapse. cbn. now rewrite Hi, Hr. }
  rewrite E. etransitivity; [apply IH; reflexivity|].
  unfold Scheduler.concurrent_ticks. cbn. apply filter_length_le.
Qed.

(** C3 as the specification states it fails: with a period of 5 and
    ticks that take 7, the timer fires at time 5 while the first tick body
    is still running, and a second one starts. *)
Lemma long_tick_overlaps_next :
  ~ (forall tickIntervalMs duration n,
       (forall t, tickIntervalMs < duration t)%nat ->
       (Scheduler.concurrent_ticks
          (Scheduler.run tickIntervalMs duration n
             (Scheduler.start tickIntervalMs duration Scheduler.stopped)) <= 1)%nat).
Proof.
  intros H. specialize (H 5%nat (fun _ => 7%nat) 5%nat).
  cbn in H. assert (5 < 7)%nat as H57 by lia. specialize (H (fun _ => H57)). lia.
Qed.

(** C3, amended. [start] runs a tick at once and arms an interval timer
    that calls [tick] every period whether or not the previous tick has
    finished; the only guard in [tick] is the [running] flag. So tick bodies
    never overlap as long as every tick takes less than the period; a tick
    that takes longer than the period is still in flight when the next one
    starts; and after [stop()] no new tick body starts. *)
Theorem ticks_serial_only_when_shorter_than_period :
  (forall tickIntervalMs duration n,
     (1 <= tickIntervalMs)%nat ->
     (forall t, duration t < tickIntervalMs)%nat ->
     (Scheduler.concurrent_ticks
        (Scheduler.run tickIntervalMs duration n
           (Scheduler.start tickIntervalMs duration Scheduler.stopped)) <= 1)%nat)
  /\ (forall tickIntervalMs d,
        (1 <= tickIntervalMs)%nat ->
        (tickIntervalMs < d)%nat ->
        Scheduler.concurrent_ticks
          (Scheduler.run tickIntervalMs (fun _ => d) tickIntervalMs
             (Scheduler.start tickIntervalMs (fun _ => d) Scheduler.stopped)) = 2%nat)
  /\ (forall tickIntervalMs duration n s,
        (Scheduler.concurrent_ticks
           (Scheduler.run tickIntervalMs duration n (Scheduler.stop s))
         <= Scheduler.concurrent_ticks s)%nat).
Proof.
  split; [|split].
  - intros tickIntervalMs duration n Hp Hshort.
    apply serial_one_tick. now apply serial_run.
  - intros tickIntervalMs d Hp Hlong. unfold Scheduler.concurrent_ticks.
    now rewrite second_tick_overlaps.
  - intros tickIntervalMs duration n s.
    apply (stop_starts_no_tick tickIntervalMs duration n (Scheduler.stop s)); reflexivity.
Qed.

Lemma ticks_serial_only_when_shorter_than_period_witness :
  (Scheduler.concurrent_ticks
     (Scheduler.run 5 (fun _ => 3%nat) 12
        (Scheduler.start 5 (fun _ => 3%nat) Scheduler.stopped)) <= 1)%nat
  /\ Scheduler.concurrent_ticks
       (Scheduler.run 5 (fun _ => 7%nat) 5
          (Scheduler.start 5 (fun _ => 7%nat) Scheduler.stopped)) = 2%nat.
Proof.
  destruct ticks_serial_only_when_shorter_than_period as [Hshort [Hlong _]]. split.
  - apply Hshort; [lia | intros _; lia].
  - apply (Hlong 5%nat 7%nat); lia.
Defined.

(** * Further properties of the code *)

(** ** The policy engine: fingerprints *)

Section FingerprintFacts.

Import Policy.

Lemma toInt32_range x : - 2 ^ 31 <= JS.toInt32 x < 2 ^ 31.
Proof.
  unfold JS.toInt32.
  pose proof (Z.mod_pos_bound (x + 2 ^ 31) (2 ^ 32) ltac:(lia)). lia.
Qed.

Lemma hash_loop_range s : forall h,
  - 2 ^ 31 <= h < 2 ^ 31 -> - 2 ^ 31 <= JS.hash_loop h s < 2 ^ 31.
Proof.
  induction s as [|c s IH]; intros h Hh; [exact Hh|].
  cbn [JS.hash_loop]. apply IH. apply toInt32_range.
Qed.

Lemma lower_char_idempotent c : JS.lower_char (JS.lower_char c) = JS.lower_char c.
Proof. destruct c as [[] [] [] [] [] [] [] []]; reflexivity. Qed.

Lemma toLowerCase_idempotent s : JS.toLowerCase (JS.toLowerCase s) = JS.toLowerCase s.
Proof.
  induction s as [|c s IH]; [reflexivity|].
  cbn [JS.toLowerCase]. now rewrite lower_char_idempotent, IH.
Qed.

Lemma whitespace_free_toLowerCase s :
  whitespace_free (JS.toLowerCase s) = whitespace_free s.
Proof.
  induction s as [|c s IH]; [reflexivity|].
  cbn [JS.toLowerCase whitespace_free]. now rewrite lower_char_whitespace, IH.
Qed.

(** The pieces of a text: all but the last are followed by whitespace, so
    none of them holds any. *)
Lemma pieces_whitespace_free s : Forall (fun w => whitespace_free w = true) (pieces s).
Proof.
  induction s as [|c s IH]; cbn [pieces].
  - constructor; [reflexivity | constructor].
  - destruct (JS.is_whitespace c) eqn:Hc.
    + constructor; [reflexivity | exact IH].
    + destruct (pieces s) as [|w r].
      * constructor; [|constructor]. cbn [whitespace_free]. now rewrite Hc.
      * inversion IH; subst. constructor; [|assumption].
        cbn [whitespace_free]. rewrite Hc. assumption.
Qed.

Lemma words_whitespace_free s : Forall (fun w => whitespace_free w = true) (words s).
Proof.
  unfold words. pose proof (pieces_whitespace_free s) as H.
  induction H as [|w r Hw Hr IH]; [constructor|].
  cbn [List.filter]. destruct (nonempty w); [constructor|]; assumption.
Qed.

Lemma words_nonempty s : Forall (fun w => nonempty w = true) (words s).
Proof.
  unfold words. induction (pieces s) as [|w r IH]; [constructor|].
  cbn [List.filter]. destruct (nonempty w) eqn:E; [constructor|]; assumption.
Qed.

Lemma append_cons c (w s : string) : (String c w ++ s)%string = String c (w ++ s)%string.
Proof. reflexivity. Qed.

Lemma pieces_app_word w : forall s p ps,
  whitespace_free w = true -> pieces s = p :: ps ->
  pieces (w ++ s) = (w ++ p)%string :: ps.
Proof.
  induction w as [|c w IH]; intros s p ps Hw Hs; [exact Hs|].
  cbn [whitespace_free] in Hw. apply andb_prop in Hw. destruct Hw as [Hc Hw].
  apply negb_true_iff in Hc.
  rewrite !append_cons. cbn [pieces]. rewrite Hc, (IH s p ps Hw Hs). reflexivity.
Qed.

Lemma append_empty_r (s : string) : (s ++ "")%string = s.
Proof. induction s as [|c s IH]; [reflexivity|]. now rewrite append_cons, IH. Qed.

Lemma pieces_spaced ws :
  Forall (fun w => whitespace_free w = true) ws ->
  pieces (spaced ws) = EmptyString :: ws.
Proof.
  induction 1 as [|w r Hw Hr IH]; [reflexivity|].
  cbn [spaced]. change (" " ++ w ++ spaced r)%string with (String " " (w ++ spaced r)).
  cbn [pieces]. change (JS.is_whitespace " ") with true. cbn iota.
  rewrite (pieces_app_word w _ _ _ Hw IH). now rewrite append_empty_r.
Qed.

Lemma filter_all {A} (f : A -> bool) (l : list A) :
  Forall (fun x => f x = true) l -> List.filter f l = l.
Proof.
  induction 1 as [|x l Hx Hl IH]; [reflexivity|]. cbn. now rewrite Hx, IH.
Qed.

Lemma words_unwords ws :
  Forall (fun w => whitespace_free w = true) ws ->
  Forall (fun w => nonempty w = true) ws ->
  words (unwords ws) = ws.
Proof.
  intros Hfree Hne. destruct ws as [|w r]; [reflexivity|].
  inversion Hfree; subst. unfold words, unwords.
  rewrite (pieces_app_word w _ _ _ H1 (pieces_spaced r H2)), append_empty_r.
  now apply filter_all.
Qed.

Lemma Forall_map_lower (P : string -> bool) ws :
  (forall w, P (JS.toLowerCase w) = P w) ->
  Forall (fun w => P w = true) ws ->
  Forall (fun w => P w = true) (List.map JS.toLowerCase ws).
Proof.
  intros HP H. induction H as [|w r Hw Hr IH]; [constructor|].
  cbn [List.map]. constructor; [now rewrite HP | exact IH].
Qed.

Lemma normalize_idempotent s : normalize (normalize s) = normalize s.
Proof.
  rewrite (normalize_words (normalize s)), (normalize_words s).
  rewrite words_unwords.
  - f_equal. rewrite List.map_map. apply List.map_ext. intros w.
    apply toLowerCase_idempotent.
  - apply Forall_map_lower; [apply whitespace_free_toLowerCase | apply words_whitespace_free].
  - apply Forall_map_lower; [apply nonempty_toLowerCase | apply words_nonempty].
Qed.

End FingerprintFacts.

(** X1. The fingerprint of a text is the decimal writing of a signed 32-bit
    integer, and it is the fingerprint of the text's normal form: the
    normalisation (lower case, whitespace runs collapsed, ends trimmed) is
    idempotent. *)
Theorem simpleHash_int32_of_normal_form :
  forall s,
    Policy.normalize (Policy.normalize s) = Policy.normalize s
    /\ Policy.simpleHash (Policy.normalize s) = Policy.simpleHash s
    /\ exists h,
         Policy.simpleHash s = JS.String_of_int h
         /\ - 2 ^ 31 <= h < 2 ^ 31.
Proof.
  intros s. split; [apply normalize_idempotent|]. split.
  - unfold Policy.simpleHash. now rewrite normalize_idempotent.
  - exists (JS.hash_loop 0 (Policy.normalize s)). split; [reflexivity|].
    apply hash_loop_range. lia.
Qed.

(** ** The policy engine: counters and rules *)

Section EngineFacts.

Import Policy.

Lemma addContentHash_length p c :
  (List.length (recentContentHashes p) <= maxRecentHashes)%nat ->
  (List.length (recentContentHashes (addContentHash p c)) <= maxRecentHashes)%nat.
Proof.
  intros H. unfold addContentHash, with_hashes, JS.push, JS.shift.
  cbn [recentContentHashes].
  destruct (Nat.ltb_spec maxRecentHashes
              (List.length (recentContentHashes p ++ [simpleHash c]))) as [Hlt|Hge];
    [|exact Hge].
  rewrite length_app in Hlt. cbn [List.length] in Hlt.
  destruct (recentContentHashes p) as [|h hs]; cbn [app List.tl List.length] in *.
  - lia.
  - rewrite length_app. cbn [List.length]. lia.
Qed.

Lemma record_hash_length p c :
  (List.length (recentContentHashes p) <= maxRecentHashes)%nat ->
  (List.length (recentContentHashes (record_hash p c)) <= maxRecentHashes)%nat.
Proof.
  intros H. unfold record_hash. destruct c as [s|]; [|exact H].
  destruct (JS.truthy (Some s)); [now apply addContentHash_length | exact H].
Qed.

Lemma recordAction_hashes_length p a rc now :
  (List.length (recentContentHashes p) <= maxRecentHashes)%nat ->
  (List.length (recentContentHashes (recordAction p a rc now)) <= maxRecentHashes)%nat.
Proof.
  intros H. unfold recordAction. destruct a; try exact H; apply record_hash_length.
  - destruct (r_submoltId rc) as [sub|]; [destruct (JS.truthy (Some sub))|]; exact H.
  - destruct (r_threadId rc) as [t|]; [destruct (JS.truthy (Some t))|]; exact H.
Qed.

Lemma apply_policy_call_hashes_length p c :
  (List.length (recentContentHashes p) <= maxRecentHashes)%nat ->
  (List.length (recentContentHashes (apply_policy_call p c)) <= maxRecentHashes)%nat.
Proof.
  intros H. destruct c as [d ctx now | a rc now]; cbn [apply_policy_call].
  - destruct (validate_never_grows p d ctx now) as [_ [_ [_ [_ E]]]]. now rewrite E.
  - now apply recordAction_hashes_length.
Qed.

Lemma addContentHash_fifo p c :
  (List.length (recentContentHashes p) <= maxRecentHashes)%nat ->
  exists evicted,
    (recentContentHashes p ++ [simpleHash c])%list
    = (evicted ++ recentContentHashes (addContentHash p c))%list
    /\ List.length evicted
       = (if (List.length (recentContentHashes p) =? maxRecentHashes)%nat then 1 else 0)%nat.
Proof.
  intros H. unfold addContentHash, with_hashes, JS.push, JS.shift.
  cbn [recentContentHashes].
  destruct (Nat.ltb_spec maxRecentHashes
              (List.length (recentContentHashes p ++ [simpleHash c]))) as [Hlt|Hge];
    rewrite length_app in *; cbn [List.length] in *.
  - destruct (recentContentHashes p) as [|h hs]; [cbn in Hlt; unfold maxRecentHashes in Hlt; lia|].
    exists [h]. split; [reflexivity|].
    destruct (Nat.eqb_spec (List.length (h :: hs)) maxRecentHashes); [reflexivity|].
    cbn [List.length] in *. lia.
  - exists []. split; [reflexivity|].
    destruct (Nat.eqb_spec (List.length (recentContentHashes p)) maxRecentHashes);
      [lia | reflexivity].
Qed.

Lemma record_hash_fields p c :
  config (record_hash p c) = config p
  /\ postsInLastHour (record_hash p c) = postsInLastHour p
  /\ commentsByThread (record_hash p c) = commentsByThread p
  /\ lastPostBySubmolt (record_hash p c) = lastPostBySubmolt p.
Proof.
  unfold record_hash. destruct c as [s|]; [destruct (JS.truthy (Some s))|];
    repeat split; reflexivity.
Qed.

Lemma filter_filter_later (l : list Z) (a b : Z) :
  a <= b ->
  List.filter (fun t => t >? b) (List.filter (fun t => t >? a) l)
  = List.filter (fun t => t >? b) l.
Proof.
  intros Hab. induction l as [|t l IH]; [reflexivity|]. cbn [List.filter].
  destruct (Z.gtb_spec t a) as [Ha|Ha]; cbn [List.filter].
  - now rewrite IH.
  - destruct (Z.gtb_spec t b); [lia | exact IH].
Qed.

(** The verdict at [later] on an engine that an earlier [validate] has
    pruned is the verdict on the engine as it was. *)
Lemma validate_after_validate p d ctx now d' ctx' later :
  now <= later ->
  fst (validate (snd (validate p d ctx now)) d' ctx' later)
  = fst (validate p d' ctx' later).
Proof.
  intros Hle. unfold validate at 2.
  destruct (Action_eqb (action d) ignore); [reflexivity|].
  destruct (JS.Qltb (confidence d) _); [reflexivity|].
  cbn [snd]. unfold validate.
  cbn [config with_posts postsInLastHour commentsByThread lastPostBySubmolt
         recentContentHashes].
  destruct (Action_eqb (action d') ignore); [reflexivity|].
  destruct (JS.Qltb (confidence d') _); [reflexivity|].
  cbn [fst]. rewrite filter_filter_later by lia. reflexivity.
Qed.

End EngineFacts.

(** X2. The repetition history never holds more than 50 fingerprints,
    whatever calls the engine receives; when a fingerprint is added to a
    full history, exactly the oldest one is dropped, and nothing is dropped
    otherwise. *)
Theorem fingerprint_history_bounded_fifo :
  (forall cfg cs,
     (List.length (Policy.recentContentHashes (apply_policy_calls (Policy.new cfg) cs))
      <= 50)%nat)
  /\ (forall p c,
        (List.length (Policy.recentContentHashes p) <= 50)%nat ->
        exists evicted,
          (Policy.recentContentHashes p ++ [Policy.simpleHash c])%list
          = (evicted ++ Policy.recentContentHashes (Policy.addContentHash p c))%list
          /\ List.length evicted
             = (if (List.length (Policy.recentContentHashes p) =? 50)%nat then 1 else 0)%nat).
Proof.
  split.
  - intros cfg cs. unfold apply_policy_calls.
    assert (H : (List.length (Policy.recentContentHashes (Policy.new cfg))
                 <= Policy.maxRecentHashes)%nat) by (cbn; lia).
    revert H. generalize (Policy.new cfg).
    induction cs as [|c cs IH]; intros p H; [exact H|].
    cbn [fold_left]. apply IH. now apply apply_policy_call_hashes_length.
  - intros p c H. now apply addContentHash_fifo.
Qed.

Lemma fingerprint_history_bounded_fifo_witness :
  exists evicted,
    (Policy.recentContentHashes (Policy.new Policy.DEFAULT_CONFIG)
       ++ [Policy.simpleHash "hello"])%list
    = (evicted ++ Policy.recentContentHashes
                    (Policy.addContentHash (Policy.new Policy.DEFAULT_CONFIG) "hello"))%list
    /\ List.length evicted = 0%nat.
Proof.
  destruct fingerprint_history_bounded_fifo as [_ H].
  apply (H (Policy.new Policy.DEFAULT_CONFIG) "hello"). cbn. lia.
Defined.

(** X3. Asking does not count: the verdict of [validate] on an engine that
    earlier [validate] calls have gone through (at times not later than the
    present one) is the verdict on the engine before those calls. *)
Theorem validate_does_not_consume :
  forall p d ctx now d' ctx' later,
    now <= later ->
    fst (Policy.validate (snd (Policy.validate p d ctx now)) d' ctx' later)
    = fst (Policy.validate p d' ctx' later).
Proof. intros. now apply validate_after_validate. Qed.

Lemma validate_does_not_consume_witness :
  let p := record_posts (Policy.new Policy.DEFAULT_CONFIG)
             [(Policy.mkRCtx (Some "general") None (Some "first"), 0)] in
  let d := mkDecision post None (Some "Hi") (Some "second") None (9 # 10) in
  let ctx := Policy.mkVCtx (Some "tech") (Some "t1") post in
  fst (Policy.validate (snd (Policy.validate p d ctx 3600001)) d ctx 3600002)
  = fst (Policy.validate p d ctx 3600002).
Proof.
  intros p d ctx. apply validate_does_not_consume. lia.
Defined.

Section RuleFacts.

Import Policy.

Lemma recordAction_post_submolt p rc t sub :
  r_submoltId rc = Some sub -> sub <> "" ->
  lastPostBySubmolt (recordAction p post rc t) !! sub = Some t.
Proof.
  intros Hsub Hne. unfold recordAction. rewrite Hsub, (truthy_nonempty _ Hne).
  destruct (record_hash_fields
              {| config := config (with_posts p (JS.push (postsInLastHour p) t));
                 postsInLastHour := postsInLastHour (with_posts p (JS.push (postsInLastHour p) t));
                 commentsByThread := commentsByThread (with_posts p (JS.push (postsInLastHour p) t));
                 lastPostBySubmolt :=
                   <[sub:=t]> (lastPostBySubmolt (with_posts p (JS.push (postsInLastHour p) t)));
                 recentContentHashes :=
                   recentContentHashes (with_posts p (JS.push (postsInLastHour p) t)) |}
              (r_content rc)) as [_ [_ [_ E]]].
  rewrite E. cbn [lastPostBySubmolt]. apply lookup_insert_eq.
Qed.

Lemma post_checks_cooldown p d ctx now sub last :
  Z.of_nat (List.length (postsInLastHour p)) < maxPostsPerHour (config p) ->
  content_checks p d = None ->
  v_submoltId ctx = Some sub -> sub <> "" ->
  lastPostBySubmolt p !! sub = Some last ->
  post_checks p d ctx now
  = if now - last <? cooldownMinutesPerSubmolt (config p) * 60 * 1000
    then Some "submolt cooldown" else None.
Proof.
  intros Hcount Hcontent Hsub Hne Hlast. unfold post_checks.
  destruct (Z.geb_spec (Z.of_nat (List.length (postsInLastHour p)))
              (maxPostsPerHour (config p))); [lia|].
  now rewrite Hcontent, Hsub, (truthy_nonempty _ Hne), Hlast.
Qed.

Lemma record_comments_succ p n t t0 :
  record_comments p (S n) t t0
  = recordAction (record_comments p n t t0) comment (mkRCtx None (Some t) None) t0.
Proof. reflexivity. Qed.

Lemma record_comments_config p n t t0 : config (record_comments p n t t0) = config p.
Proof.
  induction n as [|n IH]; [reflexivity|].
  now rewrite record_comments_succ, recordAction_config.
Qed.

Lemma record_comments_count p n t t0 :
  t <> "" ->
  default 0 (commentsByThread (record_comments p n t t0) !! t)
  = default 0 (commentsByThread p !! t) + Z.of_nat n.
Proof.
  intros Hne. induction n as [|n IH]; [cbn; lia|].
  rewrite record_comments_succ. unfold recordAction, record_hash.
  cbn [r_threadId r_content]. rewrite (truthy_nonempty _ Hne).
  cbn [commentsByThread]. rewrite lookup_insert_eq. cbn [from_option id].
  rewrite IH. lia.
Qed.

End RuleFacts.

(** X4. After a post recorded in a submolt at time [t], a further post in
    that submolt that passes the hourly count and the content checks is
    rejected with reason "submolt cooldown" as long as less than
    [cooldownMinutesPerSubmolt] minutes have passed since [t], and allowed
    from then on. *)
Theorem submolt_cooldown_after_post :
  forall p rc t d ctx now sub,
    Policy.r_submoltId rc = Some sub -> sub <> "" ->
    Policy.v_submoltId ctx = Some sub ->
    action d = post ->
    ~ (confidence d < Policy.confidenceThreshold (Policy.config p))%Q ->
    count_rule_passes (Policy.recordAction p post rc t) d ctx now ->
    Policy.content_checks (Policy.recordAction p post rc t) d = None ->
    (now - t < Policy.cooldownMinutesPerSubmolt (Policy.config p) * 60 * 1000 ->
     fst (Policy.validate (Policy.recordAction p post rc t) d ctx now)
     = Policy.Rejected "submolt cooldown")
    /\ (Policy.cooldownMinutesPerSubmolt (Policy.config p) * 60 * 1000 <= now - t ->
        fst (Policy.validate (Policy.recordAction p post rc t) d ctx now)
        = Policy.Allowed).
Proof.
  intros p rc t d ctx now sub Hsub Hne Hctx Hpost Hconf Hcount Hcontent.
  set (q := Policy.recordAction p post rc t) in *.
  assert (Hcfg : Policy.config q = Policy.config p) by apply recordAction_config.
  assert (Hni : action d <> ignore) by (rewrite Hpost; discriminate).
  assert (Hlast : Policy.lastPostBySubmolt q !! sub = Some t)
    by now apply recordAction_post_submolt.
  rewrite validate_past_gate by (rewrite ?Hcfg; assumption).
  cbv zeta. cbn [fst]. rewrite Hpost.
  unfold count_rule_passes in Hcount. rewrite Hpost in Hcount.
  rewrite (post_checks_cooldown _ d ctx now sub t);
    [| cbn [Policy.config Policy.with_posts Policy.postsInLastHour]; exact Hcount
     | exact Hcontent | exact Hctx | exact Hne | exact Hlast].
  cbn [Policy.config Policy.with_posts]. rewrite Hcfg. split; intros H.
  - destruct (Z.ltb_spec (now - t)
                (Policy.cooldownMinutesPerSubmolt (Policy.config p) * 60 * 1000));
      [reflexivity | lia].
  - destruct (Z.ltb_spec (now - t)
                (Policy.cooldownMinutesPerSubmolt (Policy.config p) * 60 * 1000));
      [lia | reflexivity].
Qed.

Lemma submolt_cooldown_after_post_witness :
  let p := Policy.new Policy.DEFAULT_CONFIG in
  let rc := Policy.mkRCtx (Some "general") None (Some "first") in
  let d := mkDecision post None (Some "Hi") (Some "second") None (9 # 10) in
  let ctx := Policy.mkVCtx (Some "general") None post in
  fst (Policy.validate (Policy.recordAction p post rc 0) d ctx 599999)
  = Policy.Rejected "submolt cooldown"
  /\ fst (Policy.validate (Policy.recordAction p post rc 0) d ctx 600000)
     = Policy.Allowed.
Proof.
  intros p rc d ctx. split.
  - apply (submolt_cooldown_after_post p rc 0 d ctx 599999 "general");
      first [reflexivity | discriminate | (vm_compute; first [reflexivity | discriminate])].
  - apply (submolt_cooldown_after_post p rc 0 d ctx 600000 "general");
      first [reflexivity | discriminate | (vm_compute; first [reflexivity | discriminate])].
Defined.

(** X5. Votes are never counted or rate limited: a vote whose confidence
    reaches the threshold is allowed exactly when it has a non-empty
    [targetId] and a [voteDirection], whatever the engine has recorded. *)
Theorem vote_allowed_iff_target_and_direction :
  forall p d ctx now,
    action d = vote ->
    ~ (confidence d < Policy.confidenceThreshold (Policy.config p))%Q ->
    (fst (Policy.validate p d ctx now) = Policy.Allowed
     <-> JS.truthy (targetId d) = true /\ voteDirection d <> None).
Proof.
  intros p d ctx now Hvote Hconf.
  rewrite validate_past_gate by (rewrite ?Hvote; try discriminate; assumption).
  cbv zeta. cbn [fst]. rewrite Hvote. unfold Policy.vote_checks.
  destruct (JS.truthy (targetId d)), (voteDirection d) as [dir|]; cbn; split;
    try discriminate; try (intros [H1 H2]; congruence); intros _; split; congruence.
Qed.

Lemma vote_allowed_iff_target_and_direction_witness :
  fst (Policy.validate
         (record_posts (Policy.new Policy.DEFAULT_CONFIG)
            [(Policy.mkRCtx (Some "general") None (Some "first"), 0);
             (Policy.mkRCtx (Some "general") None (Some "second"), 1)])
         (mkDecision vote (Some "p1") None None (Some down) (7 # 10))
         (Policy.mkVCtx (Some "general") (Some "p1") vote) 2)
  = Policy.Allowed.
Proof.
  apply vote_allowed_iff_target_and_direction.
  - reflexivity.
  - vm_compute. discriminate.
  - split; [reflexivity | discriminate].
Defined.

(** X6. A post or a comment whose (non-empty) content is longer than
    [maxContentLength] and on which the counting rule does not fire is
    rejected with reason "content too long", whether or not the content
    repeats an earlier one: the length is checked before the repetition. *)
Theorem content_too_long_rejected :
  forall p d c ctx now,
    action d = post \/ action d = comment ->
    content d = Some c -> c <> "" ->
    Policy.maxContentLength (Policy.config p) < Z.of_nat (String.length c) ->
    ~ (confidence d < Policy.confidenceThreshold (Policy.config p))%Q ->
    count_rule_passes p d ctx now ->
    fst (Policy.validate p d ctx now) = Policy.Rejected "content too long".
Proof.
  intros p d c ctx now Ha Hc Hne Hlen Hconf Hcount.
  assert (Hni : action d <> ignore) by (destruct Ha as [-> | ->]; discriminate).
  rewrite validate_past_gate by assumption. cbv zeta. cbn [fst].
  set (p1 := Policy.with_posts p _).
  assert (Hlong : Policy.content_checks p1 d = Some "content too long").
  { unfold Policy.content_checks. rewrite Hc, (truthy_nonempty _ Hne).
    destruct (Z.gtb_spec (Z.of_nat (String.length c))
                (Policy.maxContentLength (Policy.config p1))) as [_|Hle];
      [reflexivity|]. unfold p1 in Hle. cbn in Hle. lia. }
  unfold count_rule_passes in Hcount.
  destruct Ha as [Ha | Ha]; rewrite Ha in *.
  - unfold Policy.post_checks.
    destruct (Z.geb_spec (Z.of_nat (List.length (Policy.postsInLastHour p1)))
                (Policy.maxPostsPerHour (Policy.config p1))) as [Hge|_].
    + exfalso. unfold p1 in Hge. cbn in Hge. lia.
    + now rewrite Hlong.
  - unfold Policy.comment_checks.
    destruct (JS.nullish (Policy.v_threadId ctx) (targetId d)) as [th|] eqn:Hth.
    + destruct (JS.truthy (Some th)) eqn:Htr.
      * assert (Hthne : th <> "") by (intros ->; cbn in Htr; discriminate).
        specialize (Hcount th eq_refl Hthne).
        destruct (Z.geb_spec (default 0 (Policy.commentsByThread p1 !! th))
                    (Policy.maxCommentsPerThread (Policy.config p1))) as [Hge|_].
        -- exfalso. unfold p1 in Hge. cbn in Hge. lia.
        -- now rewrite Hlong.
      * now rewrite Hlong.
    + now rewrite Hlong.
Qed.

Lemma content_too_long_rejected_witness :
  let cfg := Policy.mkConfig 5 3 (6 # 10) 4 10 in
  fst (Policy.validate
         (Policy.recordAction (Policy.new cfg) comment
            (Policy.mkRCtx None (Some "t1") (Some "hello")) 0)
         (mkDecision comment None None (Some "hello") None (8 # 10))
         (Policy.mkVCtx None (Some "t1") comment) 1000)
  = Policy.Rejected "content too long".
Proof.
  intros cfg.
  apply (content_too_long_rejected _ _ "hello").
  - now right.
  - reflexivity.
  - discriminate.
  - vm_compute. reflexivity.
  - vm_compute. discriminate.
  - intros t Ht Hne. injection Ht as <-. vm_compute. reflexivity.
Defined.

(** X7. The per-thread cap as [validate] applies it: after [n] comments
    recorded on a thread, a comment validated with that thread as
    [context.threadId] is rejected with reason "max comments per thread
    exceeded" as soon as [n] reaches [maxCommentsPerThread], and a comment
    without content is allowed before. *)
Theorem comment_cap_on_context_thread :
  forall cfg (N n : nat) t t0 d ctx now,
    Policy.maxCommentsPerThread cfg = Z.of_nat N ->
    t <> "" ->
    Policy.v_threadId ctx = Some t ->
    action d = comment ->
    ~ (confidence d < Policy.confidenceThreshold cfg)%Q ->
    ((N <= n)%nat ->
     fst (Policy.validate (record_comments (Policy.new cfg) n t t0) d ctx now)
     = Policy.Rejected "max comments per thread exceeded")
    /\ ((n < N)%nat -> content d = None ->
        fst (Policy.validate (record_comments (Policy.new cfg) n t t0) d ctx now)
        = Policy.Allowed).
Proof.
  intros cfg N n t t0 d ctx now Hmax Hne Hctx Hd Hconf.
  set (p := record_comments (Policy.new cfg) n t t0).
  assert (Hcfg : Policy.config p = cfg) by (unfold p; now rewrite record_comments_config).
  assert (Hcount : default 0 (Policy.commentsByThread p !! t) = Z.of_nat n).
  { unfold p. rewrite record_comments_count by assumption.
    cbn [Policy.new Policy.commentsByThread]. rewrite lookup_empty.
    cbn [from_option id]. lia. }
  split.
  - intros Hn. apply (validate_comment_cap_context_thread p d ctx now t); try assumption.
    + now rewrite Hcfg.
    + rewrite Hcfg, Hmax, Hcount. lia.
  - intros Hn Hnone.
    rewrite validate_past_gate by (rewrite ?Hcfg, ?Hd; try discriminate; assumption).
    cbv zeta. cbn [fst]. rewrite Hd. unfold Policy.comment_checks, Policy.content_checks.
    rewrite Hctx, Hnone. cbn [JS.nullish]. rewrite (truthy_nonempty _ Hne).
    cbn [Policy.commentsByThread Policy.with_posts Policy.config].
    rewrite Hcount, Hcfg, Hmax.
    destruct (Z.geb_spec (Z.of_nat n) (Z.of_nat N)); [lia | reflexivity].
Qed.

Lemma comment_cap_on_context_thread_witness :
  let d := mkDecision comment None None None None (8 # 10) in
  let ctx := Policy.mkVCtx (Some "general") (Some "p1") comment in
  fst (Policy.validate (record_comments (Policy.new Policy.DEFAULT_CONFIG) 3 "p1" 0) d ctx 5)
  = Policy.Rejected "max comments per thread exceeded"
  /\ fst (Policy.validate (record_comments (Policy.new Policy.DEFAULT_CONFIG) 2 "p1" 0) d ctx 5)
     = Policy.Allowed.
Proof.
  intros d ctx. split.
  - apply (comment_cap_on_context_thread Policy.DEFAULT_CONFIG 3 3 "p1" 0 d ctx 5);
      first [reflexivity | discriminate | lia | (vm_compute; discriminate)].
  - apply (comment_cap_on_context_thread Policy.DEFAULT_CONFIG 3 2 "p1" 0 d ctx 5);
      first [reflexivity | discriminate | lia | (vm_compute; discriminate)].
Defined.

(** ** The memory store: bounded lists *)

Section CapFacts.

Import Memory.

Lemma apply_op_within_caps s op : all_within_caps s -> all_within_caps (apply_op s op).
Proof.
  intros (H1 & H2 & H3 & H4 & H5 & H6).
  destruct op; cbn [apply_op];
    try (repeat split; cbn; first [assumption | apply push_capped_length]).
  - unfold markThreadSeen. destruct (negb _);
      repeat split; cbn; first [assumption | apply push_capped_length].
  - unfold markCommentSeen. destruct (negb _);
      repeat split; cbn; first [assumption | apply push_capped_length].
Qed.

Lemma apply_ops_within_caps ops : forall s,
  all_within_caps s -> all_within_caps (apply_ops s ops).
Proof.
  induction ops as [|op ops IH]; intros s H; [exact H|].
  unfold apply_ops in *. cbn [fold_left]. apply IH. now apply apply_op_within_caps.
Qed.

Lemma recent_In {A} m (x : A) l : recent m x l -> In x l.
Proof. intros (older & newer & -> & _). apply in_or_app. right. now left. Qed.

Lemma push_capped_recent_new {A} cap (l : list A) x :
  (1 <= cap)%nat -> recent 1 x (push_capped cap l x).
Proof.
  intros Hcap. unfold push_capped, JS.push, JS.slice_last.
  destruct (Nat.ltb_spec cap (List.length (l ++ [x]))) as [Hlt|Hge].
  - rewrite length_app in *. cbn [List.length] in *. rewrite skipn_app.
    replace (List.length l + 1 - cap - List.length l)%nat with 0%nat by lia.
    cbn [skipn]. exists (skipn (List.length l + 1 - cap) l), []. split; [reflexivity|].
    cbn. lia.
  - exists l, []. split; [reflexivity | cbn; lia].
Qed.

Lemma push_capped_recent {A} cap (l : list A) x y m :
  recent m y l -> (m < cap)%nat -> recent (S m) y (push_capped cap l x).
Proof.
  intros (older & newer & -> & Hm) Hcap. unfold push_capped, JS.push, JS.slice_last.
  destruct (Nat.ltb_spec cap (List.length ((older ++ y :: newer) ++ [x]))) as [Hlt|Hge].
  - rewrite <- app_assoc. cbn [app]. rewrite !length_app. cbn [List.length].
    rewrite length_app. cbn [List.length].
    rewrite skipn_app.
    replace (List.length older + S (List.length newer + 1) - cap - List.length older)%nat
      with 0%nat by lia.
    cbn [skipn]. eexists _, (newer ++ [x])%list. split; [reflexivity|].
    rewrite length_app. cbn. lia.
  - exists older, (newer ++ [x])%list. split.
    + rewrite <- app_assoc. reflexivity.
    + rewrite length_app. cbn. lia.
Qed.

Lemma recent_weaken {A} m n (x : A) l : recent m x l -> (m <= n)%nat -> recent n x l.
Proof. intros (older & newer & E & H) Hle. exists older, newer. split; [exact E | lia]. Qed.

Lemma includes_In xs x : JS.includes xs x = true <-> In x xs.
Proof.
  unfold JS.includes. rewrite existsb_exists. split.
  - intros [y [Hy E]]. apply String.eqb_eq in E. now subst.
  - intros H. exists x. split; [exact H | apply String.eqb_refl].
Qed.

End CapFacts.

(** X8. Whatever sequence of mutating calls a newly constructed store goes
    through, its bounded lists stay within their caps: 500 seen threads and
    500 seen comments, 200 own post ids and 200 own comment ids, 100 recent
    decisions and 100 post fingerprints; a store within the caps stays so. *)
Theorem memory_lists_within_caps :
  (forall ops, all_within_caps (apply_ops Memory.new ops))
  /\ (forall s ops, all_within_caps s -> all_within_caps (apply_ops s ops)).
Proof.
  split.
  - intros ops. apply apply_ops_within_caps. repeat split; cbn; lia.
  - intros s ops H. now apply apply_ops_within_caps.
Qed.

Lemma memory_lists_within_caps_witness :
  all_within_caps
    (apply_ops (apply_ops Memory.new [Op_addAgentPostId "p1"; Op_markThreadSeen "t1"])
       [Op_addAgentPostContent "Hello" "world"; Op_setFirstPostAttempted]).
Proof.
  destruct memory_lists_within_caps as [Hnew Hany]. apply Hany. apply Hnew.
Defined.

(** ** The memory store: persistence and latches *)

Section StoreFacts.

Import Memory.

Lemma apply_op_dirty s op : apply_op s op = s \/ dirty (apply_op s op) = true.
Proof.
  destruct op; cbn [apply_op]; try (right; reflexivity).
  - unfold markThreadSeen. destruct (negb _); [right; reflexivity | now left].
  - unfold markCommentSeen. destruct (negb _); [right; reflexivity | now left].
Qed.

Lemma apply_ops_dirty ops : forall s,
  dirty s = true -> dirty (apply_ops s ops) = true.
Proof.
  induction ops as [|op ops IH]; intros s H; [exact H|].
  unfold apply_ops in *. cbn [fold_left]. apply IH.
  destruct (apply_op_dirty s op) as [E | E]; [rewrite E; exact H | exact E].
Qed.

Lemma apply_op_latch s op :
  hasAttemptedFirstPost s = true -> hasAttemptedFirstPost (apply_op s op) = true.
Proof.
  intros H. destruct op; cbn [apply_op]; try exact H; try reflexivity.
  - unfold markThreadSeen. destruct (negb _); exact H.
  - unfold markCommentSeen. destruct (negb _); exact H.
Qed.

Lemma apply_ops_latch ops : forall s,
  hasAttemptedFirstPost s = true -> hasAttemptedFirstPost (apply_ops s ops) = true.
Proof.
  induction ops as [|op ops IH]; intros s H; [exact H|].
  unfold apply_ops in *. cbn [fold_left]. apply IH. now apply apply_op_latch.
Qed.

Lemma apply_op_agentId s op :
  (forall id iso, op <> Op_setAgentId id iso) ->
  getAgentId (apply_op s op) = getAgentId s.
Proof.
  intros Hop. destruct op; cbn [apply_op]; try reflexivity.
  - unfold markThreadSeen. destruct (negb _); reflexivity.
  - unfold markCommentSeen. destruct (negb _); reflexivity.
  - exfalso. now apply (Hop id nowIso).
Qed.

End StoreFacts.

(** X9. A [save()] of a store with unsaved changes followed by [load()]
    restores the whole state: every list and every optional field comes
    back as it was, except that an unset [firstPostAttempted] comes back as
    [false]. [load()] replaces the state of the store it is called on and
    leaves its dirty flag alone. *)
Theorem save_then_load_restores_state :
  forall s disk,
    Memory.dirty s = true ->
    exists s' disk',
      Memory.save s disk None = Memory.Ok (s', disk')
      /\ Memory.dirty s' = false
      /\ Memory.state s' = Memory.state s
      /\ forall other,
           Memory.load other disk' None
           = Memory.Ok
               {| Memory.state :=
                    Memory.set_firstPostAttempted (Memory.state s)
                      (Memory.hasAttemptedFirstPost s);
                  Memory.dirty := Memory.dirty other |}.
Proof.
  intros s disk Hd. unfold Memory.save. rewrite Hd. cbn [negb].
  eexists. eexists. split; [reflexivity|]. split; [reflexivity|]. split; [reflexivity|].
  intros other. reflexivity.
Qed.

Lemma save_then_load_restores_state_witness :
  exists s' disk',
    Memory.save (Memory.addAgentPostId Memory.new "p1") None None = Memory.Ok (s', disk')
    /\ Memory.dirty s' = false
    /\ Memory.state s' = Memory.state (Memory.addAgentPostId Memory.new "p1")
    /\ forall other,
         Memory.load other disk' None
         = Memory.Ok
             {| Memory.state :=
                  Memory.set_firstPostAttempted
                    (Memory.state (Memory.addAgentPostId Memory.new "p1"))
                    (Memory.hasAttemptedFirstPost (Memory.addAgentPostId Memory.new "p1"));
                Memory.dirty := Memory.dirty other |}.
Proof.
  apply (save_then_load_restores_state (Memory.addAgentPostId Memory.new "p1") None).
  reflexivity.
Defined.

(** X10. [save()] touches the file only when there are unsaved changes:
    on a clean store it succeeds without any I/O (even if the disk would
    fail), and right after a successful save a second one is such a no-op.
    Every mutating call either leaves the store exactly as it was or marks
    it dirty, so no change is lost by the flag; a failing write of a dirty
    store is thrown. *)
Theorem save_writes_only_when_dirty :
  (forall s disk io,
     Memory.dirty s = false -> Memory.save s disk io = Memory.Ok (s, disk))
  /\ (forall s disk s' disk' io,
        Memory.save s disk None = Memory.Ok (s', disk') ->
        Memory.save s' disk' io = Memory.Ok (s', disk'))
  /\ (forall s op, apply_op s op = s \/ Memory.dirty (apply_op s op) = true)
  /\ (forall s disk code,
        Memory.dirty s = true ->
        Memory.save s disk (Some code) = Memory.Throw (Memory.ErrnoException code)).
Proof.
  split; [|split; [|split]].
  - intros s disk io H. unfold Memory.save. now rewrite H.
  - intros s disk s' disk' io H. unfold Memory.save in H.
    destruct (Memory.dirty s) eqn:Hd; cbn [negb] in H; injection H as <- <-.
    + reflexivity.
    + unfold Memory.save. now rewrite Hd.
  - apply apply_op_dirty.
  - intros s disk code H. unfold Memory.save. now rewrite H.
Qed.

Lemma save_writes_only_when_dirty_witness :
  Memory.save Memory.new None (Some "EACCES") = Memory.Ok (Memory.new, None)
  /\ Memory.save (Memory.setFirstPostAttempted Memory.new) None (Some "EACCES")
     = Memory.Throw (Memory.ErrnoException "EACCES").
Proof.
  destruct save_writes_only_when_dirty as [Hclean [_ [_ Hfail]]]. split.
  - apply Hclean. reflexivity.
  - apply Hfail. reflexivity.
Defined.

(** X11. The first-post latch is one way: unset on a new store and on a
    store loaded from a file that lacks the field, it is set by
    [setFirstPostAttempted], no other mutating call clears it, and it is
    still set in any store that loads the file after a save. *)
Theorem first_post_latch_is_one_way :
  Memory.hasAttemptedFirstPost Memory.new = false
  /\ (forall s ops,
        Memory.hasAttemptedFirstPost (apply_ops (Memory.setFirstPostAttempted s) ops) = true)
  /\ (forall s ops disk s' disk' other restarted,
        Memory.save (apply_ops (Memory.setFirstPostAttempted s) ops) disk None
        = Memory.Ok (s', disk') ->
        Memory.load other disk' None = Memory.Ok restarted ->
        Memory.hasAttemptedFirstPost restarted = true)
  /\ (forall other data restarted,
        Memory.p_firstPostAttempted data = None ->
        Memory.load other (Some (Memory.Document data)) None = Memory.Ok restarted ->
        Memory.hasAttemptedFirstPost restarted = false).
Proof.
  split; [reflexivity|]. split; [|split].
  - intros s ops. now apply apply_ops_latch.
  - intros s ops disk s' disk' other restarted Hsave Hload.
    pose proof (apply_ops_latch ops (Memory.setFirstPostAttempted s) eq_refl) as Hl.
    set (m := apply_ops (Memory.setFirstPostAttempted s) ops) in *.
    assert (Hd : Memory.dirty m = true) by (apply apply_ops_dirty; reflexivity).
    unfold Memory.save in Hsave. rewrite Hd in Hsave. cbn [negb] in Hsave.
    injection Hsave as <- <-. cbn in Hload. injection Hload as <-.
    unfold Memory.hasAttemptedFirstPost in *. cbn.
    destruct (Memory.firstPostAttempted (Memory.state m)) as [b|]; [|discriminate].
    cbn in *. exact Hl.
  - intros other data restarted Hnone Hload. cbn in Hload. injection Hload as <-.
    unfold Memory.hasAttemptedFirstPost. cbn. now rewrite Hnone.
Qed.

Lemma first_post_latch_is_one_way_witness :
  Memory.hasAttemptedFirstPost
    {| Memory.state :=
         Memory.hydrate (Memory.mkPartial None None (Some ["p1"]) None None (Some "agent")
                           None None None None None None);
       Memory.dirty := false |} = false.
Proof.
  destruct first_post_latch_is_one_way as [_ [_ [_ H]]].
  apply (H Memory.new (Memory.mkPartial None None (Some ["p1"]) None None (Some "agent")
                         None None None None None None)); reflexivity.
Defined.

(** X12. [setAgentId(id)] makes the store claimed exactly when [id] is not
    the empty string, and no other mutating call changes the agent id: a
    claimed store stays claimed. *)
Theorem claim_changes_only_in_setAgentId :
  Memory.isClaimed Memory.new = false
  /\ (forall s id nowIso,
        Memory.getAgentId (Memory.setAgentId s id nowIso) = Some id
        /\ Memory.isClaimed (Memory.setAgentId s id nowIso) = negb (String.eqb id ""))
  /\ (forall s op,
        (forall id nowIso, op <> Op_setAgentId id nowIso) ->
        Memory.getAgentId (apply_op s op) = Memory.getAgentId s
        /\ Memory.isClaimed (apply_op s op) = Memory.isClaimed s).
Proof.
  split; [reflexivity|]. split.
  - intros s id nowIso. split; reflexivity.
  - intros s op Hop. pose proof (apply_op_agentId s op Hop) as H.
    split; [exact H|]. unfold Memory.isClaimed, Memory.getAgentId in *. now rewrite H.
Qed.

Lemma claim_changes_only_in_setAgentId_witness :
  Memory.isClaimed
    (apply_op (Memory.setAgentId Memory.new "moltty" "2026-01-01T00:00:00.000Z")
       (Op_markThreadSeen "t1")) = true.
Proof.
  destruct claim_changes_only_in_setAgentId as [_ [_ H]].
  destruct (H (Memory.setAgentId Memory.new "moltty" "2026-01-01T00:00:00.000Z")
              (Op_markThreadSeen "t1")) as [_ E]; [discriminate|].
  rewrite E. reflexivity.
Defined.

(** X13. [getContext()] hands out the last 20 recent decisions at most, in
    order, with one memory line for each, and the lists of own post and
    comment ids; the decision just saved is always its last one. *)
Theorem getContext_recent_window :
  forall (Number_toString : Q -> string) s,
    let c := Memory.getContext Number_toString s in
    List.length (Memory.c_recentDecisions c)
    = Nat.min 20 (List.length (Memory.recentDecisions (Memory.state s)))
    /\ (exists older,
          Memory.recentDecisions (Memory.state s)
          = (older ++ Memory.c_recentDecisions c)%list)
    /\ List.length (Memory.c_recentAgentMemory c) = List.length (Memory.c_recentDecisions c)
    /\ Memory.c_agentPostIds c = Memory.agentPostIds (Memory.state s)
    /\ Memory.c_agentCommentIds c = Memory.agentCommentIds (Memory.state s)
    /\ forall ctx d o nowIso,
         exists earlier,
           Memory.c_recentDecisions
             (Memory.getContext Number_toString (Memory.saveDecision s ctx d o nowIso))
           = (earlier ++ [Memory.mkStored nowIso ctx d o])%list.
Proof.
  intros N s c. unfold c, Memory.getContext. cbn [Memory.c_recentDecisions
    Memory.c_recentAgentMemory Memory.c_agentPostIds Memory.c_agentCommentIds].
  split; [|split; [|split; [|split; [|split]]]].
  - unfold JS.slice_last. rewrite length_skipn. lia.
  - unfold JS.slice_last. eexists. symmetry. apply firstn_skipn.
  - apply length_map.
  - reflexivity.
  - reflexivity.
  - intros ctx d o nowIso. cbn [Memory.saveDecision Memory.mutated Memory.state
      Memory.set_recentDecisions Memory.recentDecisions].
    destruct (push_capped_recent_new Memory.MAX_RECENT_DECISIONS
                (Memory.recentDecisions (Memory.state s)) (Memory.mkStored nowIso ctx d o))
      as (older & newer & E & Hn); [unfold Memory.MAX_RECENT_DECISIONS; lia|].
    destruct newer; [|cbn in Hn; lia].
    unfold Memory.saveDecision. cbn [Memory.state Memory.mutated Memory.recentDecisions
      Memory.set_recentDecisions]. rewrite E.
    unfold JS.slice_last. rewrite length_app. cbn [List.length]. rewrite skipn_app.
    replace (List.length older + 1 - 20 - List.length older)%nat with 0%nat by lia.
    cbn [skipn]. eexists. reflexivity.
Qed.

(** ** The memory store: how long an entry is remembered *)

Section RetentionFacts.

Import Memory.

Lemma apply_op_recent_thread s op m id :
  recent m id (lastSeenThreadIds (state s)) -> (m < MAX_LAST_SEEN)%nat ->
  recent (S m) id (lastSeenThreadIds (state (apply_op s op))).
Proof.
  intros H Hm.
  assert (Hkeep : recent (S m) id (lastSeenThreadIds (state s)))
    by (apply (recent_weaken m); [exact H | lia]).
  destruct op; cbn [apply_op]; try exact Hkeep.
  - unfold markThreadSeen. destruct (negb _); [|exact Hkeep].
    cbn. now apply push_capped_recent.
  - unfold markCommentSeen. destruct (negb _); exact Hkeep.
Qed.

Lemma apply_op_recent_comment s op m id :
  recent m id (lastSeenCommentIds (state s)) -> (m < MAX_LAST_SEEN)%nat ->
  recent (S m) id (lastSeenCommentIds (state (apply_op s op))).
Proof.
  intros H Hm.
  assert (Hkeep : recent (S m) id (lastSeenCommentIds (state s)))
    by (apply (recent_weaken m); [exact H | lia]).
  destruct op; cbn [apply_op]; try exact Hkeep.
  - unfold markThreadSeen. destruct (negb _); exact Hkeep.
  - unfold markCommentSeen. destruct (negb _); [|exact Hkeep].
    cbn. now apply push_capped_recent.
Qed.

Lemma apply_op_recent_hash s op m h :
  recent m h (recentPostContentHashes (state s)) -> (m < MAX_RECENT_POST_HASHES)%nat ->
  recent (S m) h (recentPostContentHashes (state (apply_op s op))).
Proof.
  intros H Hm.
  assert (Hkeep : recent (S m) h (recentPostContentHashes (state s)))
    by (apply (recent_weaken m); [exact H | lia]).
  destruct op; cbn [apply_op]; try exact Hkeep.
  - unfold markThreadSeen. destruct (negb _); exact Hkeep.
  - unfold markCommentSeen. destruct (negb _); exact Hkeep.
  - cbn. now apply push_capped_recent.
Qed.

Lemma apply_ops_recent (proj : MemoryStore -> list string) (cap : nat) x :
  (forall s op m, recent m x (proj s) -> (m < cap)%nat -> recent (S m) x (proj (apply_op s op))) ->
  forall ops s m,
    recent m x (proj s) -> (m + List.length ops <= cap)%nat ->
    recent (m + List.length ops) x (proj (apply_ops s ops)).
Proof.
  intros Hstep. induction ops as [|op ops IH]; intros s m H Hm.
  - cbn. now rewrite Nat.add_0_r.
  - unfold apply_ops in *. cbn [fold_left List.length] in *.
    replace (m + S (List.length ops))%nat with (S m + List.length ops)%nat by lia.
    apply IH; [|lia]. apply Hstep; [exact H | lia].
Qed.

Lemma NoDup_push_capped cap (l : list string) x :
  List.NoDup l -> ~ In x l -> List.NoDup (push_capped cap l x).
Proof.
  intros Hl Hx. destruct (push_capped_suffix cap l x) as (evicted & E & _).
  assert (Hall : List.NoDup (l ++ [x])).
  { apply List.NoDup_app; [exact Hl | |].
    - constructor; [intros [] | constructor].
    - intros y Hy [<- | []]. contradiction. }
  rewrite E in Hall. exact (List.NoDup_app_remove_l _ _ Hall).
Qed.

Lemma apply_op_NoDup s op :
  List.NoDup (lastSeenThreadIds (state s)) /\ List.NoDup (lastSeenCommentIds (state s)) ->
  List.NoDup (lastSeenThreadIds (state (apply_op s op)))
  /\ List.NoDup (lastSeenCommentIds (state (apply_op s op))).
Proof.
  intros [Ht Hc]. destruct op; cbn [apply_op]; try (split; assumption).
  - unfold markThreadSeen.
    destruct (JS.includes (lastSeenThreadIds (state s)) id) eqn:E; cbn [negb];
      [split; assumption|].
    split; [|exact Hc]. cbn. apply NoDup_push_capped; [exact Ht|].
    intros Hin. apply includes_In in Hin. congruence.
  - unfold markCommentSeen.
    destruct (JS.includes (lastSeenCommentIds (state s)) id) eqn:E; cbn [negb];
      [split; assumption|].
    split; [exact Ht|]. cbn. apply NoDup_push_capped; [exact Hc|].
    intros Hin. apply includes_In in Hin. congruence.
Qed.

Lemma normalize_same a b :
  same_up_to_case_and_whitespace a b -> Policy.normalize a = Policy.normalize b.
Proof.
  intros H. unfold same_up_to_case_and_whitespace in H.
  rewrite !normalize_words. now rewrite H.
Qed.

Lemma contentHash_same t c t' c' :
  same_up_to_case_and_whitespace t t' -> same_up_to_case_and_whitespace c c' ->
  contentHash t c = contentHash t' c'.
Proof.
  intros Ht Hc. unfold contentHash.
  change (JS.trim (JS.replace_whitespace_runs (JS.toLowerCase t))) with (Policy.normalize t).
  change (JS.trim (JS.replace_whitespace_runs (JS.toLowerCase c))) with (Policy.normalize c).
  change (JS.trim (JS.replace_whitespace_runs (JS.toLowerCase t'))) with (Policy.normalize t').
  change (JS.trim (JS.replace_whitespace_runs (JS.toLowerCase c'))) with (Policy.normalize c').
  now rewrite (normalize_same _ _ Ht), (normalize_same _ _ Hc).
Qed.

End RetentionFacts.

(** X14. The seen-lists are sets: whatever calls a new store goes
    through, no id is twice in either list. A thread (or comment) that was
    not yet seen when it was marked is still seen after any 499 further
    mutating calls. *)
Theorem seen_ids_unique_and_retained :
  (forall ops,
     List.NoDup (Memory.lastSeenThreadIds (Memory.state (apply_ops Memory.new ops)))
     /\ List.NoDup (Memory.lastSeenCommentIds (Memory.state (apply_ops Memory.new ops))))
  /\ (forall s id ops,
        Memory.isThreadSeen s id = false ->
        (List.length ops < 500)%nat ->
        Memory.isThreadSeen (apply_ops (Memory.markThreadSeen s id) ops) id = true)
  /\ (forall s id ops,
        Memory.isCommentSeen s id = false ->
        (List.length ops < 500)%nat ->
        Memory.isCommentSeen (apply_ops (Memory.markCommentSeen s id) ops) id = true).
Proof.
  split; [|split].
  - intros ops. unfold apply_ops.
    assert (H : List.NoDup (Memory.lastSeenThreadIds (Memory.state Memory.new))
                /\ List.NoDup (Memory.lastSeenCommentIds (Memory.state Memory.new)))
      by (split; constructor).
    revert H. generalize Memory.new.
    induction ops as [|op ops IH]; intros s H; [exact H|].
    cbn [fold_left]. apply IH. now apply apply_op_NoDup.
  - intros s id ops Hnew Hlen. unfold Memory.isThreadSeen. apply includes_In.
    apply (recent_In (1 + List.length ops)).
    apply (apply_ops_recent (fun q => Memory.lastSeenThreadIds (Memory.state q))
             Memory.MAX_LAST_SEEN id).
    + intros q op m. apply apply_op_recent_thread.
    + unfold Memory.markThreadSeen. unfold Memory.isThreadSeen in Hnew. rewrite Hnew.
      cbn. apply push_capped_recent_new. unfold Memory.MAX_LAST_SEEN. lia.
    + unfold Memory.MAX_LAST_SEEN. lia.
  - intros s id ops Hnew Hlen. unfold Memory.isCommentSeen. apply includes_In.
    apply (recent_In (1 + List.length ops)).
    apply (apply_ops_recent (fun q => Memory.lastSeenCommentIds (Memory.state q))
             Memory.MAX_LAST_SEEN id).
    + intros q op m. apply apply_op_recent_comment.
    + unfold Memory.markCommentSeen. unfold Memory.isCommentSeen in Hnew. rewrite Hnew.
      cbn. apply push_capped_recent_new. unfold Memory.MAX_LAST_SEEN. lia.
    + unfold Memory.MAX_LAST_SEEN. lia.
Qed.

Lemma seen_ids_unique_and_retained_witness :
  Memory.isThreadSeen
    (apply_ops (Memory.markThreadSeen Memory.new "t1")
       [Op_markThreadSeen "t2"; Op_markCommentSeen "c1"; Op_markThreadSeen "t1"]) "t1" = true.
Proof.
  destruct seen_ids_unique_and_retained as [_ [H _]].
  apply H; [reflexivity | cbn; lia].
Defined.

(** X15. A post whose title and content differ from a recorded one only
    in case and whitespace is a duplicate, and it stays one for the next 99
    mutating calls at least (the history keeps the last 100 fingerprints). *)
Theorem duplicate_post_ignores_case_and_whitespace :
  forall s title content title' content' ops,
    same_up_to_case_and_whitespace title title' ->
    same_up_to_case_and_whitespace content content' ->
    (List.length ops < 100)%nat ->
    Memory.isDuplicatePost (apply_ops (Memory.addAgentPostContent s title content) ops)
      title' content' = true.
Proof.
  intros s title content title' content' ops Ht Hc Hlen.
  unfold Memory.isDuplicatePost. rewrite <- (contentHash_same _ _ _ _ Ht Hc).
  apply includes_In. apply (recent_In (1 + List.length ops)).
  apply (apply_ops_recent (fun q => Memory.recentPostContentHashes (Memory.state q))
           Memory.MAX_RECENT_POST_HASHES).
  - intros q op m. apply apply_op_recent_hash.
  - cbn. apply push_capped_recent_new. unfold Memory.MAX_RECENT_POST_HASHES. lia.
  - unfold Memory.MAX_RECENT_POST_HASHES. lia.
Qed.

Lemma duplicate_post_ignores_case_and_whitespace_witness :
  Memory.isDuplicatePost
    (apply_ops (Memory.addAgentPostContent Memory.new "Hello  World" "first   post")
       [Op_addAgentPostContent "Other" "text"])
    " hello world" "FIRST POST " = true.
Proof.
  apply duplicate_post_ignores_case_and_whitespace.
  - vm_compute. reflexivity.
  - vm_compute. reflexivity.
  - cbn. lia.
Defined.

(** ** The decision pipeline: what a run can and cannot do *)

Section PipelineFacts.

Import Policy Memory Scheduler.

Ltac run_done Ev :=
  cbn [result calls memory_after platform_writes is_recordAction List.filter
         List.length negb];
  (split; [lia|]); (split; [intros H; first [reflexivity | discriminate H]|]);
  (split;
   [ intros d o H;
     first [ discriminate H
           | injection H as <- <-;
             try match goal with E : action _ = _ |- _ => rewrite !E end;
             rewrite ?Ev; cbn [fst];
             repeat split; intros; try reflexivity; try discriminate; try congruence ]
   | intros H; first [ split; reflexivity | congruence ] ]).

Lemma run_shape Date_getTime Date_toISOString cfg policy memory postId submoltName ext clk :
  let r := decideAndExecute Date_getTime Date_toISOString cfg policy memory
             postId submoltName ext clk in
  (platform_writes (calls r) <= 1)%nat
  /\ (result r = None -> memory_after r = memory)
  /\ (forall d o, result r = Some (d, o) ->
        llm_decideAction ext = Some d
        /\ (o <> executed -> memory_after r = memory)
        /\ (o = skipped -> calls r = [])
        /\ (o = executed ->
            dryRun cfg = false
            /\ fst (validate policy d (mkVCtx (Some submoltName) (Some postId) (action d))
                      (t_validate clk)) = Allowed
            /\ post_gates Date_getTime cfg memory d (t_gate clk) = false)
        /\ (dryRun cfg = true -> o <> executed /\ calls r = []))
  /\ (dryRun cfg = true -> calls r = [] /\ memory_after r = memory).
Proof.
  unfold decideAndExecute.
  destruct (llm_decideAction ext) as [d0|]; [|run_done I].
  destruct (validate policy d0 _ (t_validate clk)) as [[|reason] p1] eqn:Ev;
    [|run_done Ev].
  destruct (post_gates _ _ _ _ _) eqn:Eg; [run_done Ev|].
  destruct (Action_eqb (action d0) ignore) eqn:Ei; [run_done Ev|].
  destruct (dryRun cfg) eqn:Edry; [run_done Ev|].
  unfold execute. destruct (action d0) eqn:Ea.
  - destruct (JS.truthy (content d0)); [destruct (moltbook_postPost ext)|]; run_done Ev.
  - destruct (JS.truthy (content d0)); [destruct (moltbook_postComment ext)|]; run_done Ev.
  - destruct (targetId d0) as [tid|], (voteDirection d0) as [dir|]; try run_done Ev.
    destruct (JS.truthy (Some tid)); [destruct (moltbook_vote ext)|]; run_done Ev.
  - cbn in Ei. discriminate.
Qed.

Lemma post_checks_repeated p d c ctx now :
  content d = Some c -> c <> "" ->
  JS.includes (recentContentHashes p) (simpleHash c) = true ->
  exists reason, post_checks p d ctx now = Some reason.
Proof.
  intros Hc Hne Hin. unfold post_checks.
  destruct (_ >=? _); [eauto|].
  unfold content_checks. rewrite Hc, (truthy_nonempty _ Hne).
  destruct (_ >? _); [eauto|]. unfold isRepetition. rewrite Hin. eauto.
Qed.

Lemma truthy_content d :
  JS.truthy (content d) = true -> exists c, content d = Some c /\ c <> "".
Proof.
  destruct (content d) as [c|]; [|discriminate]. intros H. exists c. split; [reflexivity|].
  intros ->. discriminate.
Qed.

Lemma allowed_confident p d ctx now :
  action d <> ignore -> fst (validate p d ctx now) = Allowed ->
  JS.Qltb (confidence d) (confidenceThreshold (config p)) = false.
Proof.
  intros Hi H. unfold validate in H. rewrite (Action_eqb_neq _ _ Hi) in H.
  destruct (JS.Qltb _ _); [discriminate | reflexivity].
Qed.

End PipelineFacts.

(** X16. One run of the decision pipeline makes at most one call on the
    platform; it leaves the memory store as it was unless its outcome is
    [executed]; a run that ends [skipped] and a run in dry-run mode make no
    call at all, and a dry run never ends [executed]. *)
Theorem pipeline_run_writes_at_most_once :
  forall Date_getTime Date_toISOString cfg policy memory postId submoltName ext clk,
    let r := Scheduler.decideAndExecute Date_getTime Date_toISOString cfg policy
               memory postId submoltName ext clk in
    (Scheduler.platform_writes (Scheduler.calls r) <= 1)%nat
    /\ (Scheduler.result r = None -> Scheduler.memory_after r = memory)
    /\ (forall d o,
          Scheduler.result r = Some (d, o) -> o <> executed ->
          Scheduler.memory_after r = memory)
    /\ (forall d, Scheduler.result r = Some (d, skipped) -> Scheduler.calls r = [])
    /\ (Scheduler.dryRun cfg = true ->
        Scheduler.calls r = [] /\ Scheduler.memory_after r = memory
        /\ forall d o, Scheduler.result r = Some (d, o) -> o <> executed).
Proof.
  intros Date_getTime Date_toISOString cfg policy memory postId submoltName ext clk r.
  destruct (run_shape Date_getTime Date_toISOString cfg policy memory postId
              submoltName ext clk) as (Hw & Hnone & Hsome & Hdry).
  fold r in Hw, Hnone, Hsome, Hdry.
  split; [exact Hw|]. split; [exact Hnone|]. split; [|split].
  - intros d o Hr Ho. destruct (Hsome d o Hr) as (_ & H & _). now apply H.
  - intros d Hr. destruct (Hsome d skipped Hr) as (_ & _ & H & _). now apply H.
  - intros Hd. destruct (Hdry Hd) as [Hc Hm]. split; [exact Hc|]. split; [exact Hm|].
    intros d o Hr. destruct (Hsome d o Hr) as (_ & _ & _ & _ & H). now destruct (H Hd).
Qed.

Lemma pipeline_run_writes_at_most_once_witness :
  let r := Scheduler.decideAndExecute (fun _ => None) (fun _ => "")
             (Scheduler.mkSchedConfig 5 30 true) (Policy.new Policy.DEFAULT_CONFIG)
             Memory.new "p1" "general"
             (Scheduler.mkCollab
                (Some (mkDecision comment None None (Some "nice") None (9 # 10)))
                None (Some "c1") true)
             (Scheduler.mkClock 0 0 0 0) in
  Scheduler.calls r = [] /\ Scheduler.memory_after r = Memory.new.
Proof.
  intros r.
  destruct (pipeline_run_writes_at_most_once (fun _ => None) (fun _ => "")
              (Scheduler.mkSchedConfig 5 30 true) (Policy.new Policy.DEFAULT_CONFIG)
              Memory.new "p1" "general"
              (Scheduler.mkCollab
                 (Some (mkDecision comment None None (Some "nice") None (9 # 10)))
                 None (Some "c1") true)
              (Scheduler.mkClock 0 0 0 0)) as (_ & _ & _ & _ & H).
  destruct (H eq_refl) as [Hc [Hm _]]. split; assumption.
Defined.

(** X17. The same post is not sent twice in a row: after a run that
    ended [executed] for a post decision with content, a run on the engine
    and the memory it left, in which the oracle gives the same decision
    again, ends [blocked] without any call, whatever the post, submolt,
    clock and platform answers are. *)
Theorem executed_post_is_blocked_when_repeated :
  forall Date_getTime Date_toISOString cfg policy memory postId submoltName ext clk d,
    let r := Scheduler.decideAndExecute Date_getTime Date_toISOString cfg policy
               memory postId submoltName ext clk in
    Scheduler.result r = Some (d, executed) ->
    action d = post ->
    JS.truthy (content d) = true ->
    forall postId' submoltName' ext' clk',
      Scheduler.llm_decideAction ext' = Some d ->
      let r' := Scheduler.decideAndExecute Date_getTime Date_toISOString cfg
                  (Scheduler.policy_after r) (Scheduler.memory_after r)
                  postId' submoltName' ext' clk' in
      Scheduler.result r' = Some (d, blocked) /\ Scheduler.calls r' = [].
Proof.
  intros Date_getTime Date_toISOString cfg policy memory postId submoltName ext clk d r
    Hr Hpost Htruthy postId' submoltName' ext' clk' Hllm.
  destruct (run_shape Date_getTime Date_toISOString cfg policy memory postId
              submoltName ext clk) as (_ & _ & Hsome & _).
  destruct (Hsome d executed Hr) as (_ & _ & _ & Hexec & _).
  destruct (Hexec eq_refl) as (_ & Hallowed & _).
  assert (Hni : action d <> ignore) by (rewrite Hpost; discriminate).
  pose proof (allowed_confident _ _ _ _ Hni Hallowed) as Hconf.
  destruct (pipeline_records Date_getTime Date_toISOString cfg policy memory postId
              submoltName ext clk) as [_ Hrec].
  destruct (Hrec d executed Hr) as [_ Hpol].
  fold r in Hpol. unfold counted_write in Hpol. rewrite Hpost, Htruthy in Hpol.
  destruct (truthy_content d Htruthy) as (c & Hc & Hne).
  assert (Hin : JS.includes (Policy.recentContentHashes (Scheduler.policy_after r))
                  (Policy.simpleHash c) = true).
  { rewrite Hpol. apply recordAction_includes; [now left | | exact Hne].
    unfold recorded_context. rewrite Hpost, Hc. reflexivity. }
  assert (Hcfg : Policy.config (Scheduler.policy_after r) = Policy.config policy).
  { rewrite Hpol, recordAction_config.
    unfold Policy.validate. destruct (Action_eqb _ _); [reflexivity|].
    destruct (JS.Qltb _ _); reflexivity. }
  intros r'. unfold r', Scheduler.decideAndExecute. rewrite Hllm.
  assert (Hrej : exists reason p1,
            Policy.validate (Scheduler.policy_after r) d
              (Policy.mkVCtx (Some submoltName') (Some postId') (action d))
              (Scheduler.t_validate clk') = (Policy.Rejected reason, p1)).
  { unfold Policy.validate. rewrite (Action_eqb_neq _ _ Hni), Hcfg, Hconf, Hpost.
    set (p1 := Policy.with_posts _ _).
    destruct (post_checks_repeated p1 d c
                (Policy.mkVCtx (Some submoltName') (Some postId') post)
                (Scheduler.t_validate clk') Hc Hne Hin) as [reason Hreason].
    rewrite Hreason. eauto. }
  destruct Hrej as (reason & p1 & Hrej). rewrite Hrej. split; reflexivity.
Qed.

Lemma executed_post_is_blocked_when_repeated_witness :
  let d := mkDecision post None (Some "Hello") (Some "first post") None (9 # 10) in
  let cfg := Scheduler.mkSchedConfig 5 30 false in
  let r := Scheduler.decideAndExecute (fun _ => None) (fun _ => "") cfg
             (Policy.new Policy.DEFAULT_CONFIG) Memory.new "p1" "general"
             (Scheduler.mkCollab (Some d) (Some "new1") None true)
             (Scheduler.mkClock 0 0 0 0) in
  let r' := Scheduler.decideAndExecute (fun _ => None) (fun _ => "") cfg
              (Scheduler.policy_after r) (Scheduler.memory_after r) "p2" "tech"
              (Scheduler.mkCollab (Some d) (Some "new2") None true)
              (Scheduler.mkClock 7200000 7200000 7200000 7200000) in
  Scheduler.result r' = Some (d, blocked) /\ Scheduler.calls r' = [].
Proof.
  intros d cfg r r'.
  apply (executed_post_is_blocked_when_repeated (fun _ => None) (fun _ => "") cfg
           (Policy.new Policy.DEFAULT_CONFIG) Memory.new "p1" "general"
           (Scheduler.mkCollab (Some d) (Some "new1") None true)
           (Scheduler.mkClock 0 0 0 0) d); reflexivity.
Defined.

(** X18. The post gates of the pipeline: a post decision with content
    whose title and content are a duplicate of a recorded post, or that
    comes less than [postIntervalMinutes] after [lastPostAt], ends
    [blocked] without any call and without any change to the memory. *)
Theorem post_gates_block_without_call :
  forall Date_getTime Date_toISOString cfg policy memory postId submoltName ext clk d c,
    Scheduler.llm_decideAction ext = Some d ->
    action d = post ->
    content d = Some c -> c <> "" ->
    (Memory.isDuplicatePost memory (Scheduler.post_title d c) c = true
     \/ exists lastPostAt last,
          Memory.getLastPostAt memory = Some lastPostAt /\ lastPostAt <> ""
          /\ Date_getTime lastPostAt = Some last
          /\ Scheduler.t_gate clk - last < Scheduler.postIntervalMinutes cfg * 60 * 1000) ->
    let r := Scheduler.decideAndExecute Date_getTime Date_toISOString cfg policy
               memory postId submoltName ext clk in
    Scheduler.result r = Some (d, blocked)
    /\ Scheduler.calls r = []
    /\ Scheduler.memory_after r = memory.
Proof.
  intros Date_getTime Date_toISOString cfg policy memory postId submoltName ext clk d c
    Hllm Hpost Hc Hne Hgate r.
  assert (Hg : Scheduler.post_gates Date_getTime cfg memory d (Scheduler.t_gate clk) = true).
  { unfold Scheduler.post_gates. rewrite Hpost, Hc, (truthy_nonempty _ Hne).
    destruct (Memory.isDuplicatePost memory (Scheduler.post_title d c) c) eqn:Hdup;
      [reflexivity|].
    destruct Hgate as [Hdup' | (iso & last & Hlast & Hiso & Htime & Hlt)]; [congruence|].
    rewrite Hlast, (truthy_nonempty _ Hiso), Htime. now apply Z.ltb_lt. }
  unfold r, Scheduler.decideAndExecute. rewrite Hllm.
  destruct (Policy.validate policy d _ (Scheduler.t_validate clk)) as [[|reason] p1];
    [rewrite Hg|]; repeat split; reflexivity.
Qed.

Lemma post_gates_block_without_call_witness :
  let d := mkDecision post None (Some "Hello") (Some "second post") None (9 # 10) in
  let memory := Memory.setLastPostAt Memory.new "2026-01-01T00:00:00.000Z" in
  let r := Scheduler.decideAndExecute (fun _ => Some 0) (fun _ => "")
             (Scheduler.mkSchedConfig 5 30 false) (Policy.new Policy.DEFAULT_CONFIG)
             memory "p1" "general"
             (Scheduler.mkCollab (Some d) (Some "new1") None true)
             (Scheduler.mkClock 1000 1799999 1000 1000) in
  Scheduler.result r = Some (d, blocked)
  /\ Scheduler.calls r = []
  /\ Scheduler.memory_after r = memory.
Proof.
  intros d memory r.
  apply (post_gates_block_without_call (fun _ => Some 0) (fun _ => "")
           (Scheduler.mkSchedConfig 5 30 false) (Policy.new Policy.DEFAULT_CONFIG)
           memory "p1" "general" (Scheduler.mkCollab (Some d) (Some "new1") None true)
           (Scheduler.mkClock 1000 1799999 1000 1000) d "second post");
    try reflexivity; try discriminate.
  right. exists "2026-01-01T00:00:00.000Z", 0.
  repeat split; try reflexivity; discriminate.
Defined.

(** ** The decision schema: round trip and strictness *)

Section SchemaMoreFacts.

Import Schema.

Lemma safeParse_fields fs a tid ti co vd cf :
  field "action" fs = Some (JString (Memory.Action_toString a)) ->
  field "targetId" fs = option_map JString tid ->
  field "title" fs = option_map JString ti ->
  field "content" fs = option_map JString co ->
  field "voteDirection" fs = option_map (fun v => JString (VoteDirection_toString v)) vd ->
  field "confidence" fs = Some (JNumber cf) ->
  DecisionSchema_safeParse (JObject fs)
  = if Qle_bool 0 cf && Qle_bool cf 1
    then Some (mkDecision a tid ti co vd cf) else None.
Proof.
  intros Ha Htid Hti Hco Hvd Hcf. unfold DecisionSchema_safeParse.
  rewrite Ha, Htid, Hti, Hco, Hvd, Hcf.
  assert (Ea : action_enum (Some (JString (Memory.Action_toString a))) = Some a)
    by (destruct a; reflexivity).
  assert (Etid : optional_string (option_map JString tid) = Some tid)
    by (destruct tid; reflexivity).
  assert (Eti : optional_string (option_map JString ti) = Some ti)
    by (destruct ti; reflexivity).
  assert (Eco : optional_string (option_map JString co) = Some co)
    by (destruct co; reflexivity).
  assert (Evd : optional_direction
                  (option_map (fun v => JString (VoteDirection_toString v)) vd) = Some vd)
    by (destruct vd as [[]|]; reflexivity).
  rewrite Ea, Etid, Eti, Eco, Evd. cbn [unit_number].
  destruct (Qle_bool 0 cf && Qle_bool cf 1); reflexivity.
Qed.

Lemma Decision_toJson_parse d :
  DecisionSchema_safeParse (Decision_toJson d)
  = if Qle_bool 0 (confidence d) && Qle_bool (confidence d) 1 then Some d else None.
Proof.
  destruct d as [a tid ti co vd cf]. unfold Decision_toJson.
  cbn [action targetId title content voteDirection confidence].
  apply safeParse_fields;
    destruct tid, ti, co, vd; reflexivity.
Qed.

Lemma field_unknown_key k v fs key :
  k <> key -> field key ((k, v) :: fs) = field key fs.
Proof.
  intros Hk. cbn [field]. destruct (field key fs); [reflexivity|].
  destruct (String.eqb_spec k key); [contradiction | reflexivity].
Qed.

End SchemaMoreFacts.

(** X19. A decision written to JSON (its defined fields) and validated
    against [DecisionSchema] comes back unchanged when its confidence is in
    [0,1], and is refused otherwise. *)
Theorem decision_schema_round_trip :
  forall d,
    ((0 <= confidence d)%Q /\ (confidence d <= 1)%Q ->
     Schema.DecisionSchema_safeParse (Decision_toJson d) = Some d)
    /\ (~ ((0 <= confidence d)%Q /\ (confidence d <= 1)%Q) ->
        Schema.DecisionSchema_safeParse (Decision_toJson d) = None).
Proof.
  intros d. rewrite Decision_toJson_parse. split.
  - intros [H0 H1]. apply Qle_bool_iff in H0, H1. now rewrite H0, H1.
  - intros H. destruct (Qle_bool 0 (confidence d) && Qle_bool (confidence d) 1) eqn:B;
      [|reflexivity].
    exfalso. apply H. apply andb_prop in B. destruct B as [B0 B1].
    split; now apply Qle_bool_iff.
Qed.

Lemma decision_schema_round_trip_witness :
  let d := mkDecision vote (Some "p1") None None (Some up) (7 # 10) in
  Schema.DecisionSchema_safeParse (Decision_toJson d) = Some d
  /\ Schema.DecisionSchema_safeParse
       (Decision_toJson (mkDecision ignore None None None None (-1 # 10))) = None.
Proof.
  intros d. split.
  - apply decision_schema_round_trip. split; vm_compute; discriminate.
  - apply decision_schema_round_trip. intros [H _]. vm_compute in H. now apply H.
Defined.

(** X20. [DecisionSchema] is strict about the types of the keys it names
    and ignores the others: [null] for an optional field (and any other
    non-string value) makes the validation fail, a missing or ill-typed
    [action] or [confidence] too, while a key the schema does not name
    changes nothing. *)
Theorem decision_schema_strict_on_named_keys :
  (forall fs key,
     In key ["targetId"; "title"; "content"; "voteDirection"] ->
     Schema.field key fs = Some Schema.JNull ->
     Schema.DecisionSchema_safeParse (Schema.JObject fs) = None)
  /\ (forall fs,
        Schema.field "action" fs = None \/ Schema.field "confidence" fs = None ->
        Schema.DecisionSchema_safeParse (Schema.JObject fs) = None)
  /\ (forall fs k v,
        ~ In k schema_keys ->
        Schema.DecisionSchema_safeParse (Schema.JObject ((k, v) :: fs))
        = Schema.DecisionSchema_safeParse (Schema.JObject fs)).
Proof.
  split; [|split].
  - intros fs key Hkey Hnull. unfold Schema.DecisionSchema_safeParse.
    destruct (Schema.action_enum _); [|reflexivity].
    cbn in Hkey. destruct Hkey as [<- | [<- | [<- | [<- | []]]]]; rewrite Hnull;
      cbn [Schema.optional_string Schema.optional_direction];
      try reflexivity;
      repeat match goal with
             | |- context [match ?x with _ => _ end] => destruct x; try reflexivity
             end.
  - intros fs [H | H]; unfold Schema.DecisionSchema_safeParse; rewrite H;
      cbn [Schema.action_enum Schema.unit_number]; [reflexivity|].
    try reflexivity.
    repeat match goal with
           | |- context [match ?x with _ => _ end] => destruct x; try reflexivity
           end.
  - intros fs k v Hk. unfold Schema.DecisionSchema_safeParse.
    rewrite !field_unknown_key; [reflexivity| | | | | |];
      intros ->; apply Hk; cbn; tauto.
Qed.

Lemma decision_schema_strict_on_named_keys_witness :
  Schema.DecisionSchema_safeParse
    (Schema.JObject [("action", Schema.JString "ignore");
                     ("targetId", Schema.JNull);
                     ("confidence", Schema.JNumber (9 # 10))]) = None
  /\ Schema.DecisionSchema_safeParse
       (Schema.JObject [("reasoning", Schema.JString "nothing to add");
                        ("action", Schema.JString "ignore");
                        ("confidence", Schema.JNumber (9 # 10))])
     = Schema.DecisionSchema_safeParse
         (Schema.JObject [("action", Schema.JString "ignore");
                          ("confidence", Schema.JNumber (9 # 10))]).
Proof.
  destruct decision_schema_strict_on_named_keys as [Hnull [_ Hextra]]. split.
  - apply (Hnull _ "targetId"); [cbn; tauto | reflexivity].
  - apply Hextra. cbn. intros H.
    repeat destruct H as [H | H]; try discriminate. exact H.
Defined.

(** ** The rate limiter of the oracle *)

Section LimiterFacts.

Import RateLimiter.

Lemma filter_Forall_gt (l : list Z) (a : Z) :
  Forall (fun t => a < t) (List.filter (fun t => t >? a) l).
Proof.
  induction l as [|t l IH]; [constructor|]. cbn [List.filter].
  destruct (Z.gtb_spec t a); [constructor; [lia | exact IH] | exact IH].
Qed.

Lemma acquire_pass_granted rl now pushed rl' :
  1 <= maxCallsPerMinute rl ->
  acquire_pass rl now pushed = Granted rl' ->
  maxCallsPerMinute rl' = maxCallsPerMinute rl
  /\ Z.of_nat (List.length (timestamps rl')) <= maxCallsPerMinute rl
  /\ exists earlier,
       timestamps rl' = (earlier ++ [pushed])%list
       /\ Forall (fun t => now - 60 * 1000 < t) earlier.
Proof.
  intros Hmax. unfold acquire_pass.
  pose proof (filter_Forall_gt (timestamps rl) (now - 60 * 1000)) as Hall.
  set (ts := List.filter _ (timestamps rl)) in *.
  destruct (Z.geb_spec (Z.of_nat (List.length ts)) (maxCallsPerMinute rl)) as [Hge|Hlt].
  - destruct ts as [|oldest rest] eqn:Ets; [cbn in Hge; lia|].
    inversion Hall; subst.
    destruct (Z.gtb_spec (oldest + 60 * 1000 - now) 0); [discriminate | lia].
  - intros H. injection H as <-. cbn [maxCallsPerMinute timestamps].
    split; [reflexivity|]. split.
    + unfold JS.push. rewrite length_app. cbn [List.length]. lia.
    + exists ts. split; [reflexivity | exact Hall].
Qed.

Lemma filter_drop_head (f : Z -> bool) a l :
  f a = false -> (List.length (List.filter f (a :: l)) <= List.length l)%nat.
Proof. intros H. cbn [List.filter]. rewrite H. apply filter_length_le. Qed.

Lemma acquire_pass_sleep rl now pushed w rl1 :
  acquire_pass rl now pushed = Sleep w rl1 ->
  0 < w
  /\ maxCallsPerMinute rl1 = maxCallsPerMinute rl
  /\ (List.length (timestamps rl1) <= List.length (timestamps rl))%nat
  /\ exists oldest rest, timestamps rl1 = oldest :: rest /\ w = oldest + 60 * 1000 - now.
Proof.
  unfold acquire_pass.
  pose proof (filter_length_le (fun t => t >? now - 60 * 1000) (timestamps rl)) as Hlen.
  set (ts := List.filter _ (timestamps rl)) in *.
  destruct (Z.of_nat (List.length ts) >=? maxCallsPerMinute rl); [|discriminate].
  destruct ts as [|oldest rest]; [discriminate|].
  destruct (Z.gtb_spec (oldest + 60 * 1000 - now) 0) as [Hw|]; [|discriminate].
  intros H. injection H as <- <-. cbn [timestamps maxCallsPerMinute].
  split; [lia|]. split; [reflexivity|]. split; [exact Hlen|]. eauto.
Qed.

End LimiterFacts.

(** X21. The rate limiter (with a limit of at least 1) grants a slot only
    when, the new call included, at most [maxCallsPerMinute] calls lie in
    the last 60 seconds: the timestamps it keeps are the new one and
    earlier ones newer than 60 seconds. When it makes the caller wait, the
    wait is positive, and if the limiter held at most [maxCallsPerMinute]
    timestamps the slot is granted at the second pass, once the wait has
    elapsed. *)
Theorem rate_limiter_sliding_window :
  (forall rl now pushed rl',
     1 <= RateLimiter.maxCallsPerMinute rl ->
     RateLimiter.acquire_pass rl now pushed = RateLimiter.Granted rl' ->
     Z.of_nat (List.length (RateLimiter.timestamps rl')) <= RateLimiter.maxCallsPerMinute rl
     /\ exists earlier,
          RateLimiter.timestamps rl' = (earlier ++ [pushed])%list
          /\ Forall (fun t => now - 60 * 1000 < t) earlier)
  /\ (forall rl now pushed w rl1 now2 pushed2 rest,
        1 <= RateLimiter.maxCallsPerMinute rl ->
        Z.of_nat (List.length (RateLimiter.timestamps rl)) <= RateLimiter.maxCallsPerMinute rl ->
        RateLimiter.acquire_pass rl now pushed = RateLimiter.Sleep w rl1 ->
        now + w <= now2 ->
        0 < w
        /\ exists rl2,
             RateLimiter.acquire rl ((now, pushed) :: (now2, pushed2) :: rest)
             = Some (rl2, 2%nat)).
Proof.
  split.
  - intros rl now pushed rl' Hmax H.
    destruct (acquire_pass_granted rl now pushed rl' Hmax H) as (_ & Hlen & Hts).
    split; assumption.
  - intros rl now pushed w rl1 now2 pushed2 rest Hmax Hinv Hsleep Hwake.
    destruct (acquire_pass_sleep rl now pushed w rl1 Hsleep)
      as (Hw & Hcfg & Hlen & oldest & others & Hts & Hwait).
    split; [exact Hw|].
    cbn [RateLimiter.acquire]. rewrite Hsleep.
    assert (Hgrant : exists rl2, RateLimiter.acquire_pass rl1 now2 pushed2
                                 = RateLimiter.Granted rl2).
    { unfold RateLimiter.acquire_pass. rewrite Hts, Hcfg.
      assert (Hdrop : (List.length (List.filter (fun t => t >? now2 - 60 * 1000)
                                      (oldest :: others)) <= List.length others)%nat).
      { apply filter_drop_head. destruct (Z.gtb_spec oldest (now2 - 60 * 1000)); [lia|reflexivity]. }
      rewrite Hts in Hlen. cbn [List.length] in Hlen.
      destruct (Z.geb_spec
                  (Z.of_nat (List.length (List.filter (fun t => t >? now2 - 60 * 1000)
                                            (oldest :: others))))
                  (RateLimiter.maxCallsPerMinute rl)); [lia|].
      eauto. }
    destruct Hgrant as [rl2 Hgrant]. rewrite Hgrant. eauto.
Qed.

Lemma rate_limiter_sliding_window_witness :
  let rl := RateLimiter.mkLimiter 2 [1000; 2000] in
  exists rl2, RateLimiter.acquire rl [(3000, 3000); (61000, 61001)] = Some (rl2, 2%nat).
Proof.
  intros rl.
  destruct rate_limiter_sliding_window as [_ H].
  destruct (H rl 3000 3000 58000 (RateLimiter.mkLimiter 2 [1000; 2000]) 61000 61001 [])
    as [_ Hgrant]; try reflexivity; try (cbn; lia).
  exact Hgrant.
Defined.

(** ** The decision oracle: [decideAction] *)

Section OracleFacts.

Import LLM.

Lemma attempts_spec (reply : nat -> Reply) (remaining attempt : nat) :
  let '(res, n) := attempts reply remaining attempt in
  (n <= remaining)%nat
  /\ (forall i, (i + 1 < n)%nat -> asks_again (reply (attempt + i)%nat) = true)
  /\ (forall d, res = inr d ->
        (1 <= n)%nat
        /\ exists j, reply (attempt + (n - 1))%nat = Parsed j
                     /\ Schema.DecisionSchema_safeParse j = Some d)
  /\ (res = inl InvalidDecision ->
        n = remaining
        /\ forall i, (i < n)%nat -> asks_again (reply (attempt + i)%nat) = true)
  /\ (res = inl ApiError ->
        (1 <= n)%nat /\ reply (attempt + (n - 1))%nat = ApiThrows)
  /\ (res = inl EmptyResponse ->
        (1 <= n)%nat /\ reply (attempt + (n - 1))%nat = EmptyContent).
Proof.
  revert attempt. induction remaining as [|rem IH]; intros attempt.
  - cbn. split; [lia|]. split; [intros; lia|]. split; [discriminate|].
    split; [intros _; split; [reflexivity | intros; lia]|].
    split; discriminate.
  - cbn [attempts].
    assert (Hretry : asks_again (reply attempt) = true ->
      let '(res, n) := (let '(res, n) := attempts reply rem (S attempt) in (res, S n)) in
      (n <= S rem)%nat
      /\ (forall i, (i + 1 < n)%nat -> asks_again (reply (attempt + i)%nat) = true)
      /\ (forall d, res = inr d ->
            (1 <= n)%nat
            /\ exists j, reply (attempt + (n - 1))%nat = Parsed j
                         /\ Schema.DecisionSchema_safeParse j = Some d)
      /\ (res = inl InvalidDecision ->
            n = S rem
            /\ forall i, (i < n)%nat -> asks_again (reply (attempt + i)%nat) = true)
      /\ (res = inl ApiError ->
            (1 <= n)%nat /\ reply (attempt + (n - 1))%nat = ApiThrows)
      /\ (res = inl EmptyResponse ->
            (1 <= n)%nat /\ reply (attempt + (n - 1))%nat = EmptyContent)).
    { intros Hagain. specialize (IH (S attempt)).
      destruct (attempts reply rem (S attempt)) as [res n].
      destruct IH as (Hle & Hbefore & Hok & Hinv & Hapi & Hempty).
      assert (Hshift : forall i, (attempt + S i = S attempt + i)%nat) by (intros; lia).
      split; [lia|]. split.
      { intros [|i] Hi; [rewrite Nat.add_0_r; exact Hagain|].
        rewrite Hshift. apply Hbefore. lia. }
      split.
      { intros d Hd. destruct (Hok d Hd) as (Hn & j & Hj & Hparse).
        split; [lia|]. exists j. split; [|exact Hparse].
        replace (attempt + (S n - 1))%nat with (S attempt + (n - 1))%nat by lia. exact Hj. }
      split.
      { intros Hr. destruct (Hinv Hr) as [-> Hall]. split; [reflexivity|].
        intros [|i] Hi; [rewrite Nat.add_0_r; exact Hagain|].
        rewrite Hshift. apply Hall. lia. }
      split.
      { intros Hr. destruct (Hapi Hr) as [Hn Hj]. split; [lia|].
        replace (attempt + (S n - 1))%nat with (S attempt + (n - 1))%nat by lia. exact Hj. }
      { intros Hr. destruct (Hempty Hr) as [Hn Hj]. split; [lia|].
        replace (attempt + (S n - 1))%nat with (S attempt + (n - 1))%nat by lia. exact Hj. } }
    destruct (reply attempt) as [| | |j] eqn:Er.
    + split; [lia|]. split; [intros; lia|]. split; [discriminate|].
      split; [discriminate|]. split; [|discriminate].
      intros _. split; [lia|]. cbn. rewrite Nat.add_0_r. exact Er.
    + split; [lia|]. split; [intros; lia|]. split; [discriminate|].
      split; [discriminate|]. split; [discriminate|].
      intros _. split; [lia|]. cbn. rewrite Nat.add_0_r. exact Er.
    + apply Hretry. reflexivity.
    + destruct (Schema.DecisionSchema_safeParse j) as [d|] eqn:Ej.
      * split; [lia|]. split; [intros; lia|]. split.
        { intros d' Hd. injection Hd as <-. split; [lia|]. exists j.
          cbn. rewrite Nat.add_0_r. split; [exact Er | exact Ej]. }
        split; [discriminate|]. split; discriminate.
      * apply Hretry. cbn [asks_again]. rewrite Ej. reflexivity.
Qed.

End OracleFacts.

(** X22. [decideAction] calls the completion API at least once and at
    most 3 times, and every call but the last got a reply that was not
    JSON or failed the schema. A decision it returns is the schema's
    reading of the last reply, so its confidence lies in [0, 1]. It gives
    up with "Invalid Decision" only after 3 such replies; an empty reply
    or a failing API call ends it at once, without another attempt. The
    rate limiter is asked for one slot per decision, however many API
    calls follow. *)
Theorem decideAction_bounded_retries :
  forall limiter readings reply r,
    LLM.decideAction limiter readings reply = Some r ->
    (1 <= LLM.api_calls r <= 3)%nat
    /\ (forall i, (i + 1 < LLM.api_calls r)%nat -> asks_again (reply i) = true)
    /\ (forall d, LLM.answer r = inr d ->
          (exists j, reply (LLM.api_calls r - 1)%nat = LLM.Parsed j
                     /\ Schema.DecisionSchema_safeParse j = Some d)
          /\ (0 <= confidence d)%Q
          /\ (confidence d <= 1)%Q)
    /\ (LLM.answer r = inl LLM.InvalidDecision ->
          LLM.api_calls r = 3%nat
          /\ forall i, (i < 3)%nat -> asks_again (reply i) = true)
    /\ (LLM.answer r = inl LLM.ApiError ->
          reply (LLM.api_calls r - 1)%nat = LLM.ApiThrows)
    /\ (LLM.answer r = inl LLM.EmptyResponse ->
          reply (LLM.api_calls r - 1)%nat = LLM.EmptyContent)
    /\ (forall rl, limiter = Some rl ->
          exists rl' passes,
            RateLimiter.acquire rl readings = Some (rl', passes)
            /\ LLM.limiter_after r = Some rl').
Proof.
  intros limiter readings reply r Hr.
  pose proof (attempts_spec reply LLM.MAX_PARSE_RETRIES 0) as Hspec.
  assert (Hshape : exists la,
            r = LLM.mkDecided la (fst (LLM.attempts reply LLM.MAX_PARSE_RETRIES 0))
                  (snd (LLM.attempts reply LLM.MAX_PARSE_RETRIES 0))
            /\ forall rl, limiter = Some rl ->
                 exists rl' passes,
                   RateLimiter.acquire rl readings = Some (rl', passes) /\ la = Some rl').
  { unfold LLM.decideAction in Hr.
    destruct (LLM.attempts reply LLM.MAX_PARSE_RETRIES 0) as [res n].
    destruct limiter as [rl|].
    - destruct (RateLimiter.acquire rl readings) as [[rl' passes]|] eqn:Ea; [|discriminate].
      injection Hr as <-. exists (Some rl'). split; [reflexivity|].
      intros rl0 H0. injection H0 as <-. eauto.
    - injection Hr as <-. exists None. split; [reflexivity | discriminate]. }
  destruct Hshape as (la & -> & Hlim).
  destruct (LLM.attempts reply LLM.MAX_PARSE_RETRIES 0) as [res n].
  cbn [LLM.api_calls LLM.answer LLM.limiter_after fst snd].
  destruct Hspec as (Hle & Hbefore & Hok & Hinv & Hapi & Hempty).
  cbn [Nat.add] in *. unfold LLM.MAX_PARSE_RETRIES in *.
  assert (Hpos : (1 <= n)%nat).
  { destruct res as [[| |]|d].
    - apply Hapi; reflexivity.
    - apply Hempty; reflexivity.
    - destruct Hinv as [-> _]; [reflexivity | lia].
    - apply (Hok d); reflexivity. }
  split; [lia|]. split; [exact Hbefore|]. split.
  { intros d Hd. destruct (Hok d Hd) as (_ & j & Hj & Hparse).
    split; [eauto|]. apply (safeParse_confidence j d Hparse). }
  split.
  { intros H. destruct (Hinv H) as [-> Hall]. split; [reflexivity | exact Hall]. }
  split.
  { intros H. apply Hapi, H. }
  split.
  { intros H. apply Hempty, H. }
  intros rl Hrl. destruct (Hlim rl Hrl) as (rl' & passes & Ha & ->). eauto.
Qed.

Lemma decideAction_bounded_retries_witness :
  let reply := fun i : nat =>
    match i with
    | O => LLM.NotJSON
    | _ => LLM.Parsed (Schema.JObject [("action", Schema.JString "ignore");
                                       ("confidence", Schema.JNumber (1 # 2))])
    end in
  exists r, LLM.decideAction (Some (RateLimiter.new 20)) [(0, 0)] reply = Some r
            /\ (1 <= LLM.api_calls r <= 3)%nat.
Proof.
  intros reply. eexists. split.
  - vm_compute. reflexivity.
  - refine (proj1 (decideAction_bounded_retries (Some (RateLimiter.new 20)) [(0, 0)]
                     reply _ _)).
    vm_compute. reflexivity.
Defined.

(** ** The platform client: [request] *)

Lemma unwrap_no_status body status :
  Client.unwrap body <> Client.Thrown (Some status).
Proof.
  unfold Client.unwrap. destruct body as [| | | | |fs]; try discriminate.
  destruct (Schema.field "success" fs) as [success|]; [|discriminate].
  destruct success as [|[|]| | | |]; try discriminate;
    destruct (Schema.field "data" fs); discriminate.
Qed.

(** X23. [request] fetches at least once and at most 3 times, and fetches
    again only after a network failure or a 429/5xx status; before the
    second fetch it sleeps 1000 ms and before the third 2000 ms. What it
    returns comes from the last response, which was ok; a status error it
    throws carries the status of the last response, and if that status was
    retryable the 3 attempts are used up. A reply with [success: false] is
    thrown at once and never retried. *)
Theorem request_retries_with_backoff :
  forall fetch,
    let r := Client.request fetch in
    (1 <= Client.fetches r <= 3)%nat
    /\ Client.sleeps r = firstn (Client.fetches r - 1) [1000; 2000]
    /\ (forall i, (i + 1 < Client.fetches r)%nat -> transient (fetch i) = true)
    /\ (forall data, Client.outcome r = Client.Returned data ->
          exists status body,
            fetch (Client.fetches r - 1)%nat = Client.Response status body
            /\ Client.ok status = true
            /\ Client.unwrap body = Client.Returned data)
    /\ (forall status, Client.outcome r = Client.Thrown (Some status) ->
          Client.ok status = false
          /\ (exists body, fetch (Client.fetches r - 1)%nat = Client.Response status body)
          /\ (Client.isRetryable status = true -> Client.fetches r = 3%nat))
    /\ (forall status body,
          fetch (Client.fetches r - 1)%nat = Client.Response status body ->
          Client.ok status = true ->
          Client.outcome r = Client.unwrap body).
Proof.
  intros fetch r. subst r.
  unfold Client.request, Client.MAX_RETRIES, Client.INITIAL_BACKOFF_MS.
  assert (Hsmall : forall i P, (i + 1 < 1)%nat -> P) by (intros; lia).
  assert (Hone : forall i, (i + 1 < 2)%nat -> i = 0%nat) by (intros; lia).
  assert (Htwo : forall i, (i + 1 < 3)%nat -> i = 0%nat \/ i = 1%nat) by (intros; lia).
  cbn -[Client.ok Client.isRetryable Client.unwrap].
  destruct (fetch 0%nat) as [|s0 b0] eqn:E0;
    [|destruct (Client.ok s0) eqn:O0; [|destruct (Client.isRetryable s0) eqn:R0]];
    cbn -[Client.ok Client.isRetryable Client.unwrap];
    try (destruct (fetch 1%nat) as [|s1 b1] eqn:E1;
         [|destruct (Client.ok s1) eqn:O1; [|destruct (Client.isRetryable s1) eqn:R1]];
         cbn -[Client.ok Client.isRetryable Client.unwrap];
         try (destruct (fetch 2%nat) as [|s2 b2] eqn:E2;
              [|rewrite ?Bool.andb_false_r; destruct (Client.ok s2) eqn:O2];
              cbn -[Client.ok Client.isRetryable Client.unwrap]));
    (split; [lia|]); (split; [reflexivity|]);
    (split;
     [ intros i Hi;
       first [ exact (Hsmall i _ Hi)
             | rewrite (Hone i Hi), E0; cbn [transient]; rewrite ?O0, ?R0; reflexivity
             | destruct (Htwo i Hi) as [-> | ->];
               [ rewrite E0; cbn [transient]; rewrite ?O0, ?R0; reflexivity
               | rewrite E1; cbn [transient]; rewrite ?O1, ?R1; reflexivity ] ]
     | ]);
    (split;
     [ intros data Hd;
       first [ discriminate Hd
             | exists s0, b0; split; [exact E0 | split; [exact O0 | exact Hd]]
             | exists s1, b1; split; [exact E1 | split; [exact O1 | exact Hd]]
             | exists s2, b2; split; [exact E2 | split; [exact O2 | exact Hd]] ]
     | ]);
    (split;
     [ intros status Hs;
       first
         [ discriminate Hs
         | exfalso; exact (unwrap_no_status _ _ Hs)
         | injection Hs as <-;
           first [ split; [exact O0 | split; [exists b0; exact E0 | intros HR; congruence]]
                 | split; [exact O1 | split; [exists b1; exact E1 | intros HR; congruence]]
                 | split; [exact O2 | split; [exists b2; exact E2 | reflexivity]] ]
         | idtac ]
     | intros status body Hf Hok;
       first [ rewrite E0 in Hf | rewrite E1 in Hf | rewrite E2 in Hf ];
       first [ discriminate Hf
             | injection Hf as <- <-; first [reflexivity | congruence] ] ]).
Qed.

Lemma request_retries_with_backoff_witness :
  let body := Schema.JObject [("success", Schema.JBool true);
                              ("data", Schema.JString "ok")] in
  let fetch := fun i : nat =>
    match i with
    | O => Client.Response 503 Schema.JNull
    | _ => Client.Response 200 body
    end in
  Client.outcome (Client.request fetch) = Client.unwrap body.
Proof.
  intros body fetch.
  destruct (request_retries_with_backoff fetch) as (_ & _ & _ & _ & _ & H).
  apply (H 200 body); reflexivity.
Defined.

(** ** The claim flow *)

Lemma claimAgent_cases memory status me nowIso :
  (exists aid, Memory.isClaimed memory = true
               /\ Memory.getAgentId memory = Some aid /\ aid <> ""
               /\ Claim.claimAgent memory status me nowIso
                  = Claim.mkClaimed (Claim.ClaimOk aid) memory 0)
  \/ (exists n, Memory.isClaimed memory = false
                /\ Claim.claimAgent memory status me nowIso
                   = Claim.mkClaimed Claim.ClaimFailed memory n)
  \/ (exists aid, Memory.isClaimed memory = false
                  /\ status = Some Claim.claimed /\ me = Some aid /\ aid <> ""
                  /\ Claim.claimAgent memory status me nowIso
                     = Claim.mkClaimed (Claim.ClaimOk aid)
                         (Memory.setAgentId memory aid nowIso) 2).
Proof.
  unfold Claim.claimAgent. destruct (Memory.isClaimed memory) eqn:Hc.
  - left. unfold Memory.isClaimed, Memory.getAgentId, JS.truthy in *.
    destruct (Memory.agentId (Memory.state memory)) as [aid|]; [|discriminate].
    exists aid. split; [reflexivity|]. split; [reflexivity|]. split; [|reflexivity].
    intros ->. discriminate.
  - right. destruct status as [[|]|]; try (left; eexists; split; reflexivity).
    destruct me as [aid|]; [|left; eexists; split; reflexivity].
    destruct (JS.truthy (Some aid)) eqn:Ht; cbn [negb];
      [|left; eexists; split; reflexivity].
    right. exists aid. repeat split. intros ->. discriminate.
Qed.

(** X24. [claimAgent] on a store that already holds an agent id answers
    with that id without calling the platform and without touching the
    store. Otherwise it succeeds only when the platform reports the agent
    as claimed and its profile has a non-empty name: it then stores that
    name with the current time, so that the store is claimed and every
    later [claimAgent] returns the same id without a platform call. When
    it fails (pending claim, a failing call, a profile without a name) the
    store is left as it was. *)
Theorem claimAgent_stores_identity_once :
  forall memory status me nowIso,
    let r := Claim.claimAgent memory status me nowIso in
    (Memory.isClaimed memory = true ->
       Claim.platform_calls r = 0%nat
       /\ Claim.memory_after r = memory
       /\ exists id, Memory.getAgentId memory = Some id /\ id <> ""
                     /\ Claim.claim r = Claim.ClaimOk id)
    /\ (forall id, Claim.claim r = Claim.ClaimOk id ->
          id <> ""
          /\ Memory.getAgentId (Claim.memory_after r) = Some id
          /\ forall status' me' nowIso',
               Claim.claimAgent (Claim.memory_after r) status' me' nowIso'
               = Claim.mkClaimed (Claim.ClaimOk id) (Claim.memory_after r) 0)
    /\ (forall id, Memory.isClaimed memory = false ->
          Claim.claim r = Claim.ClaimOk id ->
          status = Some Claim.claimed /\ me = Some id
          /\ Claim.memory_after r = Memory.setAgentId memory id nowIso
          /\ Memory.claimedAt (Memory.state (Claim.memory_after r)) = Some nowIso)
    /\ (Claim.claim r = Claim.ClaimFailed ->
          Memory.isClaimed memory = false /\ Claim.memory_after r = memory).
Proof.
  intros memory status me nowIso r.
  assert (Hagain : forall m id, Memory.getAgentId m = Some id -> id <> "" ->
            forall status' me' nowIso',
              Claim.claimAgent m status' me' nowIso'
              = Claim.mkClaimed (Claim.ClaimOk id) m 0).
  { intros m id Hm Hne status' me' nowIso'. unfold Claim.claimAgent.
    unfold Memory.isClaimed, Memory.getAgentId, JS.truthy in *. rewrite Hm.
    destruct (String.eqb_spec id ""); [contradiction|]. reflexivity. }
  destruct (claimAgent_cases memory status me nowIso)
    as [(aid & Hc & Hget & Hne & Hr) | [(n & Hc & Hr) | (aid & Hc & Hs & Hme & Hne & Hr)]];
    fold r in Hr; rewrite Hr;
    cbn [Claim.platform_calls Claim.memory_after Claim.claim]; rewrite Hc.
  - split; [intros _; split; [reflexivity | split; [reflexivity | eauto]]|].
    split.
    { intros id' H. injection H as <-. split; [exact Hne|]. split; [exact Hget|].
      apply Hagain; assumption. }
    split; [discriminate|]. discriminate.
  - split; [discriminate|]. split; [discriminate|]. split; [discriminate|].
    intros _. split; reflexivity.
  - split; [discriminate|]. split.
    { intros id' H. injection H as <-. split; [exact Hne|]. split; [reflexivity|].
      apply Hagain; [reflexivity | exact Hne]. }
    split; [|discriminate].
    intros id' _ H. injection H as <-. repeat split; assumption.
Qed.

Lemma claimAgent_stores_identity_once_witness :
  Memory.getAgentId
    (Claim.memory_after
       (Claim.claimAgent Memory.new (Some Claim.claimed) (Some "molty")
          "2026-01-01T00:00:00.000Z"))
  = Some "molty".
Proof.
  destruct (claimAgent_stores_identity_once Memory.new (Some Claim.claimed) (Some "molty")
              "2026-01-01T00:00:00.000Z") as (_ & H & _).
  apply (H "molty"). reflexivity.
Defined.

(** ** The first post at start-up *)

(** X25. The introduction post is attempted at most once. Whenever the
    start-up block calls [postPost] it first sets the [firstPostAttempted]
    latch, and once the state has been saved no later run of the block
    posts again: neither in the same process nor in a new one that loads
    the saved file, whether or not the post went through. With [DRY_RUN]
    the block does nothing at all and the latch stays unset. A post that
    went through is remembered with its id, its content fingerprint and
    its time. *)
Theorem first_post_attempted_at_most_once :
  forall N memory disk dryRun title content posted nowIso io_try io_catch,
    let r := Startup.firstPost N memory disk dryRun title content posted nowIso
               io_try io_catch in
    (Startup.postPost_calls r <= 1)%nat
    /\ (dryRun = true ->
          Startup.postPost_calls r = 0%nat /\ Startup.saved r = Memory.Ok (memory, disk))
    /\ (Startup.postPost_calls r = 0%nat -> Startup.saved r = Memory.Ok (memory, disk))
    /\ (forall m' disk',
          Startup.postPost_calls r = 1%nat ->
          Startup.saved r = Memory.Ok (m', disk') ->
          Memory.hasAttemptedFirstPost m' = true
          /\ (forall d2 dry2 t2 c2 p2 n2 i2 j2,
                Startup.postPost_calls
                  (Startup.firstPost N m' d2 dry2 t2 c2 p2 n2 i2 j2) = 0%nat)
          /\ (forall other restarted,
                Memory.load other disk' None = Memory.Ok restarted ->
                forall d2 dry2 t2 c2 p2 n2 i2 j2,
                  Startup.postPost_calls
                    (Startup.firstPost N restarted d2 dry2 t2 c2 p2 n2 i2 j2) = 0%nat)
          /\ (forall id, posted = Some id ->
                Memory.isDuplicatePost m' title content = true
                /\ Memory.getLastPostAt m' = Some nowIso
                /\ In id (Memory.agentPostIds (Memory.state m')))).
Proof.
  intros N memory disk dryRun title content posted nowIso io_try io_catch r. subst r.
  assert (Hlatch : forall m d2 dry2 t2 c2 p2 n2 i2 j2,
            Memory.hasAttemptedFirstPost m = true ->
            Startup.postPost_calls (Startup.firstPost N m d2 dry2 t2 c2 p2 n2 i2 j2) = 0%nat).
  { intros m d2 dry2 t2 c2 p2 n2 i2 j2 H. unfold Startup.firstPost. rewrite H.
    cbn [negb]. rewrite Bool.andb_false_r. reflexivity. }
  assert (Hsaved : forall m io s' disk',
            Memory.hasAttemptedFirstPost m = true -> Memory.dirty m = true ->
            Memory.save m disk io = Memory.Ok (s', disk') ->
            Memory.state s' = Memory.state m
            /\ forall other restarted,
                 Memory.load other disk' None = Memory.Ok restarted ->
                 Memory.hasAttemptedFirstPost restarted = true).
  { intros m io s' disk' Hl Hd Hs. unfold Memory.save in Hs. rewrite Hd in Hs.
    cbn [negb] in Hs. destruct io; [discriminate|]. injection Hs as <- <-.
    split; [reflexivity|]. intros other restarted Hload.
    cbv [Memory.load Memory.load_try Memory.readFile Memory.JSON_parse Memory.stringify]
      in Hload.
    injection Hload as <-. exact Hl. }
  unfold Startup.firstPost.
  destruct ((List.length _ =? 0)%nat && negb (Memory.hasAttemptedFirstPost memory)
            && negb dryRun) eqn:Hcond.
  2:{ cbn [Startup.postPost_calls Startup.saved].
      split; [lia|]. split; [intros _; split; reflexivity|].
      split; [reflexivity|]. intros m' disk' H. discriminate H. }
  apply Bool.andb_true_iff in Hcond. destruct Hcond as [_ Hdry].
  assert (Hfinish : forall m io s' disk',
            Memory.hasAttemptedFirstPost m = true -> Memory.dirty m = true ->
            Memory.save m disk io = Memory.Ok (s', disk') ->
            Memory.hasAttemptedFirstPost s' = true
            /\ (forall d2 dry2 t2 c2 p2 n2 i2 j2,
                  Startup.postPost_calls
                    (Startup.firstPost N s' d2 dry2 t2 c2 p2 n2 i2 j2) = 0%nat)
            /\ (forall other restarted,
                  Memory.load other disk' None = Memory.Ok restarted ->
                  forall d2 dry2 t2 c2 p2 n2 i2 j2,
                    Startup.postPost_calls
                      (Startup.firstPost N restarted d2 dry2 t2 c2 p2 n2 i2 j2) = 0%nat)).
  { intros m io s' disk' Hl Hd Hs.
    destruct (Hsaved m io s' disk' Hl Hd Hs) as [Hst Hre].
    assert (Hl' : Memory.hasAttemptedFirstPost s' = true).
    { unfold Memory.hasAttemptedFirstPost in *. rewrite Hst. exact Hl. }
    split; [exact Hl'|]. split.
    - intros. apply Hlatch, Hl'.
    - intros other restarted Hload. intros. apply Hlatch. eapply Hre, Hload. }
  destruct posted as [id|].
  - set (m4 := Memory.setLastPostAt _ nowIso).
    assert (Hm4 : Memory.hasAttemptedFirstPost m4 = true /\ Memory.dirty m4 = true
                  /\ Memory.isDuplicatePost m4 title content = true
                  /\ Memory.getLastPostAt m4 = Some nowIso
                  /\ In id (Memory.agentPostIds (Memory.state m4))).
    { split; [reflexivity|]. split; [reflexivity|]. split.
      - subst m4. unfold Memory.isDuplicatePost, Memory.setLastPostAt, Memory.mutated.
        cbn [Memory.state Memory.set_lastPostAt Memory.recentPostContentHashes].
        unfold Memory.addAgentPostContent, Memory.mutated.
        cbn [Memory.state Memory.set_recentPostContentHashes Memory.recentPostContentHashes].
        apply includes_push_capped. unfold Memory.MAX_RECENT_POST_HASHES. lia.
      - split; [reflexivity|].
        subst m4. cbn [Memory.setLastPostAt Memory.mutated Memory.state Memory.set_lastPostAt
                         Memory.agentPostIds Memory.addAgentPostContent
                         Memory.set_recentPostContentHashes Memory.addAgentPostId
                         Memory.set_agentPostIds].
        apply includes_In. apply includes_push_capped. unfold Memory.MAX_AGENT_IDS. lia. }
    destruct Hm4 as (Hl & Hd & Hdup & Hlast & Hin).
    assert (Hcarry : forall io s' disk',
              Memory.save m4 disk io = Memory.Ok (s', disk') ->
              Memory.isDuplicatePost s' title content = true
              /\ Memory.getLastPostAt s' = Some nowIso
              /\ In id (Memory.agentPostIds (Memory.state s'))).
    { intros io s' disk' Hs. destruct (Hsaved m4 io s' disk' Hl Hd Hs) as [Hst _].
      unfold Memory.isDuplicatePost, Memory.getLastPostAt in *. rewrite Hst.
      split; [exact Hdup | split; [exact Hlast | exact Hin]]. }
    destruct (Memory.save m4 disk io_try) as [[s1 d1]|e] eqn:Hs1;
      cbn [Startup.postPost_calls Startup.saved].
    + split; [lia|]. split; [intros ->; discriminate Hdry|]. split; [discriminate|].
      intros m' disk' _ H. injection H as <- <-.
      destruct (Hfinish m4 io_try s1 d1 Hl Hd Hs1) as (H1 & H2 & H3).
      split; [exact H1|]. split; [exact H2|]. split; [exact H3|].
      intros id' Hid. injection Hid as <-. apply (Hcarry io_try s1 d1 Hs1).
    + split; [lia|]. split; [intros ->; discriminate Hdry|]. split; [discriminate|].
      intros m' disk' _ H.
      destruct (Hfinish m4 io_catch m' disk' Hl Hd H) as (H1 & H2 & H3).
      split; [exact H1|]. split; [exact H2|]. split; [exact H3|].
      intros id' Hid. injection Hid as <-. apply (Hcarry io_catch m' disk' H).
  - cbn [Startup.postPost_calls Startup.saved].
    split; [lia|]. split; [intros ->; discriminate Hdry|]. split; [discriminate|].
    intros m' disk' _ H.
    destruct (Hfinish (Memory.setFirstPostAttempted memory) io_catch m' disk'
                eq_refl eq_refl H) as (H1 & H2 & H3).
    split; [exact H1|]. split; [exact H2|]. split; [exact H3|]. discriminate.
Qed.

Lemma first_post_attempted_at_most_once_witness :
  let r := Startup.firstPost (fun _ => "1") Memory.new None false "Hello" "Hi there"
             None "2026-01-01T00:00:00.000Z" None None in
  exists m' disk',
    Startup.saved r = Memory.Ok (m', disk')
    /\ forall other restarted,
         Memory.load other disk' None = Memory.Ok restarted ->
         Startup.postPost_calls
           (Startup.firstPost (fun _ => "1") restarted disk' false "Hello" "Hi there"
              (Some "p1") "2026-01-02T00:00:00.000Z" None None) = 0%nat.
Proof.
  intros r. eexists. eexists. split; [reflexivity|].
  intros other restarted Hload.
  destruct (first_post_attempted_at_most_once (fun _ => "1") Memory.new None false
              "Hello" "Hi there" None "2026-01-01T00:00:00.000Z" None None)
    as (_ & _ & _ & H).
  destruct (H _ _ eq_refl eq_refl) as (_ & _ & Hrestart & _).
  apply (Hrestart other restarted Hload).
Defined.

(** ** The proactive post *)

Section ProactiveFacts.

Import Policy Memory Scheduler.

Variable Date_getTime : string -> option Z.
Variable Date_toISOString : Z -> string.


End ProactiveFacts.



(** ** Processing a post and its comments *)

Section ProcessFacts.

Import Policy Memory Scheduler.

Variable Date_getTime : string -> option Z.
Variable Date_toISOString : Z -> string.
Variable Number_toString : Q -> string.

Lemma run_seen_lists cfg policy memory postId submoltName ext clk :
  let r := decideAndExecute Date_getTime Date_toISOString cfg policy memory
             postId submoltName ext clk in
  lastSeenThreadIds (state (memory_after r)) = lastSeenThreadIds (state memory)
  /\ lastSeenCommentIds (state (memory_after r)) = lastSeenCommentIds (state memory).
Proof.
  unfold decideAndExecute.
  destruct (llm_decideAction ext) as [d0|]; [|split; reflexivity].
  destruct (validate policy d0 _ (t_validate clk)) as [[|reason] p1];
    [|split; reflexivity].
  destruct (post_gates _ _ _ _ _); [split; reflexivity|].
  destruct (Action_eqb (action d0) ignore); [split; reflexivity|].
  destruct (dryRun cfg); [split; reflexivity|].
  unfold execute. destruct (action d0).
  - destruct (JS.truthy (content d0)); [destruct (moltbook_postPost ext)|];
      split; reflexivity.
  - destruct (JS.truthy (content d0)); [destruct (moltbook_postComment ext)|];
      split; reflexivity.
  - destruct (targetId d0) as [tid|], (voteDirection d0) as [dir|];
      try (split; reflexivity).
    destruct (JS.truthy (Some tid)); [destruct (moltbook_vote ext)|]; split; reflexivity.
  - split; reflexivity.
Qed.

Lemma run_dry_calls cfg policy memory postId submoltName ext clk :
  dryRun cfg = true ->
  calls (decideAndExecute Date_getTime Date_toISOString cfg policy memory
           postId submoltName ext clk) = [].
Proof.
  intros Hdry.
  apply (run_shape Date_getTime Date_toISOString cfg policy memory postId submoltName
           ext clk). exact Hdry.
Qed.

Lemma decide_and_save_facts cfg x st p submoltName comments :
  let st' := decide_and_save Date_getTime Date_toISOString Number_toString cfg x st p
               submoltName comments in
  k_runs st' = S (k_runs st)
  /\ k_totalNew st' = k_totalNew st
  /\ lastSeenThreadIds (state (k_memory st')) = lastSeenThreadIds (state (k_memory st))
  /\ lastSeenCommentIds (state (k_memory st')) = lastSeenCommentIds (state (k_memory st))
  /\ (dryRun cfg = true -> k_calls st' = k_calls st).
Proof.
  unfold decide_and_save. cbn [k_runs k_totalNew k_memory k_calls].
  split; [reflexivity|]. split; [reflexivity|].
  match goal with
  | |- context [result ?r] =>
      match r with
      | decideAndExecute _ _ ?c ?po ?m ?pid ?sn ?e ?ck =>
          destruct (run_seen_lists c po m pid sn e ck) as [Ht Hc];
          pose proof (run_dry_calls c po m pid sn e ck) as Hdry;
          cbv zeta in Ht, Hc; destruct (result r) as [[d o]|]
      end
  end.
  - split; [exact Ht|]. split; [exact Hc|].
    intros H. rewrite (Hdry H). apply app_nil_r.
  - split; [exact Ht|]. split; [exact Hc|].
    intros H. rewrite (Hdry H). apply app_nil_r.
Qed.

Lemma isThreadSeen_markThreadSeen m id : isThreadSeen (markThreadSeen m id) id = true.
Proof.
  unfold markThreadSeen, isThreadSeen.
  destruct (JS.includes (lastSeenThreadIds (state m)) id) eqn:E; cbn [negb]; [exact E|].
  cbn [mutated state set_lastSeenThreadIds lastSeenThreadIds].
  apply includes_push_capped. unfold MAX_LAST_SEEN. lia.
Qed.

Lemma markCommentSeen_threads m id :
  lastSeenThreadIds (state (markCommentSeen m id)) = lastSeenThreadIds (state m).
Proof. unfold markCommentSeen. destruct (negb _); reflexivity. Qed.

Lemma processComment_facts cfg x p submoltName comments st c :
  let st' := processComment Date_getTime Date_toISOString Number_toString cfg x p
               submoltName comments st c in
  (k_runs st <= k_runs st' <= S (k_runs st))%nat
  /\ k_totalNew st' = k_totalNew st
  /\ lastSeenThreadIds (state (k_memory st')) = lastSeenThreadIds (state (k_memory st))
  /\ (dryRun cfg = true -> k_calls st' = k_calls st).
Proof.
  unfold processComment. destruct (isCommentSeen (k_memory st) (Comment_id c)).
  - split; [lia|]. split; [reflexivity|]. split; [reflexivity|]. reflexivity.
  - destruct (decide_and_save_facts cfg x st p submoltName comments)
      as (Hr & Hn & Ht & _ & Hd). cbv zeta in Hr, Hn, Ht, Hd.
    unfold with_memory. cbn [k_runs k_totalNew k_memory k_calls].
    split; [lia|]. split; [exact Hn|]. split; [|exact Hd].
    rewrite markCommentSeen_threads. exact Ht.
Qed.

Lemma comments_loop_facts cfg x p submoltName comments cs : forall st,
  let st' := fold_left (processComment Date_getTime Date_toISOString Number_toString
                          cfg x p submoltName comments) cs st in
  (k_runs st <= k_runs st' <= k_runs st + List.length cs)%nat
  /\ k_totalNew st' = k_totalNew st
  /\ lastSeenThreadIds (state (k_memory st')) = lastSeenThreadIds (state (k_memory st))
  /\ (dryRun cfg = true -> k_calls st' = k_calls st).
Proof.
  induction cs as [|c cs IH]; intros st; cbn [fold_left List.length].
  - split; [lia|]. split; [reflexivity|]. split; reflexivity.
  - destruct (processComment_facts cfg x p submoltName comments st c)
      as (Hr & Hn & Ht & Hd). cbv zeta in Hr, Hn, Ht, Hd.
    destruct (IH (processComment Date_getTime Date_toISOString Number_toString cfg x p
                    submoltName comments st c)) as (Hr' & Hn' & Ht' & Hd').
    cbv zeta in Hr', Hn', Ht', Hd'.
    split; [lia|]. split; [congruence|]. split; [congruence|].
    intros H. rewrite (Hd' H). exact (Hd H).
Qed.

Lemma processPost_seen cfg x st p submoltName :
  isThreadSeen (k_memory st) (Post_id p) = true ->
  processPost Date_getTime Date_toISOString Number_toString cfg x st p submoltName = st.
Proof. intros H. unfold processPost. now rewrite H. Qed.

Lemma processPost_unseen cfg x st p submoltName :
  isThreadSeen (k_memory st) (Post_id p) = false ->
  let st' := processPost Date_getTime Date_toISOString Number_toString cfg x st p
               submoltName in
  isThreadSeen (k_memory st') (Post_id p) = true
  /\ k_totalNew st' = S (k_totalNew st)
  /\ (k_runs st < k_runs st')%nat
  /\ (forall comments,
        x_getComments x (S (k_runs st)) (Post_id p) = Some comments ->
        (k_runs st' <= S (k_runs st) + List.length comments)%nat)
  /\ (x_getComments x (S (k_runs st)) (Post_id p) = None -> k_runs st' = S (k_runs st))
  /\ (dryRun cfg = true -> k_calls st' = k_calls st).
Proof.
  intros Hunseen. unfold processPost. rewrite Hunseen.
  set (st0 := mkTickState (k_policy st) (k_memory st) (k_runs st) (S (k_totalNew st))
                (k_calls st)).
  destruct (decide_and_save_facts cfg x st0 p submoltName [])
    as (Hr & Hn & Ht & _ & Hd). cbv zeta in Hr, Hn, Ht, Hd.
  set (st1 := decide_and_save _ _ _ cfg x st0 p submoltName []) in *.
  set (st2 := with_memory st1 (markThreadSeen (k_memory st1) (Post_id p))).
  assert (H2 : isThreadSeen (k_memory st2) (Post_id p) = true
               /\ k_totalNew st2 = S (k_totalNew st)
               /\ k_runs st2 = S (k_runs st)
               /\ (dryRun cfg = true -> k_calls st2 = k_calls st)).
  { subst st2. unfold with_memory. cbn [k_memory k_totalNew k_runs k_calls].
    split; [apply isThreadSeen_markThreadSeen|]. split; [exact Hn|].
    split; [exact Hr | exact Hd]. }
  destruct H2 as (Hseen & Hnew & Hruns & Hcalls). rewrite Hruns.
  destruct (x_getComments x (S (k_runs st)) (Post_id p)) as [comments|].
  - destruct (comments_loop_facts cfg x p submoltName comments comments st2)
      as (Hr' & Hn' & Ht' & Hd'). cbv zeta in Hr', Hn', Ht', Hd'.
    split.
    { unfold isThreadSeen in *. rewrite Ht'. exact Hseen. }
    split; [congruence|]. split; [lia|]. split.
    { intros cs Hcs. injection Hcs as <-. lia. }
    split; [discriminate|].
    intros H. rewrite (Hd' H). exact (Hcalls H).
  - split; [exact Hseen|]. split; [exact Hnew|]. split; [lia|].
    split; [discriminate|]. split; [intros _; exact Hruns | exact Hcalls].
Qed.

End ProcessFacts.

(** X27. A post is processed once: [processPost] on a post whose id is in
    the seen-list changes nothing and asks nobody. On an unseen post it
    counts one new post, asks the oracle at least once and at most once
    more per comment fetched (once only when the comments cannot be
    fetched), and leaves the post marked as seen whatever the oracle and
    the platform answered, so that processing it again is a no-op. In
    dry-run mode no call is made. *)
Theorem processPost_once_per_thread :
  forall getTime toISO N cfg x st p submoltName,
    let st' := Scheduler.processPost getTime toISO N cfg x st p submoltName in
    (Memory.isThreadSeen (Scheduler.k_memory st) (Scheduler.Post_id p) = true -> st' = st)
    /\ (Memory.isThreadSeen (Scheduler.k_memory st) (Scheduler.Post_id p) = false ->
          Memory.isThreadSeen (Scheduler.k_memory st') (Scheduler.Post_id p) = true
          /\ Scheduler.k_totalNew st' = S (Scheduler.k_totalNew st)
          /\ (Scheduler.k_runs st < Scheduler.k_runs st')%nat
          /\ (forall comments,
                Scheduler.x_getComments x (S (Scheduler.k_runs st)) (Scheduler.Post_id p)
                = Some comments ->
                (Scheduler.k_runs st' <= S (Scheduler.k_runs st) + List.length comments)%nat)
          /\ (Scheduler.x_getComments x (S (Scheduler.k_runs st)) (Scheduler.Post_id p)
              = None ->
              Scheduler.k_runs st' = S (Scheduler.k_runs st)))
    /\ (forall cfg' x' submoltName',
          Memory.isThreadSeen (Scheduler.k_memory st) (Scheduler.Post_id p) = false ->
          Scheduler.processPost getTime toISO N cfg' x' st' p submoltName' = st')
    /\ (Scheduler.dryRun cfg = true -> Scheduler.k_calls st' = Scheduler.k_calls st).
Proof.
  intros getTime toISO N cfg x st p submoltName st'.
  pose proof (processPost_seen getTime toISO N cfg x st p submoltName) as Hseen.
  pose proof (processPost_unseen getTime toISO N cfg x st p submoltName) as Hunseen.
  cbv zeta in Hunseen. fold st' in Hseen, Hunseen.
  split; [exact Hseen|]. split.
  { intros H. destruct (Hunseen H) as (H1 & H2 & H3 & H4 & H5 & _).
    repeat (split; [assumption|]). assumption. }
  split.
  { intros cfg' x' submoltName' H. apply processPost_seen. apply (Hunseen H). }
  intros Hdry.
  destruct (Memory.isThreadSeen (Scheduler.k_memory st) (Scheduler.Post_id p)) eqn:E.
  - now rewrite Hseen.
  - apply (Hunseen eq_refl). exact Hdry.
Qed.

Lemma processPost_once_per_thread_witness :
  let x := Scheduler.mkExternals (fun _ _ => None) (fun _ => None) (fun _ => None)
             (fun _ => false) (fun _ _ => None) (fun _ _ => None) (fun _ _ => None)
             (fun _ => Scheduler.mkClock 0 0 0 0) (fun _ => 0) in
  let st := Scheduler.mkTickState (Policy.new Policy.DEFAULT_CONFIG) Memory.new 0 0 [] in
  let p := Scheduler.mkPost "t1" None "A title" None in
  Memory.isThreadSeen
    (Scheduler.k_memory
       (Scheduler.processPost (fun _ => None) (fun _ => "now") (fun _ => "1")
          (Scheduler.mkSchedConfig 30 30 false) x st p "general")) "t1" = true.
Proof.
  intros x st p.
  destruct (processPost_once_per_thread (fun _ => None) (fun _ => "now") (fun _ => "1")
              (Scheduler.mkSchedConfig 30 30 false) x st p "general") as (_ & H & _).
  apply H. reflexivity.
Defined.

(** ** Searching *)

Section SearchFacts.

Import Policy Memory Scheduler.



Variable Date_getTime : string -> option Z.
Variable Date_toISOString : Z -> string.
Variable Number_toString : Q -> string.



End SearchFacts.



(** ** Exploring when nothing is new *)

Section ExploreFacts.

Import Policy Memory Scheduler.


End ExploreFacts.




(** ** The context handed to the oracle *)

Section ContextFacts.

Import Policy Memory Scheduler.

Lemma slice_last_le {A} (n : nat) (xs : list A) :
  (List.length (JS.slice_last n xs) <= n)%nat.
Proof. unfold JS.slice_last. rewrite length_skipn. lia. Qed.

Lemma slice_last_all {A} (n : nat) (xs : list A) :
  (List.length xs <= n)%nat -> JS.slice_last n xs = xs.
Proof.
  intros H. unfold JS.slice_last.
  replace (List.length xs - n)%nat with 0%nat by lia. reflexivity.
Qed.

Lemma slice_last_map {A B} (f : A -> B) (n : nat) (xs : list A) :
  map f (JS.slice_last n xs) = JS.slice_last n (map f xs).
Proof. unfold JS.slice_last. rewrite length_map. symmetry. apply List.skipn_map. Qed.

Lemma join_blank sep parts :
  sep <> "" ->
  join sep parts = "" -> parts = [] \/ parts = [""].
Proof.
  intros Hsep. destruct parts as [|p [|q rest]]; cbn [join]; intros H.
  - left. reflexivity.
  - right. now rewrite H.
  - exfalso. destruct p; [|discriminate H]. cbn in H.
    destruct sep; [contradiction | discriminate H].
Qed.

End ContextFacts.

(** X30. The context built for a post names the post as thread and the
    submolt given. It carries at most the last 30 comments fetched, in
    their order and with their ids and texts, an author without a name
    shown as "?", and at most 20 memory lines. Empty parts are left out
    rather than sent empty: there is no empty text, no empty list of
    comments and no empty list of memory lines, and the thread text is
    absent exactly when the title is empty and the content is absent or
    empty. *)
Theorem buildContextForPost_bounded :
  forall N submoltName p comments memory,
    let c := Scheduler.buildContextForPost N submoltName p comments memory in
    Scheduler.ctx_threadId c = Some (Scheduler.Post_id p)
    /\ Scheduler.ctx_submoltId c = Some submoltName
    /\ Scheduler.threadContent c <> Some ""
    /\ (Scheduler.threadContent c = None <->
        Scheduler.Post_title p = ""
        /\ (Scheduler.Post_content p = None \/ Scheduler.Post_content p = Some ""))
    /\ (Scheduler.ctx_comments c = None <-> comments = [])
    /\ (forall l, Scheduler.ctx_comments c = Some l ->
          l <> [] /\ (List.length l <= 30)%nat
          /\ map Scheduler.cc_id l = JS.slice_last 30 (map Scheduler.Comment_id comments)
          /\ map Scheduler.cc_content l
             = JS.slice_last 30 (map Scheduler.Comment_content comments)
          /\ map Scheduler.cc_authorId l
             = JS.slice_last 30
                 (map (fun k => default "?" (Scheduler.Comment_author k)) comments))
    /\ (forall l, Scheduler.recentAgentMemory c = Some l ->
          l <> [] /\ (List.length l <= 20)%nat
          /\ List.length l
             = List.length (Memory.c_recentDecisions (Memory.getContext N memory))).
Proof.
  intros N submoltName p comments memory c. subst c.
  unfold Scheduler.buildContextForPost.
  cbn [Scheduler.ctx_threadId Scheduler.ctx_submoltId Scheduler.threadContent
         Scheduler.ctx_comments Scheduler.recentAgentMemory].
  split; [reflexivity|]. split; [reflexivity|].
  assert (Hsep : (Memory.newline ++ Memory.newline)%string <> "") by discriminate.
  set (parts := List.filter (fun s => JS.truthy (Some s)) _).
  assert (Hparts : forall s, In s parts -> s <> "").
  { intros s Hs. apply List.filter_In in Hs. destruct Hs as [_ Hs]. intros ->. discriminate. }
  assert (Hempty : parts = [] <->
                   Scheduler.Post_title p = ""
                   /\ (Scheduler.Post_content p = None \/ Scheduler.Post_content p = Some "")).
  { subst parts. cbn [List.filter JS.truthy].
    destruct (String.eqb_spec (Scheduler.Post_title p) "") as [Ht|Ht]; cbn [negb].
    - destruct (Scheduler.Post_content p) as [k|]; cbn [List.filter JS.truthy].
      + destruct (String.eqb_spec k "") as [->|Hk]; cbn [negb].
        * split; [intros _; split; [exact Ht | right; reflexivity] | reflexivity].
        * split; [discriminate|]. intros [_ [H|H]]; [discriminate H|].
          injection H as ->. contradiction.
      + split; [intros _; split; [exact Ht | left; reflexivity] | reflexivity].
    - split; [discriminate | intros [H _]; contradiction]. }
  assert (Hjoin : Scheduler.join (Memory.newline ++ Memory.newline) parts = "" <-> parts = []).
  { split.
    - intros H. destruct (join_blank _ _ Hsep H) as [H0|H0]; [exact H0|].
      exfalso. apply (Hparts ""); [rewrite H0; left; reflexivity | reflexivity].
    - intros ->. reflexivity. }
  split.
  { cbn [JS.truthy]. destruct (String.eqb_spec (Scheduler.join (Memory.newline ++ Memory.newline) parts) "") as [E|E]; cbn [negb].
    - discriminate.
    - intros H. injection H as H. contradiction. }
  split.
  { cbn [JS.truthy]. destruct (String.eqb_spec (Scheduler.join (Memory.newline ++ Memory.newline) parts) "") as [E|E]; cbn [negb].
    - split; [intros _; apply Hempty, Hjoin, E | reflexivity].
    - split; [discriminate|]. intros H. exfalso. apply E, Hjoin, Hempty, H. }
  set (commentList := map _ (JS.slice_last 30 comments)).
  assert (Hlen : List.length commentList = List.length (JS.slice_last 30 comments)).
  { subst commentList. apply length_map. }
  split.
  { destruct (Nat.ltb_spec 0 (List.length commentList)) as [Hpos|Hzero].
    - split; [discriminate|]. intros ->. rewrite Hlen in Hpos. cbn in Hpos. lia.
    - split; [intros _|reflexivity].
      rewrite Hlen in Hzero. unfold JS.slice_last in Hzero. rewrite length_skipn in Hzero.
      destruct comments; [reflexivity | cbn [List.length] in Hzero; lia]. }
  split.
  { intros l Hl. destruct (Nat.ltb_spec 0 (List.length commentList)) as [Hpos|Hzero];
      [|discriminate Hl]. injection Hl as <-.
    split; [intros E; rewrite E in Hpos; cbn in Hpos; lia|].
    split; [rewrite Hlen; apply slice_last_le|].
    subst commentList. rewrite !map_map. cbn [Scheduler.cc_id Scheduler.cc_content
                                                Scheduler.cc_authorId].
    rewrite !slice_last_map. repeat split; reflexivity. }
  intros l Hl. cbn [Memory.getContext Memory.c_recentAgentMemory Memory.c_recentDecisions] in *.
  destruct (Nat.ltb_spec 0 (List.length (map (Memory.memoryLine N)
              (JS.slice_last 20 (Memory.recentDecisions (Memory.state memory))))))
    as [Hpos|Hzero]; [|discriminate Hl].
  injection Hl as <-. split; [intros E; rewrite E in Hpos; cbn in Hpos; lia|].
  rewrite length_map. split; [apply slice_last_le | reflexivity].
Qed.

Lemma buildContextForPost_bounded_witness :
  exists l,
    Scheduler.ctx_comments
      (Scheduler.buildContextForPost (fun _ => "1") "general"
         (Scheduler.mkPost "t1" None "A title" None)
         [Scheduler.mkComment "c1" None "hi"; Scheduler.mkComment "c2" (Some "ann") "ho"]
         Memory.new) = Some l
    /\ map Scheduler.cc_authorId l = ["?"; "ann"].
Proof.
  eexists. split; [reflexivity|].
  destruct (buildContextForPost_bounded (fun _ => "1") "general"
              (Scheduler.mkPost "t1" None "A title" None)
              [Scheduler.mkComment "c1" None "hi"; Scheduler.mkComment "c2" (Some "ann") "ho"]
              Memory.new) as (_ & _ & _ & _ & _ & H & _).
  destruct (H _ eq_refl) as (_ & _ & _ & _ & Ha). exact Ha.
Defined.
